(** * Orchestration core of the forensic simulation controller

    Shallow embedding of the process supervisor ([ProcessManager]), the
    workflow engine ([WorkflowManager]) and the decision-tree rules, with
    the properties checked against them.

    Conventions of the embedding:
    - the three module-level registries ([activeProcesses], [processLogs],
      [workflowStates]) are fields of one explicit [World] that every
      handler takes and returns;
    - each handler reads the clock once ([now], milliseconds since the
      epoch, the value of [Date.now()]);
    - what the operating system or the worker decides (whether
      [process.kill] raises, the pid a spawn yields, the random id suffix)
      is an argument of the handler that observes it;
    - timers, signals and pollers created by a handler are recorded in the
      [World], so that "a timer was scheduled" or "a signal was sent" is a
      statement about the resulting state. *)

From Stdlib Require Import ZArith String List Lia.
From Stdlib Require QArith.
From Stdlib Require Import Sorting.Sorted.
From stdpp Require Import base option list gmap strings pretty fin_maps.

Set Warnings "-register-all".

Local Open Scope string_scope.
Local Open Scope list_scope.
Local Open Scope Z_scope.

(** ** Data model *)

(** [processStates]: the lifecycle enumeration of a supervised process. *)
Inductive ProcessState :=
  | IDLE | INITIALIZING | RUNNING | PAUSED | STOPPING | ERROR | COMPLETED.

#[global] Instance ProcessState_eq_dec : EqDecision ProcessState.
Proof. solve_decision. Defined.

(** The spec's terminal states of a process. *)
Definition terminal (s : ProcessState) : bool :=
  match s with
  | COMPLETED | ERROR => true
  | _ => false
  end.

(** A parameter object, as the list of its own string-valued keys. *)
Definition Params := list (string * string).

(** The object stored in [activeProcesses]; [endTime] and [error] are
    absent until a handler assigns them. *)
Record ProcessInfo := {
  p_type : string;
  p_parameters : Params;
  p_state : ProcessState;
  p_startTime : Z;
  p_updateTime : Z;
  p_progress : Z;
  p_pid : option Z;
  p_endTime : option Z;
  p_error : option string
}.

(** Field assignments on a process object. *)
Definition set_state (s : ProcessState) (p : ProcessInfo) : ProcessInfo :=
  {| p_type := p_type p; p_parameters := p_parameters p; p_state := s;
     p_startTime := p_startTime p; p_updateTime := p_updateTime p;
     p_progress := p_progress p; p_pid := p_pid p; p_endTime := p_endTime p;
     p_error := p_error p |}.

Definition set_updateTime (t : Z) (p : ProcessInfo) : ProcessInfo :=
  {| p_type := p_type p; p_parameters := p_parameters p; p_state := p_state p;
     p_startTime := p_startTime p; p_updateTime := t;
     p_progress := p_progress p; p_pid := p_pid p; p_endTime := p_endTime p;
     p_error := p_error p |}.

Definition set_progress (n : Z) (p : ProcessInfo) : ProcessInfo :=
  {| p_type := p_type p; p_parameters := p_parameters p; p_state := p_state p;
     p_startTime := p_startTime p; p_updateTime := p_updateTime p;
     p_progress := n; p_pid := p_pid p; p_endTime := p_endTime p;
     p_error := p_error p |}.

Definition set_pid (n : option Z) (p : ProcessInfo) : ProcessInfo :=
  {| p_type := p_type p; p_parameters := p_parameters p; p_state := p_state p;
     p_startTime := p_startTime p; p_updateTime := p_updateTime p;
     p_progress := p_progress p; p_pid := n; p_endTime := p_endTime p;
     p_error := p_error p |}.

Definition set_endTime (t : Z) (p : ProcessInfo) : ProcessInfo :=
  {| p_type := p_type p; p_parameters := p_parameters p; p_state := p_state p;
     p_startTime := p_startTime p; p_updateTime := p_updateTime p;
     p_progress := p_progress p; p_pid := p_pid p; p_endTime := Some t;
     p_error := p_error p |}.

Definition set_error (e : string) (p : ProcessInfo) : ProcessInfo :=
  {| p_type := p_type p; p_parameters := p_parameters p; p_state := p_state p;
     p_startTime := p_startTime p; p_updateTime := p_updateTime p;
     p_progress := p_progress p; p_pid := p_pid p; p_endTime := p_endTime p;
     p_error := Some e |}.

(** What a call either returns or throws. *)
Inductive Completion (A : Type) :=
  | Returned (a : A)
  | Thrown (message : string).
Arguments Returned {A} a.
Arguments Thrown {A} message.

(** *** Workflow definitions *)

(** A branch of a decision step; [skipCount] may be left out. *)
Record Branch := {
  b_name : string;
  b_action : string;
  b_skipCount : option Z
}.

(** A step object, by its [type] field. The last constructor stands for
    any other [type] string. *)
Inductive Step :=
  | ProcessStep (name processType : string) (parameters : Params)
  | DecisionStep (name condition : string) (branches : list Branch)
  | DelayStep (name : string) (duration : Z)
  | ParallelStep (name : string) (steps : list Step)
  | OtherStep (name type : string).

(** The [state] strings of a workflow. *)
Inductive WorkflowState :=
  | created | running | stopping | stopped | completed | failed.

#[global] Instance WorkflowState_eq_dec : EqDecision WorkflowState.
Proof. solve_decision. Defined.

(** The object stored in [workflowStates]; [definition] is the step list
    [definition.steps], [processes] the spec's [processIds]. *)
Record Workflow := {
  w_id : string;
  w_type : string;
  w_parameters : Params;
  w_definition : list Step;
  w_currentStep : Z;
  w_state : WorkflowState;
  w_processes : list string;
  w_startTime : Z;
  w_updateTime : Z;
  w_endTime : option Z;
  w_error : option string
}.

Definition wf_set_state (s : WorkflowState) (f : Workflow) : Workflow :=
  {| w_id := w_id f; w_type := w_type f; w_parameters := w_parameters f;
     w_definition := w_definition f; w_currentStep := w_currentStep f;
     w_state := s; w_processes := w_processes f; w_startTime := w_startTime f;
     w_updateTime := w_updateTime f; w_endTime := w_endTime f;
     w_error := w_error f |}.

Definition wf_set_currentStep (n : Z) (f : Workflow) : Workflow :=
  {| w_id := w_id f; w_type := w_type f; w_parameters := w_parameters f;
     w_definition := w_definition f; w_currentStep := n;
     w_state := w_state f; w_processes := w_processes f;
     w_startTime := w_startTime f; w_updateTime := w_updateTime f;
     w_endTime := w_endTime f; w_error := w_error f |}.

Definition wf_set_processes (l : list string) (f : Workflow) : Workflow :=
  {| w_id := w_id f; w_type := w_type f; w_parameters := w_parameters f;
     w_definition := w_definition f; w_currentStep := w_currentStep f;
     w_state := w_state f; w_processes := l; w_startTime := w_startTime f;
     w_updateTime := w_updateTime f; w_endTime := w_endTime f;
     w_error := w_error f |}.

Definition wf_set_updateTime (t : Z) (f : Workflow) : Workflow :=
  {| w_id := w_id f; w_type := w_type f; w_parameters := w_parameters f;
     w_definition := w_definition f; w_currentStep := w_currentStep f;
     w_state := w_state f; w_processes := w_processes f;
     w_startTime := w_startTime f; w_updateTime := t;
     w_endTime := w_endTime f; w_error := w_error f |}.

Definition wf_set_endTime (t : Z) (f : Workflow) : Workflow :=
  {| w_id := w_id f; w_type := w_type f; w_parameters := w_parameters f;
     w_definition := w_definition f; w_currentStep := w_currentStep f;
     w_state := w_state f; w_processes := w_processes f;
     w_startTime := w_startTime f; w_updateTime := w_updateTime f;
     w_endTime := Some t; w_error := w_error f |}.

Definition wf_set_error (e : string) (f : Workflow) : Workflow :=
  {| w_id := w_id f; w_type := w_type f; w_parameters := w_parameters f;
     w_definition := w_definition f; w_currentStep := w_currentStep f;
     w_state := w_state f; w_processes := w_processes f;
     w_startTime := w_startTime f; w_updateTime := w_updateTime f;
     w_endTime := w_endTime f; w_error := Some e |}.

(** *** The shared state *)

Record World := {
  activeProcesses : gmap string ProcessInfo;
  processLogs : gmap string (list string);
  workflowStates : gmap string Workflow;
  (** pending [setTimeout] removals: due time and process id *)
  timers : list (Z * string);
  (** signals delivered by [process.kill]: pid and signal name *)
  signals : list (Z * string);
  (** running [setInterval] checkers: workflow id and process id *)
  pollers : list (string * string);
  (** pending [setImmediate] continuations: workflow id *)
  immediates : list string
}.

Definition initialWorld : World :=
  {| activeProcesses := ∅; processLogs := ∅; workflowStates := ∅;
     timers := []; signals := []; pollers := []; immediates := [] |}.

Definition with_activeProcesses (m : gmap string ProcessInfo) (w : World) : World :=
  {| activeProcesses := m; processLogs := processLogs w;
     workflowStates := workflowStates w; timers := timers w;
     signals := signals w; pollers := pollers w; immediates := immediates w |}.

Definition with_processLogs (m : gmap string (list string)) (w : World) : World :=
  {| activeProcesses := activeProcesses w; processLogs := m;
     workflowStates := workflowStates w; timers := timers w;
     signals := signals w; pollers := pollers w; immediates := immediates w |}.

Definition with_workflowStates (m : gmap string Workflow) (w : World) : World :=
  {| activeProcesses := activeProcesses w; processLogs := processLogs w;
     workflowStates := m; timers := timers w;
     signals := signals w; pollers := pollers w; immediates := immediates w |}.

Definition with_timers (l : list (Z * string)) (w : World) : World :=
  {| activeProcesses := activeProcesses w; processLogs := processLogs w;
     workflowStates := workflowStates w; timers := l;
     signals := signals w; pollers := pollers w; immediates := immediates w |}.

Definition with_signals (l : list (Z * string)) (w : World) : World :=
  {| activeProcesses := activeProcesses w; processLogs := processLogs w;
     workflowStates := workflowStates w; timers := timers w;
     signals := l; pollers := pollers w; immediates := immediates w |}.

Definition with_pollers (l : list (string * string)) (w : World) : World :=
  {| activeProcesses := activeProcesses w; processLogs := processLogs w;
     workflowStates := workflowStates w; timers := timers w;
     signals := signals w; pollers := l; immediates := immediates w |}.

Definition with_immediates (l : list string) (w : World) : World :=
  {| activeProcesses := activeProcesses w; processLogs := processLogs w;
     workflowStates := workflowStates w; timers := timers w;
     signals := signals w; pollers := pollers w; immediates := l |}.

(** [activeProcesses.set(id, info)] *)
Definition putProcess (id : string) (p : ProcessInfo) (w : World) : World :=
  with_activeProcesses (<[id := p]> (activeProcesses w)) w.

(** [workflowStates.set(id, workflow)] *)
Definition putWorkflow (id : string) (f : Workflow) (w : World) : World :=
  with_workflowStates (<[id := f]> (workflowStates w)) w.

(** Template-literal rendering of a number, of a nullable number, and of
    a nullable string. For a number this is the text the code prints for
    an integer of magnitude up to [2^53 - 1], its decimal digits; beyond
    that range a Number need not hold the integer, and from [10^21] on the
    code prints exponent notation. *)
Definition showZ (z : Z) : string := pretty z.

Definition showNumber (o : option Z) (absent : string) : string :=
  match o with Some z => showZ z | None => absent end.

Definition showString (o : option string) (absent : string) : string :=
  match o with Some s => s | None => absent end.

(** JavaScript truthiness of a pid: [null], [undefined] and [0] are falsy. *)
Definition truthy_pid (o : option Z) : option Z :=
  match o with
  | Some z => if z =? 0 then None else Some z
  | None => None
  end.

(** ** ProcessManager *)

Section ProcessManager.

(** [Date.prototype.toISOString] applied to a clock reading. *)
Variable toISOString : Z -> string.

(** [config.systemConfig.maxConcurrentProcesses]; the configuration file
    is outside the sources. *)
Variable maxConcurrentProcesses : option Z.

(** [this.maxConcurrent = config.systemConfig.maxConcurrentProcesses || 5] *)
Definition maxConcurrent : Z :=
  match maxConcurrentProcesses with
  | Some n => if n =? 0 then 5 else n
  | None => 5
  end.

(** [_logProcess]: push the stamped entry onto the process's array, then
    drop the oldest one when the array has grown past 1000. *)
Definition _logProcess (now : Z) (processId message : string) (w : World) : World :=
  let logEntry := "[" +:+ toISOString now +:+ "] " +:+ message in
  let logs := default [] (processLogs w !! processId) in
  let logs := logs ++ [logEntry] in
  let logs := if (1000 <? Z.of_nat (length logs)) then tail logs else logs in
  with_processLogs (<[processId := logs]> (processLogs w)) w.

(** The five [_start...Process] helpers differ in the line they log and
    in the simulator they spawn; the line is all the registries see. *)
Definition startLogLine (processType : string) : option string :=
  if String.eqb processType "disk-imaging" then Some "Initializing disk imaging process"
  else if String.eqb processType "memory-dump" then Some "Initializing memory dump process"
  else if String.eqb processType "network-capture" then Some "Initializing network capture process"
  else if String.eqb processType "log-analysis" then Some "Initializing log analysis process"
  else if String.eqb processType "malware-scan" then Some "Initializing malware scan process"
  else None.

(** [startProcess]. [rnd] is the random suffix of the id and [childPid]
    the [pid] field of the spawned child ([None] when it is undefined). *)
Definition startProcess (now : Z) (rnd : string) (childPid : option Z)
    (processType : string) (parameters : Params) (w : World)
  : Completion string * World :=
  if Z.of_nat (size (activeProcesses w)) >=? maxConcurrent
  then (Thrown "Maximum concurrent processes reached", w)
  else
    let processId := processType +:+ "-" +:+ showZ now +:+ "-" +:+ rnd in
    let w := putProcess processId
               {| p_type := processType; p_parameters := parameters;
                  p_state := INITIALIZING; p_startTime := now;
                  p_updateTime := now; p_progress := 0; p_pid := None;
                  p_endTime := None; p_error := None |} w in
    let w := with_processLogs (<[processId := []]> (processLogs w)) w in
    let w := _logProcess now processId "Process initialization started" w in
    match startLogLine processType with
    | None => (Thrown ("Unknown process type: " +:+ processType), w)
    | Some line =>
        let w := _logProcess now processId line w in
        match activeProcesses w !! processId with
        | None => (Thrown "Cannot set properties of undefined (setting 'state')", w)
        | Some processInfo =>
            let processInfo :=
              set_updateTime now (set_pid childPid (set_state RUNNING processInfo)) in
            let w := putProcess processId processInfo w in
            let w := _logProcess now processId
                       ("Process started with PID " +:+ showNumber childPid "undefined") w in
            (Returned processId, w)
        end
    end.

(** [_cleanupProcess]. The type-specific tasks are placeholders in the
    source (a comment and log lines); [fault] is the condition, if any,
    that carrying them out raises. *)
Definition cleanupLogLines (processType : string) : list string :=
  if String.eqb processType "disk-imaging"
  then ["Verifying disk image integrity"; "Cleaning up temporary files"]
  else if String.eqb processType "network-capture"
  then ["Finalizing network capture file"; "Generating capture summary"]
  else if String.eqb processType "memory-dump" then ["Verifying memory dump integrity"]
  else if String.eqb processType "log-analysis" then ["Finalizing analysis reports"]
  else if String.eqb processType "malware-scan" then ["Generating malware scan report"]
  else [].

Definition _cleanupProcess (now : Z) (fault : option string)
    (processId processType : string) (w : World) : Completion unit * World :=
  let w := _logProcess now processId "Running process cleanup" w in
  match fault with
  | Some e => (Thrown e, w)
  | None =>
      let w := fold_left (fun w line => _logProcess now processId line w)
                 (cleanupLogLines processType) w in
      (Returned tt, _logProcess now processId "Cleanup completed" w)
  end.

(** Retention of a stopped record in the active map: one hour. *)
Definition retentionMs : Z := 3600000.

(** [stopProcess]. [killError] is what [process.kill(pid)] raises, if it
    raises; [cleanupFault] is passed to [_cleanupProcess]. *)
Definition stopProcess (now : Z) (killError cleanupFault : option string)
    (processId : string) (w : World) : bool * World :=
  match activeProcesses w !! processId with
  | None => (false, w)
  | Some processInfo =>
      let processInfo := set_updateTime now (set_state STOPPING processInfo) in
      let w := putProcess processId processInfo w in
      let w := _logProcess now processId "Process stopping initiated" w in
      let w :=
        match truthy_pid (p_pid processInfo) with
        | Some pid =>
            match killError with
            | None =>
                _logProcess now processId ("Process " +:+ showZ pid +:+ " terminated")
                  (with_signals (signals w ++ [(pid, "SIGTERM")]) w)
            | Some e =>
                _logProcess now processId ("Error terminating process: " +:+ e) w
            end
        | None => w
        end in
      match _cleanupProcess now cleanupFault processId (p_type processInfo) w with
      | (Returned _, w) =>
          let processInfo :=
            set_progress 100
              (set_endTime now (set_updateTime now (set_state COMPLETED processInfo))) in
          let w := putProcess processId processInfo w in
          let w := _logProcess now processId "Process cleanup completed" w in
          let w := with_timers (timers w ++ [(now + retentionMs, processId)]) w in
          (true, w)
      | (Thrown message, w) =>
          match activeProcesses w !! processId with
          | Some processInfo =>
              let processInfo :=
                set_updateTime now (set_error message (set_state ERROR processInfo)) in
              let w := putProcess processId processInfo w in
              (false, _logProcess now processId ("Process error: " +:+ message) w)
          | None => (false, w)
          end
      end
  end.

(** The callback of the retention timer: [activeProcesses.delete(id)]. *)
Definition fireTimer (due : Z) (processId : string) (w : World) : World :=
  with_timers (filter (fun t => t ≠ (due, processId)) (timers w))
    (with_activeProcesses (delete processId (activeProcesses w)) w).

(** [pausableProcesses.includes(type)] *)
Definition pausableProcesses : list string :=
  ["disk-imaging"; "network-capture"; "log-analysis"].

Definition pausable (processType : string) : bool :=
  existsb (String.eqb processType) pausableProcesses.

(** The [try] block of [pauseProcess]. [killError] is what
    [process.kill(pid, 'SIGSTOP')] raises, if it raises. *)
Definition pauseProcess_body (now : Z) (killError : option string)
    (processId : string) (w : World) : Completion bool * World :=
  match activeProcesses w !! processId with
  | None => (Thrown ("Process " +:+ processId +:+ " not found"), w)
  | Some processInfo =>
      if negb (bool_decide (p_state processInfo = RUNNING))
      then (Thrown ("Process " +:+ processId +:+ " is not in running state"), w)
      else if negb (pausable (p_type processInfo))
      then (Thrown ("Process type " +:+ p_type processInfo +:+ " does not support pausing"), w)
      else
        match truthy_pid (p_pid processInfo) with
        | Some pid =>
            match killError with
            | Some e => (Thrown e, w)
            | None =>
                let w := with_signals (signals w ++ [(pid, "SIGSTOP")]) w in
                let processInfo := set_updateTime now (set_state PAUSED processInfo) in
                let w := putProcess processId processInfo w in
                (Returned true, _logProcess now processId "Process paused" w)
            end
        | None => (Thrown "Process has no PID assigned", w)
        end
  end.

(** [pauseProcess]: the [catch] turns every thrown condition into [false]. *)
Definition pauseProcess (now : Z) (killError : option string)
    (processId : string) (w : World) : bool * World :=
  match pauseProcess_body now killError processId w with
  | (Returned b, w) => (b, w)
  | (Thrown _, w) => (false, w)
  end.

(** The [try] block of [resumeProcess]. *)
Definition resumeProcess_body (now : Z) (killError : option string)
    (processId : string) (w : World) : Completion bool * World :=
  match activeProcesses w !! processId with
  | None => (Thrown ("Process " +:+ processId +:+ " not found"), w)
  | Some processInfo =>
      if negb (bool_decide (p_state processInfo = PAUSED))
      then (Thrown ("Process " +:+ processId +:+ " is not in paused state"), w)
      else
        match truthy_pid (p_pid processInfo) with
        | Some pid =>
            match killError with
            | Some e => (Thrown e, w)
            | None =>
                let w := with_signals (signals w ++ [(pid, "SIGCONT")]) w in
                let processInfo := set_updateTime now (set_state RUNNING processInfo) in
                let w := putProcess processId processInfo w in
                (Returned true, _logProcess now processId "Process resumed" w)
            end
        | None => (Thrown "Process has no PID assigned", w)
        end
  end.

Definition resumeProcess (now : Z) (killError : option string)
    (processId : string) (w : World) : bool * World :=
  match resumeProcess_body now killError processId w with
  | (Returned b, w) => (b, w)
  | (Thrown _, w) => (false, w)
  end.

(** [getProcessStatus]: [None] is [{ exists: false }]; otherwise the
    record with its computed [runtime] and its [logs]. The end time is
    tested for truthiness: an absent one and one that is 0 both give the
    time elapsed so far. *)
Record ProcessStatus := {
  s_info : ProcessInfo;
  s_runtime : Z;
  s_logs : list string
}.

Definition getProcessStatus (now : Z) (processId : string) (w : World)
  : option ProcessStatus :=
  match activeProcesses w !! processId with
  | None => None
  | Some processInfo =>
      Some {| s_info := processInfo;
              s_runtime := match p_endTime processInfo with
                           | Some e =>
                               if e =? 0 then now - p_startTime processInfo
                               else e - p_startTime processInfo
                           | None => now - p_startTime processInfo
                           end;
              s_logs := default [] (processLogs w !! processId) |}
  end.

(** [updateProcessProgress], for an integer [progress]. The milestone
    line quotes the reported value through [showZ], which is the code's
    text for a value of magnitude up to [2^53 - 1]. *)
Definition updateProcessProgress (now : Z) (processId : string) (progress : Z)
    (w : World) : World :=
  match activeProcesses w !! processId with
  | None => w
  | Some processInfo =>
      let processInfo :=
        set_updateTime now (set_progress (Z.min (Z.max progress 0) 100) processInfo) in
      let w := putProcess processId processInfo w in
      if Z.rem progress 25 =? 0
      then _logProcess now processId ("Progress: " +:+ showZ progress +:+ "%") w
      else w
  end.

(** *** The callbacks installed by [_monitorProcess] *)

(** [stdout] data: [output] is the trimmed chunk, [progressMatch] the
    integer captured by [/progress:\s*(\d+)/i], if it matched. *)
Definition onStdout (now : Z) (processId output : string) (progressMatch : option Z)
    (w : World) : World :=
  let w := _logProcess now processId output w in
  match progressMatch with
  | Some n => updateProcessProgress now processId n w
  | None => w
  end.

(** [stderr] data *)
Definition onStderr (now : Z) (processId error : string) (w : World) : World :=
  _logProcess now processId ("ERROR: " +:+ error) w.

(** The message a non-zero exit leaves in [error]. *)
Definition exitErrorMessage (code : option Z) (signal : option string) : string :=
  "Process exited with code " +:+ showNumber code "null" +:+
  " (signal: " +:+ showString signal "null" +:+ ")".

(** The [exit] event; [code] and [signal] are [null] when absent. *)
Definition onExit (now : Z) (processId : string) (code : option Z)
    (signal : option string) (w : World) : World :=
  match activeProcesses w !! processId with
  | None => w
  | Some processInfo =>
      let '(processInfo, w) :=
        if bool_decide (code = Some 0)
        then (set_progress 100 (set_state COMPLETED processInfo),
              _logProcess now processId "Process completed successfully" w)
        else (set_error (exitErrorMessage code signal) (set_state ERROR processInfo),
              _logProcess now processId
                ("Process failed: Exit code " +:+ showNumber code "null" +:+
                 ", Signal " +:+ showString signal "null") w) in
      putProcess processId (set_endTime now (set_updateTime now processInfo)) w
  end.

(** The [error] event of the child. *)
Definition onError (now : Z) (processId message : string) (w : World) : World :=
  let w :=
    match activeProcesses w !! processId with
    | None => w
    | Some processInfo =>
        putProcess processId
          (set_updateTime now (set_error message (set_state ERROR processInfo))) w
    end in
  _logProcess now processId ("Process error: " +:+ message) w.

End ProcessManager.

(** ** WorkflowManager

    The workflow object's [logs] list is written only by [_logWorkflow];
    that helper, the three template builders and the bodies of
    [_executeDelayStep] and [_executeParallelStep] are outside the
    sources. The log list is left out of [Workflow], the templates are
    parameters, and a delay or parallel step is a pending step whose
    settlement arrives as an event ([settleStep]).

    A workflow object is created once and never replaced in
    [workflowStates], so the reference an asynchronous function holds and
    the map entry are the same object: every read of [workflow] below is a
    lookup in the [World]. *)

Section WorkflowManager.

Variable toISOString : Z -> string.
Variable maxConcurrentProcesses : option Z.

(** [_createIncidentResponseWorkflow], [_createEvidenceCollectionWorkflow]
    and [_createMalwareInvestigationWorkflow], each giving the step list
    of the definition it builds. *)
Variable _createIncidentResponseWorkflow : Params -> list Step.
Variable _createEvidenceCollectionWorkflow : Params -> list Step.
Variable _createMalwareInvestigationWorkflow : Params -> list Step.

(** [createWorkflow] *)
Definition createWorkflow (now : Z) (rnd : string) (workflowType : string)
    (parameters : Params) (w : World) : Completion string * World :=
  let workflowId := workflowType +:+ "-" +:+ showZ now +:+ "-" +:+ rnd in
  let workflowDefinition :=
    if String.eqb workflowType "incident-response"
    then Some (_createIncidentResponseWorkflow parameters)
    else if String.eqb workflowType "evidence-collection"
    then Some (_createEvidenceCollectionWorkflow parameters)
    else if String.eqb workflowType "malware-investigation"
    then Some (_createMalwareInvestigationWorkflow parameters)
    else None in
  match workflowDefinition with
  | None => (Thrown ("Unknown workflow type: " +:+ workflowType), w)
  | Some steps =>
      (Returned workflowId,
       putWorkflow workflowId
         {| w_id := workflowId; w_type := workflowType;
            w_parameters := parameters; w_definition := steps;
            w_currentStep := 0; w_state := created; w_processes := [];
            w_startTime := now; w_updateTime := now; w_endTime := None;
            w_error := None |} w)
  end.

(** [steps[i]] for a numeric index: [undefined] outside the array. *)
Definition stepAt (steps : list Step) (i : Z) : option Step :=
  if i <? 0 then None else steps !! Z.to_nat i.

(** How an awaited step executor settles. *)
Inductive Settlement :=
  | Resolved
  | Rejected (message : string).

(** [branch.skipCount || 1] *)
Definition skipCountOr1 (b : Branch) : Z :=
  match b_skipCount b with
  | Some n => if n =? 0 then 1 else n
  | None => 1
  end.

(** [_executeDecisionStep]: always the first branch. *)
Definition _executeDecisionStep (workflowId : string) (branches : list Branch)
    (w : World) : Completion unit * World :=
  match workflowStates w !! workflowId with
  | None => (Thrown "Cannot read properties of undefined", w)
  | Some workflow =>
      match branches with
      | [] => (Thrown "Cannot read properties of undefined (reading 'name')", w)
      | branch :: _ =>
          let workflow :=
            if String.eqb (b_action branch) "skip"
            then wf_set_currentStep (w_currentStep workflow + skipCountOr1 branch) workflow
            else if String.eqb (b_action branch) "execute"
            then wf_set_currentStep (w_currentStep workflow + 1) workflow
            else workflow in
          (Returned tt, putWorkflow workflowId workflow w)
      end
  end.

(** The continuation of [_executeWorkflowStep] after the awaited executor:
    on success move to the next step and schedule it, on failure the
    [catch] block. The code updates the object it read from the registry
    before the wait and stores that object back. This is the registry's
    current entry as long as no [createWorkflow] has put a new object
    under the same id in between (every other handler updates the entry
    in place), and it is that case which is modelled. *)
Definition settleStep (now : Z) (workflowId : string) (outcome : Settlement)
    (w : World) : World :=
  match workflowStates w !! workflowId with
  | None => w
  | Some workflow =>
      match outcome with
      | Resolved =>
          let workflow :=
            wf_set_updateTime now
              (wf_set_currentStep (w_currentStep workflow + 1) workflow) in
          with_immediates (immediates w ++ [workflowId])
            (putWorkflow workflowId workflow w)
      | Rejected message =>
          let workflow :=
            wf_set_endTime now (wf_set_updateTime now
              (wf_set_error message (wf_set_state failed workflow))) in
          putWorkflow workflowId workflow w
      end
  end.

(** [_executeWorkflowStep], up to the point where it waits for the step
    executor. A process step starts its process, records the id and
    installs the poller; a decision step settles at once; a delay or
    parallel step stays pending. [Thrown] is a rejection raised outside
    the [try] block. *)
Definition _executeWorkflowStep (now : Z) (rnd : string) (childPid : option Z)
    (workflowId : string) (w : World) : Completion unit * World :=
  match workflowStates w !! workflowId with
  | None => (Returned tt, w)
  | Some workflow =>
      if negb (bool_decide (w_state workflow = running)) then (Returned tt, w)
      else
        let steps := w_definition workflow in
        if w_currentStep workflow >=? Z.of_nat (length steps)
        then
          let workflow :=
            wf_set_endTime now (wf_set_updateTime now (wf_set_state completed workflow)) in
          (Returned tt, putWorkflow workflowId workflow w)
        else
          match stepAt steps (w_currentStep workflow) with
          | None => (Thrown "Cannot read properties of undefined (reading 'name')", w)
          | Some (ProcessStep _ processType parameters) =>
              match startProcess toISOString maxConcurrentProcesses
                      now rnd childPid processType parameters w with
              | (Thrown e, w) => (Returned tt, settleStep now workflowId (Rejected e) w)
              | (Returned processId, w) =>
                  let w :=
                    match workflowStates w !! workflowId with
                    | Some workflow =>
                        putWorkflow workflowId
                          (wf_set_processes (w_processes workflow ++ [processId]) workflow) w
                    | None => w
                    end in
                  (Returned tt, with_pollers (pollers w ++ [(workflowId, processId)]) w)
              end
          | Some (DecisionStep _ _ branches) =>
              match _executeDecisionStep workflowId branches w with
              | (Returned _, w) => (Returned tt, settleStep now workflowId Resolved w)
              | (Thrown e, w) => (Returned tt, settleStep now workflowId (Rejected e) w)
              end
          | Some (DelayStep _ _) => (Returned tt, w)
          | Some (ParallelStep _ _) => (Returned tt, w)
          | Some (OtherStep _ type) =>
              (Returned tt,
               settleStep now workflowId (Rejected ("Unknown step type: " +:+ type)) w)
          end
  end.

(** The [setImmediate] callback: run the next step. *)
Definition runImmediate (now : Z) (rnd : string) (childPid : option Z)
    (workflowId : string) (w : World) : World :=
  snd (_executeWorkflowStep now rnd childPid workflowId
         (with_immediates (filter (fun i => i ≠ workflowId) (immediates w)) w)).

(** [processStatus.error || 'Unknown error'] *)
Definition errorOrUnknown (o : option string) : string :=
  match o with
  | Some e => if String.eqb e "" then "Unknown error" else e
  | None => "Unknown error"
  end.

Definition clearInterval (workflowId processId : string) (w : World) : World :=
  with_pollers (filter (fun p => p ≠ (workflowId, processId)) (pollers w)) w.

(** What one run of the interval callback of [_executeProcessStep] does to
    its promise: the first [resolve] or [reject] it reaches, if any. The
    workflow check runs unless the callback has returned early. *)
Definition pollOutcome (now : Z) (workflowId processId : string) (w : World)
  : option Settlement :=
  match getProcessStatus now processId w with
  | None => Some (Rejected ("Process " +:+ processId +:+ " no longer exists"))
  | Some processStatus =>
      let first :=
        match p_state (s_info processStatus) with
        | COMPLETED => Some Resolved
        | ERROR =>
            Some (Rejected ("Process " +:+ processId +:+ " failed: " +:+
                            errorOrUnknown (p_error (s_info processStatus))))
        | _ => None
        end in
      let interrupted :=
        match workflowStates w !! workflowId with
        | Some currentWorkflow =>
            if bool_decide (w_state currentWorkflow = running) then None
            else Some (Rejected "Workflow execution was interrupted")
        | None => None
        end in
      match first with
      | Some s => Some s
      | None => interrupted
      end
  end.

(** One tick of the poller, followed by the continuation of the step that
    was waiting on it. A cleared poller does not tick. *)
Definition pollProcessStep (now : Z) (workflowId processId : string) (w : World)
  : World :=
  if bool_decide ((workflowId, processId) ∈ pollers w) then
    match pollOutcome now workflowId processId w with
    | None => w
    | Some outcome =>
        settleStep now workflowId outcome (clearInterval workflowId processId w)
    end
  else w.

(** Whether [_executeWorkflowStep] stops at an [await] whose promise is
    still pending: at a process step whose process has started (the
    promise of [_executeProcessStep] is settled by a later poller tick),
    at a delay step or at a parallel step. On every other path it runs to
    its end without waiting. *)
Definition awaitsExecutor (now : Z) (rnd : string) (childPid : option Z)
    (workflowId : string) (w : World) : bool :=
  match workflowStates w !! workflowId with
  | None => false
  | Some workflow =>
      if negb (bool_decide (w_state workflow = running)) then false
      else if w_currentStep workflow >=? Z.of_nat (length (w_definition workflow))
      then false
      else
        match stepAt (w_definition workflow) (w_currentStep workflow) with
        | Some (ProcessStep _ processType parameters) =>
            match fst (startProcess toISOString maxConcurrentProcesses
                         now rnd childPid processType parameters w) with
            | Returned _ => true
            | Thrown _ => false
            end
        | Some (DelayStep _ _) => true
        | Some (ParallelStep _ _) => true
        | _ => false
        end
  end.

(** What the caller of [startWorkflow] holds when the call has run as far
    as it can without waiting: the value its promise is fulfilled with, or
    a promise that is still pending. *)
Inductive StartAnswer :=
  | Answered (success : bool)
  | AwaitingStep.

(** [startWorkflow]. An unknown workflow and one that is not [created]
    make it return [false]. Otherwise it marks the workflow [running] and
    awaits [_executeWorkflowStep]. When that runs to its end without
    waiting the call returns [true], or [false] when it threw outside its
    [try] block. When it waits for a step executor the call is pending:
    the code returns [true] only once the executor has settled, which may
    be never, and whatever the state of the workflow is by then. The world
    returned is the one at that first wait. *)
Definition startWorkflow (now : Z) (rnd : string) (childPid : option Z)
    (workflowId : string) (w : World) : StartAnswer * World :=
  match workflowStates w !! workflowId with
  | None => (Answered false, w)
  | Some workflow =>
      if negb (bool_decide (w_state workflow = created)) then (Answered false, w)
      else
        let w := putWorkflow workflowId
                   (wf_set_updateTime now (wf_set_state running workflow)) w in
        match _executeWorkflowStep now rnd childPid workflowId w with
        | (Returned _, w') =>
            (if awaitsExecutor now rnd childPid workflowId w
             then AwaitingStep else Answered true, w')
        | (Thrown _, w') => (Answered false, w')
        end
  end.

(** [stopWorkflow]. [oracle] gives, for each process id, what its
    [stopProcess] call meets: the kill error and the cleanup fault. *)
Definition stopWorkflow (now : Z) (oracle : string -> option string * option string)
    (workflowId : string) (w : World) : bool * World :=
  match workflowStates w !! workflowId with
  | None => (false, w)
  | Some workflow =>
      if bool_decide (w_state workflow = completed) || bool_decide (w_state workflow = failed)
      then (false, w)
      else
        let w := putWorkflow workflowId
                   (wf_set_updateTime now (wf_set_state stopping workflow)) w in
        let w :=
          fold_left
            (fun w processId =>
               snd (stopProcess toISOString now (fst (oracle processId))
                      (snd (oracle processId)) processId w))
            (w_processes workflow) w in
        match workflowStates w !! workflowId with
        | Some workflow =>
            (true,
             putWorkflow workflowId
               (wf_set_endTime now (wf_set_updateTime now (wf_set_state stopped workflow))) w)
        | None => (true, w)
        end
  end.

End WorkflowManager.

(** ** Decision tree rules *)

Section DecisionTree.

(** The time value of [new Date(isoTimestamp)], [None] for an invalid
    date. *)
Variable Date_parse : string -> option Z.

Definition WORK_HOUR_START : Z := 8.
Definition WORK_HOUR_END : Z := 18.

(** [Date.prototype.getUTCHours] on a time value. *)
Definition getUTCHours (ms : Z) : Z := (ms / 3600000) mod 24.

(** [getHour]; [None] is the [NaN] of an invalid date. *)
Definition getHour (isoTimestamp : string) : option Z :=
  getUTCHours <$> Date_parse isoTimestamp.

Record Artifact := {
  artifact_type : string;
  timestamp : string;
  snapshot_id : string
}.

Definition offHourAlert (h : Z) (a : Artifact) : string :=
  "[Alert] Key extracted at off-hours (" +:+ showZ h +:+ "h): snapshot=" +:+ snapshot_id a.

(** [ruleOffHourKeyExtraction]: the lines written by [console.warn], in
    order. Every comparison with [NaN] is false. *)
Definition ruleOffHourKeyExtraction (artifacts : list Artifact) : list string :=
  flat_map
    (fun a =>
       if String.eqb (artifact_type a) "serpent_xts_key" then
         match getHour (timestamp a) with
         | Some h =>
             if (h <? WORK_HOUR_START) || (h >=? WORK_HOUR_END)
             then [offHourAlert h a]
             else []
         | None => []
         end
       else [])
    artifacts.

End DecisionTree.

(** ** Auxiliary definitions for the statements *)

(** The capped push that [_logProcess] performs on one array. *)
Definition pushCapped (logs : list string) (logEntry : string) : list string :=
  let logs := logs ++ [logEntry] in
  if (1000 <? Z.of_nat (length logs)) then tail logs else logs.

(** The last [k] elements of a list. *)
Definition lastn {A} (k : nat) (l : list A) : list A :=
  drop (length l - k) l.

(** The buffer of a process, empty when it has none yet. *)
Definition logsOf (processId : string) (w : World) : list string :=
  default [] (processLogs w !! processId).

(** The text [_logProcess] stores for a message logged at time [now]. *)
Definition logEntry (toISOString : Z -> string) (e : Z * string) : string :=
  "[" +:+ toISOString (fst e) +:+ "] " +:+ snd e.

(** A run of [_logProcess] calls on one process, each with its own clock
    reading and message. *)
Definition logAll (toISOString : Z -> string) (processId : string)
    (appends : list (Z * string)) (w : World) : World :=
  fold_left (fun w e => _logProcess toISOString (fst e) processId (snd e) w) appends w.

(** The lifecycle state of a process, if it is in the registry. *)
Definition stateOf (processId : string) (w : World) : option ProcessState :=
  p_state <$> activeProcesses w !! processId.

(** The number of records that are neither [COMPLETED] nor [ERROR]. *)
Definition nonTerminalCount (w : World) : nat :=
  size (filter (fun kv => terminal (p_state (snd kv)) = false) (activeProcesses w)).

(** *** Runs of the system

    One step is one handler run to completion: a call of the public
    interface, a callback of a monitored worker, a timer, a poller tick, a
    scheduled continuation, or the settlement of a pending step. The
    arguments of the handler, and what the outside world answers, are
    arbitrary. *)

Section Runs.

Variable toISOString : Z -> string.
Variable maxConcurrentProcesses : option Z.
Variable _createIncidentResponseWorkflow : Params -> list Step.
Variable _createEvidenceCollectionWorkflow : Params -> list Step.
Variable _createMalwareInvestigationWorkflow : Params -> list Step.

Inductive step : World -> World -> Prop :=
  | step_startProcess now rnd childPid processType parameters w :
      step w (snd (startProcess toISOString maxConcurrentProcesses
                     now rnd childPid processType parameters w))
  | step_stopProcess now killError cleanupFault processId w :
      step w (snd (stopProcess toISOString now killError cleanupFault processId w))
  | step_pauseProcess now killError processId w :
      step w (snd (pauseProcess toISOString now killError processId w))
  | step_resumeProcess now killError processId w :
      step w (snd (resumeProcess toISOString now killError processId w))
  | step_updateProcessProgress now processId progress w :
      step w (updateProcessProgress toISOString now processId progress w)
  | step_onStdout now processId output progressMatch w :
      step w (onStdout toISOString now processId output progressMatch w)
  | step_onStderr now processId error w :
      step w (onStderr toISOString now processId error w)
  | step_onExit now processId code signal w :
      step w (onExit toISOString now processId code signal w)
  | step_onError now processId message w :
      step w (onError toISOString now processId message w)
  | step_fireTimer due processId w :
      (due, processId) ∈ timers w ->
      step w (fireTimer due processId w)
  | step_createWorkflow now rnd workflowType parameters w :
      step w (snd (createWorkflow _createIncidentResponseWorkflow
                     _createEvidenceCollectionWorkflow
                     _createMalwareInvestigationWorkflow
                     now rnd workflowType parameters w))
  | step_startWorkflow now rnd childPid workflowId w :
      step w (snd (startWorkflow toISOString maxConcurrentProcesses
                     now rnd childPid workflowId w))
  | step_stopWorkflow now oracle workflowId w :
      step w (snd (stopWorkflow toISOString now oracle workflowId w))
  | step_runImmediate now rnd childPid workflowId w :
      workflowId ∈ immediates w ->
      step w (runImmediate toISOString maxConcurrentProcesses
                now rnd childPid workflowId w)
  | step_pollProcessStep now workflowId processId w :
      step w (pollProcessStep now workflowId processId w)
  | step_settleStep now workflowId outcome w :
      step w (settleStep now workflowId outcome w).

(** The worlds a run can reach from the empty registries. *)
Definition reachable (w : World) : Prop := rtc step initialWorld w.

(** The step from [w] to [w'] is a [createWorkflow] that returned
    [workflowId]. *)
Definition rebuilds (workflowId : string) (w w' : World) : Prop :=
  exists now rnd workflowType parameters,
    createWorkflow _createIncidentResponseWorkflow _createEvidenceCollectionWorkflow
      _createMalwareInvestigationWorkflow now rnd workflowType parameters w
    = (Returned workflowId, w').

(** A step that is not a [createWorkflow] building an id that is already
    in the registry, and the runs made of such steps. An id holds the
    type, the clock reading and nine random characters, so building one
    twice takes two creations of the same type in the same millisecond
    that draw the same suffix. *)
Definition freshStep (w w' : World) : Prop :=
  step w w' /\
  forall workflowId,
    is_Some (workflowStates w !! workflowId) -> ~ rebuilds workflowId w w'.

Definition freshRun (w : World) : Prop := rtc freshStep initialWorld w.

End Runs.

(** Every record of [m'] that is [PAUSED] was already [PAUSED], with the
    same type, in [m]. *)
Definition keeps_paused (m m' : gmap string ProcessInfo) : Prop :=
  forall id info',
    m' !! id = Some info' -> p_state info' = PAUSED ->
    exists info, m !! id = Some info /\ p_state info = PAUSED /\
                 p_type info = p_type info'.

(** Every [PAUSED] record has a pausable type. *)
Definition paused_are_pausable (w : World) : Prop :=
  forall id info,
    activeProcesses w !! id = Some info -> p_state info = PAUSED ->
    pausable (p_type info) = true.

(** Every record of [m'] that is [PAUSED] was, in [m], the same process
    either already [PAUSED] or [RUNNING] with a pausable type. *)
Definition paused_only_from_running (m m' : gmap string ProcessInfo) : Prop :=
  forall id info',
    m' !! id = Some info' -> p_state info' = PAUSED ->
    exists info, m !! id = Some info /\ p_type info = p_type info' /\
                 (p_state info = PAUSED \/
                  (p_state info = RUNNING /\ pausable (p_type info) = true)).

(** A record is stopped once [stopProcess] has touched it, or terminal. *)
Definition stopped_or_terminal (s : ProcessState) : Prop :=
  s = STOPPING \/ s = COMPLETED \/ s = ERROR.

(** Between [w] and [w'] nothing was stopped: no signal was sent, no
    removal was scheduled, and every record that is stopping or terminal
    in [w'] is as it was in [w]. *)
Definition nothing_stopped (w w' : World) : Prop :=
  signals w' = signals w /\
  timers w' = timers w /\
  forall id info',
    activeProcesses w' !! id = Some info' ->
    stopped_or_terminal (p_state info') ->
    activeProcesses w !! id = Some info'.

(** The run of the scenario: an evidence-collection workflow with the
    template [disk-imaging; malware-scan] is created and started, the
    first worker exits with code 0 and the poller sees it, the scheduled
    continuation starts the second worker, which exits with [code] and
    [signal], and the poller sees that. *)
Section Scenario.

Variable toISOString : Z -> string.

(** Modelled from the spec: the step list that
    [_createEvidenceCollectionWorkflow] builds. The builder is outside the
    sources; the spec's scenario gives its template as
    [Process(disk-imaging), Process(malware-scan)]. *)
Definition scenarioTemplate (parameters : Params) : list Step :=
  [ProcessStep "Image disk" "disk-imaging" parameters;
   ProcessStep "Scan image" "malware-scan" parameters].

Definition scenarioWorkflowId : string := "evidence-collection-1000-w".
Definition scenarioFirstId : string := "disk-imaging-2000-a".
Definition scenarioSecondId : string := "malware-scan-5000-b".

Definition scenarioSecondRunning : World :=
  let w := snd (createWorkflow (fun _ => []) scenarioTemplate (fun _ => [])
                  1000 "w" "evidence-collection" [] initialWorld) in
  let w := snd (startWorkflow toISOString None 2000 "a" (Some 4242)
                  scenarioWorkflowId w) in
  let w := onExit toISOString 3000 scenarioFirstId (Some 0) None w in
  let w := pollProcessStep 4000 scenarioWorkflowId scenarioFirstId w in
  runImmediate toISOString None 5000 "b" (Some 4243) scenarioWorkflowId w.

Definition scenarioEnd (code : option Z) (signal : option string) : World :=
  let w := onExit toISOString 6000 scenarioSecondId code signal scenarioSecondRunning in
  pollProcessStep 7000 scenarioWorkflowId scenarioSecondId w.

End Scenario.

(** Every log buffer holds at most 1000 entries. *)
Definition logs_bounded (w : World) : Prop :=
  forall processId logs,
    processLogs w !! processId = Some logs -> (length logs <= 1000)%nat.


(** The registry holds no more records than the cap allows (none at all
    when the configured cap is negative). *)
Definition within_cap (maxConcurrentProcesses : option Z) (w : World) : Prop :=
  Z.of_nat (size (activeProcesses w)) <= Z.max 0 (maxConcurrent maxConcurrentProcesses).

(** [m'] has no key that [m] lacks. *)
Definition no_new_records (m m' : gmap string ProcessInfo) : Prop :=
  dom m' ⊆ dom m.


(** ** Auxiliary definitions for the further properties *)

(** Every log buffer of [w0] is still there in [w]. *)
Definition logs_kept (w0 w : World) : Prop :=
  dom (processLogs w0) ⊆ dom (processLogs w).

(** No decision step of the list has a negative skip count on its first
    branch. *)
Definition skipsNonNegative (steps : list Step) : Prop :=
  forall i name condition branch others n,
    steps !! i = Some (DecisionStep name condition (branch :: others)) ->
    b_skipCount branch = Some n -> 0 <= n.

(** [workflow'] is a later stage of [workflow]: same identity and
    definition, the index not smaller, the process list extended at its
    end. *)
Definition wf_progressed (workflow workflow' : Workflow) : Prop :=
  w_id workflow' = w_id workflow /\
  w_type workflow' = w_type workflow /\
  w_definition workflow' = w_definition workflow /\
  w_startTime workflow' = w_startTime workflow /\
  w_currentStep workflow <= w_currentStep workflow' /\
  w_processes workflow `prefix_of` w_processes workflow'.

(** Every workflow of [m] is still in [m'], not back in [created] if it
    had left that state, and at a later stage when its skip counts are
    non-negative. *)
Definition wfs_progress (m m' : gmap string Workflow) : Prop :=
  forall workflowId workflow,
    m !! workflowId = Some workflow ->
    exists workflow',
      m' !! workflowId = Some workflow' /\
      (w_state workflow <> created -> w_state workflow' <> created) /\
      (skipsNonNegative (w_definition workflow) -> wf_progressed workflow workflow').

(** The workflow is in the registry and has been started: its state is
    no longer [created]. *)
Definition started (workflowId : string) (w : World) : Prop :=
  exists workflow,
    workflowStates w !! workflowId = Some workflow /\ w_state workflow <> created.


(** ** Decision tree: the anomaly rule and the entry point *)

(** A record of the anomaly file. Scores are taken as integers; any other
    number compares unequal to [-1], as an integer other than [-1] does. *)
Record Anomaly := {
  user_id : string;
  anomaly_score : Z
}.

(** [ruleAnomalousUser]: the lines written by [console.warn], in order. *)
Definition ruleAnomalousUser (anomalies : list Anomaly) : list string :=
  flat_map
    (fun rec =>
       if anomaly_score rec =? -1
       then ["[Alert] Suspicious user activity: user_id=" +:+ user_id rec]
       else [])
    anomalies.

(** A line on the console, by the method that wrote it. *)
Inductive ConsoleLine :=
  | ConsoleLog (text : string)
  | ConsoleWarn (text : string).

Section DecisionTreeEntry.

Variable Date_parse : string -> option Z.

(** [evaluate]. [anomalyData] and [artifactData] are what
    [JSON.parse(fs.readFileSync(path))] gives for the two files: the
    parsed array, or the condition that reading or parsing raises. The
    artifact file is read only after the anomaly rule has run. *)
Definition evaluate (anomalyData : Completion (list Anomaly))
    (artifactData : Completion (list Artifact)) : Completion unit * list ConsoleLine :=
  let out := [ConsoleLog "[DecisionTree] Loading anomaly data…"] in
  match anomalyData with
  | Thrown e => (Thrown e, out)
  | Returned anomalies =>
      let out := out ++ map ConsoleWarn (ruleAnomalousUser anomalies) in
      let out := out ++ [ConsoleLog "[DecisionTree] Loading extracted artifact data…"] in
      match artifactData with
      | Thrown e => (Thrown e, out)
      | Returned artifacts =>
          (Returned tt,
           out ++ map ConsoleWarn (ruleOffHourKeyExtraction Date_parse artifacts))
      end
  end.

End DecisionTreeEntry.

(** The alerts among the console lines. *)
Definition warnings (out : list ConsoleLine) : list string :=
  flat_map (fun l => match l with ConsoleWarn t => [t] | ConsoleLog _ => [] end) out.

(** Whether the off-hours rule alerts on an artifact. *)
Definition offHoursKey (Date_parse : string -> option Z) (a : Artifact) : bool :=
  String.eqb (artifact_type a) "serpent_xts_key" &&
  match getHour Date_parse (timestamp a) with
  | Some h => (h <? 8) || (h >=? 18)
  | None => false
  end.

(** ** Data preparation for the dashboard ([GraphData]) *)

(** A record of the system log. [l_memory_ref] is [None] when the field
    is absent or null; [l_anomaly] says whether the field is the boolean
    [true]. *)
Record LogRecord := {
  l_timestamp : string;
  l_memory_ref : option string;
  l_file_id : string;
  l_action : string;
  l_user_id : string;
  l_session_id : string;
  l_anomaly : bool
}.

Record MetaRecord := {
  m_timestamp : string;
  m_file_id : string;
  m_session_id : string;
  m_size : Z
}.

Record EncRecord := {
  e_file_id : string
}.

(** Truthiness of a string-valued field: absent and empty are falsy. *)
Definition truthy_string (o : option string) : bool :=
  match o with
  | Some s => negb (String.eqb s "")
  | None => false
  end.

Record TimelineEvent := {
  ev_timestamp : string;
  ev_layer : string;
  ev_layerIndex : Z;
  ev_description : string
}.

Record FlowNode := {
  n_id : string;
  n_label : string;
  n_type : string
}.

(** A link of the flow diagram; the weight is 1 or 0.5. *)
Record FlowLink := {
  k_source : string;
  k_target : string;
  k_weight : QArith_base.Q
}.

Section GraphData.

Variable Date_parse : string -> option Z.

(** Which names [Object.prototype] gives to every plain object
    ([constructor], [toString], [__proto__], ...): a lookup of such a
    name in an object literal finds the inherited, truthy, value. *)
Variable inherited : string -> bool.

(** *** [prepareAnomalyData] *)

(** [byHour[h] = (byHour[h] || 0) + 1] for each anomalous record; the key
    is the hour, or [None] for the [NaN] of an unparseable timestamp. *)
Definition countByHour (logs : list LogRecord) : gmap (option Z) nat :=
  fold_left
    (fun byHour a =>
       let h := getHour Date_parse (l_timestamp a) in
       <[h := (default 0 (byHour !! h) + 1)%nat]> byHour)
    (filter (fun l => l_anomaly l = true) logs)
    ∅.

(** [Array.from({length:24}, (_,i)=>i)] *)
Definition hours24 : list Z := seqZ 0 24.

(** [prepareAnomalyData]: the pair of [hours] and [counts]. *)
Definition prepareAnomalyData (logs : list LogRecord) : list Z * list nat :=
  let byHour := countByHour logs in
  (hours24, map (fun h => default 0%nat (byHour !! Some h)) hours24).

(** *** [prepareFlowData] *)

(** The state of [prepareFlowData]: the [nodes] and [links] arrays and
    the [nodeMap] object. *)
Record FlowState := {
  f_nodes : list FlowNode;
  f_links : list FlowLink;
  f_nodeMap : gmap string FlowNode
}.

(** [addNode]: [!nodeMap[id]] holds when [id] is neither an own key of
    [nodeMap] (every stored node is truthy) nor an inherited name. *)
Definition addNode (id label type : string) (st : FlowState) : FlowState :=
  if inherited id then st
  else
    match f_nodeMap st !! id with
    | Some _ => st
    | None =>
        let node := {| n_id := id; n_label := label; n_type := type |} in
        {| f_nodes := f_nodes st ++ [node]; f_links := f_links st;
           f_nodeMap := <[id := node]> (f_nodeMap st) |}
    end.

Definition pushLink (source target : string) (weight : QArith_base.Q) (st : FlowState)
  : FlowState :=
  {| f_nodes := f_nodes st;
     f_links := f_links st ++ [{| k_source := source; k_target := target;
                                  k_weight := weight |}];
     f_nodeMap := f_nodeMap st |}.

Definition weightOne : QArith_base.Q := QArith_base.Qmake 1 1.
Definition weightHalf : QArith_base.Q := QArith_base.Qmake 1 2.

Definition flowFile (st : FlowState) (f : EncRecord) : FlowState :=
  addNode (e_file_id f) (e_file_id f) "file" st.

Definition flowLog (st : FlowState) (l : LogRecord) : FlowState :=
  let st := addNode (l_session_id l) (l_session_id l) "session" st in
  let st := addNode (l_user_id l) (l_user_id l) "user" st in
  let st := pushLink (l_file_id l) (l_session_id l) weightOne st in
  pushLink (l_session_id l) (l_user_id l) weightOne st.

Definition metaNodeId (m : MetaRecord) : string :=
  "meta_" +:+ m_session_id m +:+ "_" +:+ m_file_id m.

Definition flowMeta (st : FlowState) (m : MetaRecord) : FlowState :=
  let st := addNode (metaNodeId m) "meta" "metadata" st in
  let st := pushLink (m_file_id m) (metaNodeId m) weightHalf st in
  pushLink (metaNodeId m) (m_session_id m) weightHalf st.

(** [prepareFlowData] *)
Definition prepareFlowData (enc : list EncRecord) (logs : list LogRecord)
    (meta : list MetaRecord) : list FlowNode * list FlowLink :=
  let st := {| f_nodes := []; f_links := []; f_nodeMap := ∅ |} in
  let st := fold_left flowFile enc st in
  let st := fold_left flowLog logs st in
  let st := fold_left flowMeta meta st in
  (f_nodes st, f_links st).

(** *** [prepareTimelineData] *)

Definition memoryEvent (l : LogRecord) : TimelineEvent :=
  {| ev_timestamp := l_timestamp l; ev_layer := "memory"; ev_layerIndex := 2;
     ev_description := "RAM key extract for " +:+ l_file_id l |}.

Definition logEvent (l : LogRecord) : TimelineEvent :=
  {| ev_timestamp := l_timestamp l; ev_layer := "log"; ev_layerIndex := 1;
     ev_description :=
       l_action l +:+ " (" +:+ l_file_id l +:+ ") by " +:+ l_user_id l |}.

Definition metaEvent (m : MetaRecord) : TimelineEvent :=
  {| ev_timestamp := m_timestamp m; ev_layer := "metadata"; ev_layerIndex := 0;
     ev_description :=
       "Metadata update: " +:+ m_file_id m +:+ " size=" +:+ showZ (m_size m) |}.

(** The events in the order in which they are pushed. *)
Definition timelineEvents (logs : list LogRecord) (meta : list MetaRecord)
  : list TimelineEvent :=
  map memoryEvent (filter (fun l => truthy_string (l_memory_ref l) = true) logs)
  ++ map logEvent logs
  ++ map metaEvent meta.

(** The comparator [(a, b) => new Date(a.timestamp) - new Date(b.timestamp)]
    is negative exactly when both dates are valid and the first is
    earlier; a [NaN] difference counts as zero. *)
Definition earlier (a b : TimelineEvent) : bool :=
  match Date_parse (ev_timestamp a), Date_parse (ev_timestamp b) with
  | Some x, Some y => x <? y
  | _, _ => false
  end.

(** [Array.prototype.sort] is stable. When the comparator is a consistent
    ordering, as this one is on events whose timestamps all parse, its
    result is the one stable sorted arrangement, which the insertion
    below computes: each event goes behind every event that is not later
    than it. (With an unparseable timestamp the comparator is not
    consistent and the engine's result is implementation-defined.) *)
Fixpoint insertEvent (e : TimelineEvent) (sorted : list TimelineEvent)
  : list TimelineEvent :=
  match sorted with
  | [] => [e]
  | x :: rest => if earlier e x then e :: x :: rest else x :: insertEvent e rest
  end.

Definition sortEvents (events : list TimelineEvent) : list TimelineEvent :=
  fold_left (fun sorted e => insertEvent e sorted) events [].

(** [prepareTimelineData] *)
Definition prepareTimelineData (logs : list LogRecord) (meta : list MetaRecord)
  : list TimelineEvent :=
  sortEvents (timelineEvents logs meta).

End GraphData.

(** ** Routes over the process supervisor *)

(** [parseInt(x) || d]: the parsed integer, or [d] when the parse gives
    [NaN] ([None]) or 0. *)
Definition parsedOr (parsed : option Z) (d : Z) : Z :=
  match parsed with
  | Some n => if n =? 0 then d else n
  | None => d
  end.

(** [Array.prototype.slice(start, end)], negative indices counting from
    the end. *)
Definition slice {A} (l : list A) (start finish : Z) : list A :=
  let len := Z.of_nat (length l) in
  let k := if start <? 0 then Z.max (len + start) 0 else Z.min start len in
  let final := if finish <? 0 then Z.max (len + finish) 0 else Z.min finish len in
  take (Z.to_nat (final - k)) (drop (Z.to_nat k) l).

(** [Math.ceil(a / b)] on integers, [b] not zero. *)
Definition ceilDiv (a b : Z) : Z := - ((- a) / b).

(** The [pagination] and [logs] fields of the answer of
    [GET /processes/:id/logs]. *)
Record LogsPage := {
  pg_page : Z;
  pg_limit : Z;
  pg_totalLogs : Z;
  pg_totalPages : Z;
  pg_logs : list string
}.

(** [GET /processes/:id/logs]: [None] is the 404 answer. [pageQuery] and
    [limitQuery] are [parseInt] of the two query parameters. *)
Definition processLogsRoute (now : Z) (pageQuery limitQuery : option Z)
    (processId : string) (w : World) : option LogsPage :=
  match getProcessStatus now processId w with
  | None => None
  | Some processInfo =>
      let page := parsedOr pageQuery 1 in
      let limit := parsedOr limitQuery 100 in
      let startIndex := (page - 1) * limit in
      let endIndex := page * limit in
      Some {| pg_page := page; pg_limit := limit;
              pg_totalLogs := Z.of_nat (length (s_logs processInfo));
              pg_totalPages := ceilDiv (Z.of_nat (length (s_logs processInfo))) limit;
              pg_logs := slice (s_logs processInfo) startIndex endIndex |}
  end.

(** [POST /simulation/stop]. [getAllProcesses] and [getAllWorkflows] are
    called first; [workflowListing] and [processListing] are the ids in the
    order in which the two registries enumerate them at that moment, and
    the state tested for each workflow is the one of that listing. Every
    listed workflow that is [running] is stopped (no workflow is ever
    given the other state tested, 'paused'), then [stopProcess] runs on
    every listed process. [workflowOracle] is what the stops made by
    [stopWorkflow] meet, [processOracle] what the stops of the second loop
    meet. Neither [stopWorkflow] nor [stopProcess] throws, so the answer is
    always the success one. *)
Definition simulationStop (toISOString : Z -> string) (now : Z)
    (workflowOracle processOracle : string -> option string * option string)
    (workflowListing processListing : list string) (w : World) : World :=
  let listedRunning :=
    filter (fun workflowId =>
              (w_state <$> workflowStates w !! workflowId) = Some running)
      workflowListing in
  let w :=
    fold_left
      (fun w workflowId => snd (stopWorkflow toISOString now workflowOracle workflowId w))
      listedRunning w in
  fold_left
    (fun w processId =>
       snd (stopProcess toISOString now (fst (processOracle processId))
              (snd (processOracle processId)) processId w))
    processListing w.

(** The invariant of [prepareFlowData]'s loops: [seen] lists the ids that
    [addNode] was called with so far. The nodes have distinct ids, namely
    the ids seen that are not inherited names, and [nodeMap] has exactly
    those keys. *)
Definition flow_inv (inherited : string -> bool) (seen : list string)
    (st : FlowState) : Prop :=
  NoDup (map n_id (f_nodes st)) /\
  (forall id, id ∈ map n_id (f_nodes st) <-> inherited id = false /\ id ∈ seen) /\
  (forall id, is_Some (f_nodeMap st !! id) <-> id ∈ map n_id (f_nodes st)).


(** [a] is not later than [b], and both timestamps parse. *)
Definition notLater (Date_parse : string -> option Z) (a b : TimelineEvent) : Prop :=
  exists x y,
    Date_parse (ev_timestamp a) = Some x /\ Date_parse (ev_timestamp b) = Some y /\
    x <= y.


(** The log lines that [GET /processes/:id/logs?page=p] answers with
    (none for the 404 answer). *)
Definition pageLogs (now : Z) (limitQuery : option Z) (processId : string) (w : World)
    (p : Z) : list string :=
  match processLogsRoute now (Some p) limitQuery processId w with
  | Some answer => pg_logs answer
  | None => []
  end.


(** * Properties *)

(** ** The log buffer *)

Lemma logsOf_logProcess toISOString now processId message w :
  logsOf processId (_logProcess toISOString now processId message w)
  = pushCapped (logsOf processId w) (logEntry toISOString (now, message)).
Proof.
  unfold logsOf, _logProcess, pushCapped, logEntry; simpl.
  by rewrite lookup_insert_eq.
Qed.

Lemma logsOf_logProcess_ne toISOString now processId other message w :
  processId ≠ other ->
  logsOf other (_logProcess toISOString now processId message w) = logsOf other w.
Proof.
  intros Hne. unfold logsOf, _logProcess; simpl.
  by rewrite lookup_insert_ne.
Qed.

Lemma tail_drop {A} (n : nat) (l : list A) : tail (drop n l) = drop (S n) l.
Proof.
  revert n; induction l as [|x l IH]; intros [|n]; simpl; done.
Qed.

Lemma pushCapped_length logs e :
  (length logs <= 1000)%nat -> (length (pushCapped logs e) <= 1000)%nat.
Proof.
  intros Hlen. unfold pushCapped.
  destruct (Z.ltb_spec 1000 (Z.of_nat (length (logs ++ [e])))) as [Hgt|Hle].
  - destruct logs as [|x logs]; simpl in *; [lia|].
    rewrite length_app; simpl. lia.
  - lia.
Qed.

Lemma pushCapped_lastn (l : list string) e :
  pushCapped (lastn 1000 l) e = lastn 1000 (l ++ [e]).
Proof.
  unfold pushCapped, lastn.
  rewrite !length_app, length_drop; simpl.
  destruct (Z.ltb_spec 1000 (Z.of_nat (length l - (length l - 1000) + 1))) as [Hgt|Hle].
  - assert (Hl : (1000 <= length l)%nat) by lia.
    replace (length l + 1 - 1000)%nat with (S (length l - 1000)) by lia.
    assert (Hd : (length l - 1000 < length l)%nat) by lia.
    rewrite <- (tail_drop (length l - 1000) (l ++ [e])).
    rewrite drop_app_le by lia.
    destruct (drop (length l - 1000) l) as [|x d] eqn:Hdrop; [|done].
    apply (f_equal length) in Hdrop. rewrite length_drop in Hdrop. simpl in Hdrop. lia.
  - replace (length l - 1000)%nat with 0%nat by lia.
    replace (length l + 1 - 1000)%nat with 0%nat by lia.
    by rewrite !drop_0.
Qed.

Lemma lastn_short {A} (k : nat) (l : list A) : (length l <= k)%nat -> lastn k l = l.
Proof.
  intros Hl. unfold lastn. replace (length l - k)%nat with 0%nat by lia. apply drop_0.
Qed.

Lemma logAll_lastn toISOString processId appends : forall (l : list string) w,
  logsOf processId w = lastn 1000 l ->
  logsOf processId (logAll toISOString processId appends w)
  = lastn 1000 (l ++ map (logEntry toISOString) appends).
Proof.
  induction appends as [|[now message] appends IH]; intros l w Hw; simpl.
  - by rewrite app_nil_r.
  - rewrite (IH (l ++ [logEntry toISOString (now, message)])).
    + by rewrite <- app_assoc.
    + rewrite logsOf_logProcess, Hw. apply pushCapped_lastn.
Qed.

(** A push onto a buffer of at most 1000 entries leaves at most 1000
    entries, dropping exactly the oldest one when the buffer was full;
    after 1500 appends the buffer holds the last 1000 of them in order. *)
Lemma log_buffer_fifo toISOString processId w :
  (length (logsOf processId w) <= 1000)%nat ->
  (forall now message,
      let w' := _logProcess toISOString now processId message w in
      (length (logsOf processId w') <= 1000)%nat /\
      (length (logsOf processId w) = 1000%nat ->
       logsOf processId w'
       = tail (logsOf processId w) ++ [logEntry toISOString (now, message)]) /\
      ((length (logsOf processId w) < 1000)%nat ->
       logsOf processId w'
       = logsOf processId w ++ [logEntry toISOString (now, message)])) /\
  (forall appends,
      length appends = 1500%nat ->
      logsOf processId (logAll toISOString processId appends w)
      = map (logEntry toISOString) (drop 500 appends)).
Proof.
  intros Hlen. split.
  - intros now message w'. subst w'. rewrite logsOf_logProcess.
    split; [by apply pushCapped_length|].
    unfold pushCapped. rewrite length_app. simpl. split; intros Hl.
    + destruct (Z.ltb_spec 1000 (Z.of_nat (length (logsOf processId w) + 1))); [|lia].
      destruct (logsOf processId w); [simpl in Hl; lia | done].
    + destruct (Z.ltb_spec 1000 (Z.of_nat (length (logsOf processId w) + 1))); [lia|done].
  - intros appends Happ.
    rewrite (logAll_lastn toISOString processId appends (logsOf processId w) w)
      by (by rewrite lastn_short).
    unfold lastn. rewrite length_app, length_map, Happ.
    rewrite drop_app_ge by lia.
    rewrite <- skipn_map. f_equal. lia.
Qed.

(** ** The exit handler *)

Lemma activeProcesses_logProcess toISOString now processId message w :
  activeProcesses (_logProcess toISOString now processId message w) = activeProcesses w.
Proof. reflexivity. Qed.

(** C4. For a process still in the registry, the exit handler with code 0
    leaves the record [COMPLETED] with progress 100; with any other code
    (or none, when a signal ended the worker) it leaves it [ERROR] with
    the exit code and the signal in the error text; either way the end
    time (and the update time) is the handler's clock reading. *)
Theorem C4_exit_handler toISOString now processId code signal w processInfo :
  activeProcesses w !! processId = Some processInfo ->
  exists processInfo',
    activeProcesses (onExit toISOString now processId code signal w) !! processId
    = Some processInfo' /\
    p_endTime processInfo' = Some now /\
    p_updateTime processInfo' = now /\
    (code = Some 0 ->
     p_state processInfo' = COMPLETED /\ p_progress processInfo' = 100) /\
    (code <> Some 0 ->
     p_state processInfo' = ERROR /\
     p_error processInfo'
     = Some ("Process exited with code " +:+ showNumber code "null" +:+
             " (signal: " +:+ showString signal "null" +:+ ")")).
Proof.
  intros Hget. unfold onExit. rewrite Hget.
  case_bool_decide as Hcode; simpl; rewrite lookup_insert_eq;
    eexists; (split; [reflexivity|]); simpl; repeat split; intros; try done.
Qed.

Lemma C4_exit_handler_witness :
  let w := putProcess "p"
             {| p_type := "log-analysis"; p_parameters := []; p_state := RUNNING;
                p_startTime := 0; p_updateTime := 0; p_progress := 40;
                p_pid := Some 4242; p_endTime := None; p_error := None |}
             initialWorld in
  exists processInfo',
    activeProcesses (onExit (fun _ => "t") 7 "p" (Some 2) None w) !! "p"
    = Some processInfo' /\
    p_state processInfo' = ERROR /\
    p_error processInfo' = Some "Process exited with code 2 (signal: null)" /\
    p_endTime processInfo' = Some 7.
Proof.
  intros w.
  destruct (C4_exit_handler (fun _ => "t") 7 "p" (Some 2) None w
              {| p_type := "log-analysis"; p_parameters := []; p_state := RUNNING;
                 p_startTime := 0; p_updateTime := 0; p_progress := 40;
                 p_pid := Some 4242; p_endTime := None; p_error := None |}
              eq_refl)
    as (processInfo' & Hget & Hend & _ & _ & Herr).
  exists processInfo'. destruct Herr as [Hst Her]; [discriminate|].
  repeat split; assumption.
Defined.

(** ** The off-hours rule *)

Lemma ruleOffHourKeyExtraction_app Date_parse l1 l2 :
  ruleOffHourKeyExtraction Date_parse (l1 ++ l2)
  = ruleOffHourKeyExtraction Date_parse l1 ++ ruleOffHourKeyExtraction Date_parse l2.
Proof. unfold ruleOffHourKeyExtraction. apply flat_map_app. Qed.

(** C10. A record of the key-extraction type whose timestamp parses to
    the time value [ms] has the UTC hour of day [h = (ms / 3600000) mod 24].
    The rule emits exactly one alert for it, naming its snapshot, when
    [h < 8] or [h >= 18], and nothing otherwise; within a list every record
    contributes its own alerts in place. Hour 3 alerts, hour 10 does
    not. *)
Theorem C10_off_hours_rule Date_parse (a : Artifact) (ms : Z) :
  artifact_type a = "serpent_xts_key" ->
  Date_parse (timestamp a) = Some ms ->
  let h := (ms / 3600000) mod 24 in
  0 <= h < 24 /\
  ((h < 8 \/ 18 <= h) ->
   ruleOffHourKeyExtraction Date_parse [a]
   = ["[Alert] Key extracted at off-hours (" +:+ showZ h +:+ "h): snapshot=" +:+
      snapshot_id a]) /\
  (~ (h < 8 \/ 18 <= h) -> ruleOffHourKeyExtraction Date_parse [a] = []) /\
  (length (ruleOffHourKeyExtraction Date_parse [a]) = 1%nat <-> (h < 8 \/ 18 <= h)) /\
  (forall before after,
      ruleOffHourKeyExtraction Date_parse (before ++ a :: after)
      = ruleOffHourKeyExtraction Date_parse before
        ++ ruleOffHourKeyExtraction Date_parse [a]
        ++ ruleOffHourKeyExtraction Date_parse after) /\
  (h = 3 -> length (ruleOffHourKeyExtraction Date_parse [a]) = 1%nat) /\
  (h = 10 -> ruleOffHourKeyExtraction Date_parse [a] = []).
Proof.
  intros Hty Hms h.
  assert (Hrange : 0 <= h < 24) by (apply Z.mod_pos_bound; lia).
  assert (Hrule : ruleOffHourKeyExtraction Date_parse [a]
                  = if (h <? 8) || (h >=? 18) then [offHourAlert h a] else []).
  { unfold ruleOffHourKeyExtraction, getHour, getUTCHours. simpl.
    rewrite Hty, Hms. simpl.
    unfold WORK_HOUR_START, WORK_HOUR_END. fold h. by rewrite app_nil_r. }
  split; [exact Hrange|]. clear Hrange.
  rewrite Hrule. clearbody h.
  destruct (Z.ltb_spec h 8), (Z.geb_spec h 18); simpl;
    (repeat split; intros; subst; try done; try lia);
    try (rewrite ruleOffHourKeyExtraction_app;
         change (a :: after) with ([a] ++ after);
         rewrite ruleOffHourKeyExtraction_app, Hrule;
         destruct (Z.ltb_spec h 8), (Z.geb_spec h 18); simpl; try lia; done).
Qed.

Lemma C10_off_hours_rule_witness :
  let Date_parse := fun isoTimestamp : string =>
    if String.eqb isoTimestamp "2024-05-01T03:00:00.000Z" then Some 1714532400000
    else if String.eqb isoTimestamp "2024-05-01T10:00:00.000Z" then Some 1714557600000
    else None in
  ruleOffHourKeyExtraction Date_parse
    [{| artifact_type := "serpent_xts_key"; timestamp := "2024-05-01T03:00:00.000Z";
        snapshot_id := "snap-7" |}]
  = ["[Alert] Key extracted at off-hours (3h): snapshot=snap-7"] /\
  ruleOffHourKeyExtraction Date_parse
    [{| artifact_type := "serpent_xts_key"; timestamp := "2024-05-01T10:00:00.000Z";
        snapshot_id := "snap-8" |}]
  = [].
Proof.
  intros Date_parse. split.
  - pose proof (C10_off_hours_rule Date_parse
                  {| artifact_type := "serpent_xts_key";
                     timestamp := "2024-05-01T03:00:00.000Z"; snapshot_id := "snap-7" |}
                  1714532400000 eq_refl eq_refl) as H.
    cbv zeta in H. destruct H as (_ & Halert & _).
    apply Halert. left. reflexivity.
  - pose proof (C10_off_hours_rule Date_parse
                  {| artifact_type := "serpent_xts_key";
                     timestamp := "2024-05-01T10:00:00.000Z"; snapshot_id := "snap-8" |}
                  1714557600000 eq_refl eq_refl) as H.
    cbv zeta in H. destruct H as (_ & _ & Hquiet & _).
    apply Hquiet. intros [H|H]; vm_compute in H; [discriminate H|by apply H].
Defined.

(** ** Decision steps *)

Lemma stepAt_Some_range steps i s :
  stepAt steps i = Some s -> 0 <= i < Z.of_nat (length steps).
Proof.
  unfold stepAt. destruct (Z.ltb_spec i 0); [discriminate|].
  intros Hs. apply lookup_lt_Some in Hs. lia.
Qed.

(** A workflow whose first step is a decision with one [skip] branch of
    skip count 2: running the step moves the index from 0 to 3, not to 2. *)
Lemma C2_skip_advances_one_more :
  let workflow :=
    {| w_id := "wf"; w_type := "incident-response"; w_parameters := [];
       w_definition :=
         [DecisionStep "triage" "severity" [{| b_name := "low"; b_action := "skip";
                                               b_skipCount := Some 2 |}];
          DelayStep "a" 10; DelayStep "b" 10; DelayStep "c" 10; DelayStep "d" 10];
       w_currentStep := 0; w_state := running; w_processes := [];
       w_startTime := 0; w_updateTime := 0; w_endTime := None; w_error := None |} in
  let w := putWorkflow "wf" workflow initialWorld in
  ~ (forall workflow',
       workflowStates
         (snd (_executeWorkflowStep (fun _ => "t") None 1 "r" None "wf" w)) !! "wf"
       = Some workflow' ->
       w_currentStep workflow' = w_currentStep workflow + 2).
Proof.
  intros workflow w H.
  specialize (H (wf_set_updateTime 1 (wf_set_currentStep 3 workflow)) eq_refl).
  discriminate H.
Qed.

(** C2 (as the code has it). Running a decision step of a running workflow
    takes the first branch and leaves the index advanced by the branch's
    skip count (1 when absent or zero) plus one when the action is [skip],
    by two when it is [execute], and by exactly one for any other action,
    [continue] included; with a non-negative skip count the index does not
    decrease. The workflow stays [running]. *)
Theorem C2_decision_step_advance toISOString maxConcurrentProcesses
    now rnd childPid workflowId w workflow name condition branch others :
  workflowStates w !! workflowId = Some workflow ->
  w_state workflow = running ->
  stepAt (w_definition workflow) (w_currentStep workflow)
  = Some (DecisionStep name condition (branch :: others)) ->
  exists workflow',
    workflowStates
      (snd (_executeWorkflowStep toISOString maxConcurrentProcesses
              now rnd childPid workflowId w)) !! workflowId
    = Some workflow' /\
    w_state workflow' = running /\
    (b_action branch = "skip" ->
     w_currentStep workflow'
     = w_currentStep workflow
       + match b_skipCount branch with
         | Some n => if n =? 0 then 1 else n
         | None => 1
         end
       + 1) /\
    (b_action branch = "execute" ->
     w_currentStep workflow' = w_currentStep workflow + 2) /\
    (b_action branch <> "skip" -> b_action branch <> "execute" ->
     w_currentStep workflow' = w_currentStep workflow + 1) /\
    (b_action branch = "continue" ->
     w_currentStep workflow' = w_currentStep workflow + 1) /\
    ((forall n, b_skipCount branch = Some n -> 0 <= n) ->
     w_currentStep workflow < w_currentStep workflow').
Proof.
  intros Hget Hrun Hstep.
  pose proof (stepAt_Some_range _ _ _ Hstep) as Hrange.
  unfold _executeWorkflowStep. rewrite Hget, Hrun. simpl.
  destruct (Z.geb_spec (w_currentStep workflow) (Z.of_nat (length (w_definition workflow))));
    [lia|].
  rewrite Hstep. unfold _executeDecisionStep. rewrite Hget. simpl.
  unfold settleStep. simpl. rewrite lookup_insert_eq. simpl.
  rewrite lookup_insert_eq.
  eexists; split; [reflexivity|].
  unfold skipCountOr1.
  destruct (String.eqb_spec (b_action branch) "skip") as [Hs|Hs];
    [|destruct (String.eqb_spec (b_action branch) "execute") as [He|He]];
    simpl; rewrite ?Hrun; repeat split; intros; try congruence; try lia.
  match goal with Hn : forall n, b_skipCount branch = Some n -> _ |- _ =>
    destruct (b_skipCount branch) as [n|]; [|lia];
    destruct (Z.eqb_spec n 0); [lia|]; specialize (Hn n eq_refl); lia
  end.
Qed.

Lemma C2_decision_step_advance_witness :
  let workflow :=
    {| w_id := "wf"; w_type := "incident-response"; w_parameters := [];
       w_definition :=
         [DecisionStep "triage" "severity" [{| b_name := "low"; b_action := "skip";
                                               b_skipCount := Some 2 |}];
          DelayStep "a" 10; DelayStep "b" 10; DelayStep "c" 10; DelayStep "d" 10];
       w_currentStep := 0; w_state := running; w_processes := [];
       w_startTime := 0; w_updateTime := 0; w_endTime := None; w_error := None |} in
  exists workflow',
    workflowStates
      (snd (_executeWorkflowStep (fun _ => "t") None 1 "r" None "wf"
              (putWorkflow "wf" workflow initialWorld))) !! "wf"
    = Some workflow' /\
    w_currentStep workflow' = 3.
Proof.
  intros workflow.
  destruct (C2_decision_step_advance (fun _ => "t") None 1 "r" None "wf"
              (putWorkflow "wf" workflow initialWorld) workflow
              "triage" "severity"
              {| b_name := "low"; b_action := "skip"; b_skipCount := Some 2 |} []
              eq_refl eq_refl eq_refl)
    as (workflow' & Hget & _ & Hskip & _).
  exists workflow'. split; [exact Hget|]. exact (Hskip eq_refl).
Defined.

(** ** Stopping a process *)

(** With the worker's pid on record, a [process.kill] that raises does not
    turn the stop into a failure: the call still returns [true] and the
    record ends [COMPLETED]. *)
Lemma C5_kill_failure_is_not_an_error :
  let w := putProcess "p"
             {| p_type := "log-analysis"; p_parameters := []; p_state := RUNNING;
                p_startTime := 0; p_updateTime := 0; p_progress := 40;
                p_pid := Some 4242; p_endTime := None; p_error := None |}
             initialWorld in
  let r := stopProcess (fun _ => "t") 5 (Some "kill ESRCH") None "p" w in
  ~ (fst r = false /\ stateOf "p" (snd r) = Some ERROR).
Proof. intros w r [H _]. vm_compute in H. discriminate H. Qed.

Lemma logLines_activeProcesses toISOString now processId lines : forall w,
  activeProcesses
    (fold_left (fun w line => _logProcess toISOString now processId line w) lines w)
  = activeProcesses w.
Proof.
  induction lines as [|line lines IH]; intros w; simpl; [done|]. by rewrite IH.
Qed.

Lemma cleanupProcess_activeProcesses toISOString now fault processId processType w :
  activeProcesses (snd (_cleanupProcess toISOString now fault processId processType w))
  = activeProcesses w.
Proof.
  unfold _cleanupProcess. destruct fault; simpl; [done|].
  by rewrite logLines_activeProcesses.
Qed.

Lemma cleanupProcess_result toISOString now fault processId processType w :
  fst (_cleanupProcess toISOString now fault processId processType w)
  = match fault with Some e => Thrown e | None => Returned tt end.
Proof. unfold _cleanupProcess. by destruct fault. Qed.

(** C5 (as the code has it). For a record in the registry, [stopProcess]
    leaves the record in a terminal state whatever the worker does. A
    terminate request that fails is logged and does not abort the stop.
    When cleanup raises nothing the call returns [true] and the record is
    [COMPLETED] with progress 100 and the end time stamped; when cleanup
    raises a condition the call returns [false] and the record is [ERROR]
    with that condition's message. *)
Theorem C5_stop_leaves_terminal toISOString now killError cleanupFault
    processId w processInfo :
  activeProcesses w !! processId = Some processInfo ->
  exists processInfo',
    activeProcesses
      (snd (stopProcess toISOString now killError cleanupFault processId w)) !! processId
    = Some processInfo' /\
    (p_state processInfo' = COMPLETED \/ p_state processInfo' = ERROR) /\
    p_state processInfo' <> RUNNING /\
    p_state processInfo' <> PAUSED /\
    p_state processInfo' <> STOPPING /\
    (cleanupFault = None ->
     fst (stopProcess toISOString now killError cleanupFault processId w) = true /\
     p_state processInfo' = COMPLETED /\
     p_progress processInfo' = 100 /\
     p_endTime processInfo' = Some now) /\
    (forall e, cleanupFault = Some e ->
     fst (stopProcess toISOString now killError cleanupFault processId w) = false /\
     p_state processInfo' = ERROR /\
     p_error processInfo' = Some e).
Proof.
  intros Hget. unfold stopProcess. rewrite Hget.
  match goal with
  | |- context [_cleanupProcess toISOString now cleanupFault processId ?ty ?w0] =>
      pose proof (cleanupProcess_activeProcesses toISOString now cleanupFault processId ty w0)
        as Hact;
      pose proof (cleanupProcess_result toISOString now cleanupFault processId ty w0)
        as Hres;
      destruct (_cleanupProcess toISOString now cleanupFault processId ty w0)
        as [res w1] eqn:Hclean
  end.
  simpl in Hact, Hres.
  assert (Hw1 : activeProcesses w1 !! processId
                = Some (set_updateTime now (set_state STOPPING processInfo))).
  { rewrite Hact.
    destruct (truthy_pid _) as [pid|]; [destruct killError|]; simpl;
      by rewrite lookup_insert_eq. }
  destruct cleanupFault as [e|]; subst res.
  - rewrite Hw1. simpl. rewrite lookup_insert_eq.
    eexists; split; [reflexivity|]. simpl.
    repeat split; try done; try (by right).
    all: intros; congruence.
  - simpl. rewrite lookup_insert_eq.
    eexists; split; [reflexivity|]. simpl.
    repeat split; try done; try (by left).
Qed.

Lemma C5_stop_leaves_terminal_witness :
  let w := putProcess "p"
             {| p_type := "log-analysis"; p_parameters := []; p_state := PAUSED;
                p_startTime := 0; p_updateTime := 0; p_progress := 40;
                p_pid := Some 4242; p_endTime := None; p_error := None |}
             initialWorld in
  exists processInfo',
    activeProcesses
      (snd (stopProcess (fun _ => "t") 5 None (Some "disk full") "p" w)) !! "p"
    = Some processInfo' /\
    p_state processInfo' = ERROR /\
    p_error processInfo' = Some "disk full".
Proof.
  intros w.
  destruct (C5_stop_leaves_terminal (fun _ => "t") 5 None (Some "disk full") "p" w
              {| p_type := "log-analysis"; p_parameters := []; p_state := PAUSED;
                 p_startTime := 0; p_updateTime := 0; p_progress := 40;
                 p_pid := Some 4242; p_endTime := None; p_error := None |}
              eq_refl)
    as (processInfo' & Hget & _ & _ & _ & _ & _ & Herr).
  exists processInfo'. destruct (Herr "disk full" eq_refl) as (_ & Hst & He).
  repeat split; assumption.
Defined.

(** ** The capacity check *)

(** [startProcess] raises the capacity error exactly when the registry
    holds at least [maxConcurrent] records, whatever their state. *)
Lemma startProcess_capacity_iff toISOString maxConcurrentProcesses
    now rnd childPid processType parameters w :
  fst (startProcess toISOString maxConcurrentProcesses now rnd childPid
         processType parameters w)
  = Thrown "Maximum concurrent processes reached"
  <-> maxConcurrent maxConcurrentProcesses <= Z.of_nat (size (activeProcesses w)).
Proof.
  unfold startProcess.
  destruct (Z.geb_spec (Z.of_nat (size (activeProcesses w)))
              (maxConcurrent maxConcurrentProcesses)) as [Hge|Hlt]; simpl.
  - split; [lia|done].
  - split; [|lia]. destruct (startLogLine processType); simpl.
    + rewrite lookup_insert_eq. simpl. discriminate.
    + discriminate.
Qed.

Lemma nonTerminalCount_le_size w : (nonTerminalCount w <= size (activeProcesses w))%nat.
Proof. unfold nonTerminalCount. apply map_subseteq_size, map_filter_subseteq. Qed.

(** When the non-terminal records alone reach the cap, the start is
    rejected. *)
Lemma startProcess_rejects_at_cap toISOString maxConcurrentProcesses
    now rnd childPid processType parameters w :
  maxConcurrent maxConcurrentProcesses <= Z.of_nat (nonTerminalCount w) ->
  fst (startProcess toISOString maxConcurrentProcesses now rnd childPid
         processType parameters w)
  = Thrown "Maximum concurrent processes reached".
Proof.
  intros H. apply startProcess_capacity_iff.
  pose proof (nonTerminalCount_le_size w). lia.
Qed.

(** C1 (evaluation at the failing input). With a cap of 1, a process is
    started and its worker exits with code 0. No record is then in a
    non-terminal state, yet the next start is rejected with the capacity
    error: the completed record still counts. *)
Theorem C1_completed_record_counts_against_cap :
  let toISOString := fun _ : Z => "t" in
  let w1 := snd (startProcess toISOString (Some 1) 10 "a" (Some 4242)
                   "log-analysis" [] initialWorld) in
  let w2 := onExit toISOString 20 "log-analysis-10-a" (Some 0) None w1 in
  stateOf "log-analysis-10-a" w2 = Some COMPLETED /\
  nonTerminalCount w2 = 0%nat /\
  maxConcurrent (Some 1) = 1 /\
  fst (startProcess toISOString (Some 1) 30 "b" (Some 4243) "malware-scan" [] w2)
  = Thrown "Maximum concurrent processes reached".
Proof. vm_compute. repeat split. Qed.

(** ** Terminal states *)

(** [pauseProcess] and [resumeProcess] never touch a record that is not
    [RUNNING], respectively [PAUSED]. *)
Lemma pauseProcess_unchanged toISOString now killError processId w processInfo :
  activeProcesses w !! processId = Some processInfo ->
  p_state processInfo <> RUNNING ->
  pauseProcess toISOString now killError processId w = (false, w).
Proof.
  intros Hget Hst. unfold pauseProcess, pauseProcess_body. rewrite Hget.
  by rewrite bool_decide_eq_false_2.
Qed.

Lemma resumeProcess_unchanged toISOString now killError processId w processInfo :
  activeProcesses w !! processId = Some processInfo ->
  p_state processInfo <> PAUSED ->
  resumeProcess toISOString now killError processId w = (false, w).
Proof.
  intros Hget Hst. unfold resumeProcess, resumeProcess_body. rewrite Hget.
  by rewrite bool_decide_eq_false_2.
Qed.

(** C3 (evaluation at the failing inputs). A worker exits with code 2, so
    its record is [ERROR]; a later [stopProcess] rewrites the state to
    [COMPLETED]. Conversely a record that [stopProcess] left [COMPLETED]
    is rewritten to [ERROR] when the exit event of the killed worker
    arrives. *)
Theorem C3_terminal_state_is_rewritten :
  let toISOString := fun _ : Z => "t" in
  let w0 := putProcess "p"
              {| p_type := "log-analysis"; p_parameters := []; p_state := RUNNING;
                 p_startTime := 0; p_updateTime := 0; p_progress := 40;
                 p_pid := Some 4242; p_endTime := None; p_error := None |}
              initialWorld in
  let afterExit := onExit toISOString 5 "p" (Some 2) None w0 in
  let stopAfterExit :=
    snd (stopProcess toISOString 9 (Some "kill ESRCH") None "p" afterExit) in
  let afterStop := snd (stopProcess toISOString 5 None None "p" w0) in
  let exitAfterStop := onExit toISOString 6 "p" None (Some "SIGTERM") afterStop in
  stateOf "p" afterExit = Some ERROR /\
  stateOf "p" stopAfterExit = Some COMPLETED /\
  stateOf "p" afterStop = Some COMPLETED /\
  stateOf "p" exitAfterStop = Some ERROR.
Proof. vm_compute. repeat split. Qed.

(** ** Retention *)

Lemma timers_logProcess toISOString now processId message w :
  timers (_logProcess toISOString now processId message w) = timers w.
Proof. reflexivity. Qed.

Lemma logLines_timers toISOString now processId lines : forall w,
  timers (fold_left (fun w line => _logProcess toISOString now processId line w) lines w)
  = timers w.
Proof.
  induction lines as [|line lines IH]; intros w; simpl; [done|]. by rewrite IH.
Qed.

(** A successful [stopProcess] schedules the removal one hour after the
    call, and the record stays in the registry meanwhile. *)
Lemma stopProcess_schedules_purge toISOString now killError processId w processInfo :
  activeProcesses w !! processId = Some processInfo ->
  timers (snd (stopProcess toISOString now killError None processId w))
  = timers w ++ [(now + 3600000, processId)].
Proof.
  intros Hget. unfold stopProcess, _cleanupProcess. rewrite Hget. simpl.
  rewrite logLines_timers.
  by destruct (truthy_pid _) as [pid|]; [destruct killError|].
Qed.

(** C8 (evaluation of the exit handler). The exit handler schedules
    nothing: the pending timers are the same before and after it, for
    every record, exit code and signal. In particular a record that
    reaches [COMPLETED] through its worker's exit has no removal pending. *)
Theorem C8_exit_handler_schedules_no_purge toISOString now processId code signal w :
  timers (onExit toISOString now processId code signal w) = timers w /\
  let w1 := snd (startProcess toISOString None 10 "a" (Some 4242)
                   "log-analysis" [] initialWorld) in
  let w2 := onExit toISOString 20 "log-analysis-10-a" (Some 0) None w1 in
  stateOf "log-analysis-10-a" w2 = Some COMPLETED /\ timers w2 = [].
Proof.
  split.
  - unfold onExit. destruct (activeProcesses w !! processId); [|done].
    by case_bool_decide.
  - vm_compute. split; reflexivity.
Qed.

(** ** Pause and resume *)

Lemma keeps_paused_refl m : keeps_paused m m.
Proof. intros id info' Hget Hst. by exists info'. Qed.

Lemma keeps_paused_trans m1 m2 m3 :
  keeps_paused m1 m2 -> keeps_paused m2 m3 -> keeps_paused m1 m3.
Proof.
  intros H12 H23 id info3 Hget Hst.
  destruct (H23 id info3 Hget Hst) as (info2 & Hget2 & Hst2 & Hty2).
  destruct (H12 id info2 Hget2 Hst2) as (info1 & Hget1 & Hst1 & Hty1).
  exists info1. repeat split; congruence.
Qed.

Lemma keeps_paused_insert m id info :
  p_state info <> PAUSED -> keeps_paused m (<[id := info]> m).
Proof.
  intros Hst id' info' Hget Hp.
  destruct (decide (id = id')) as [->|Hne].
  - rewrite lookup_insert_eq in Hget. congruence.
  - rewrite lookup_insert_ne in Hget by done. by exists info'.
Qed.

Lemma keeps_paused_update m id info0 info :
  m !! id = Some info0 -> p_state info = p_state info0 -> p_type info = p_type info0 ->
  keeps_paused m (<[id := info]> m).
Proof.
  intros Hget0 Hst Hty id' info' Hget Hp.
  destruct (decide (id = id')) as [->|Hne].
  - rewrite lookup_insert_eq in Hget. injection Hget as <-.
    exists info0. repeat split; congruence.
  - rewrite lookup_insert_ne in Hget by done. by exists info'.
Qed.

Lemma keeps_paused_delete m id : keeps_paused m (delete id m).
Proof.
  intros id' info' Hget Hp.
  destruct (decide (id = id')) as [->|Hne].
  - by rewrite lookup_delete_eq in Hget.
  - rewrite lookup_delete_ne in Hget by done. by exists info'.
Qed.

Create HintDb paused.

#[local] Hint Resolve keeps_paused_refl keeps_paused_insert keeps_paused_delete : paused.

Section PausedPreservation.

Variable toISOString : Z -> string.
Variable maxConcurrentProcesses : option Z.

Lemma startProcess_keeps_paused now rnd childPid processType parameters w :
  keeps_paused (activeProcesses w)
    (activeProcesses (snd (startProcess toISOString maxConcurrentProcesses
                             now rnd childPid processType parameters w))).
Proof.
  unfold startProcess.
  destruct (_ >=? _); simpl; [auto with paused|].
  destruct (startLogLine processType); simpl.
  - rewrite lookup_insert_eq. simpl.
    eapply keeps_paused_trans; apply keeps_paused_insert; simpl; discriminate.
  - apply keeps_paused_insert; simpl; discriminate.
Qed.

Lemma stopProcess_keeps_paused now killError cleanupFault processId w :
  keeps_paused (activeProcesses w)
    (activeProcesses (snd (stopProcess toISOString now killError cleanupFault processId w))).
Proof.
  unfold stopProcess.
  destruct (activeProcesses w !! processId) as [processInfo|] eqn:Hget; simpl;
    [|auto with paused].
  match goal with
  | |- context [_cleanupProcess toISOString now cleanupFault processId ?ty ?w0] =>
      pose proof (cleanupProcess_activeProcesses toISOString now cleanupFault processId ty w0)
        as Hact;
      destruct (_cleanupProcess toISOString now cleanupFault processId ty w0)
        as [res w1] eqn:Hclean
  end.
  simpl in Hact.
  assert (Hw1 : activeProcesses w1
                = <[processId := set_updateTime now (set_state STOPPING processInfo)]>
                    (activeProcesses w)).
  { rewrite Hact. by destruct (truthy_pid _) as [pid|]; [destruct killError|]. }
  assert (H01 : keeps_paused (activeProcesses w) (activeProcesses w1)).
  { rewrite Hw1. apply keeps_paused_insert; simpl; discriminate. }
  destruct res as [[]|message]; simpl.
  - eapply keeps_paused_trans; [exact H01|].
    apply keeps_paused_insert; simpl; discriminate.
  - assert (Hl : activeProcesses w1 !! processId
                 = Some (set_updateTime now (set_state STOPPING processInfo)))
      by (by rewrite Hw1, lookup_insert_eq).
    rewrite Hl. simpl.
    eapply keeps_paused_trans; [exact H01|].
    apply keeps_paused_insert; simpl; discriminate.
Qed.

Lemma resumeProcess_keeps_paused now killError processId w :
  keeps_paused (activeProcesses w)
    (activeProcesses (snd (resumeProcess toISOString now killError processId w))).
Proof.
  unfold resumeProcess, resumeProcess_body.
  destruct (activeProcesses w !! processId) as [processInfo|]; simpl; [|auto with paused].
  destruct (negb _); simpl; [auto with paused|].
  destruct (truthy_pid _) as [pid|]; simpl; [|auto with paused].
  destruct killError; simpl; [auto with paused|].
  apply keeps_paused_insert; simpl; discriminate.
Qed.

Lemma updateProcessProgress_keeps_paused now processId progress w :
  keeps_paused (activeProcesses w)
    (activeProcesses (updateProcessProgress toISOString now processId progress w)).
Proof.
  unfold updateProcessProgress.
  destruct (activeProcesses w !! processId) as [processInfo|] eqn:Hget;
    [|auto with paused].
  assert (keeps_paused (activeProcesses w)
            (<[processId := set_updateTime now
                              (set_progress (Z.min (Z.max progress 0) 100) processInfo)]>
               (activeProcesses w)))
    by (by eapply keeps_paused_update).
  by destruct (_ =? _).
Qed.

Lemma onStdout_keeps_paused now processId output progressMatch w :
  keeps_paused (activeProcesses w)
    (activeProcesses (onStdout toISOString now processId output progressMatch w)).
Proof.
  unfold onStdout. destruct progressMatch as [n|]; [|auto with paused].
  apply (updateProcessProgress_keeps_paused now processId n
           (_logProcess toISOString now processId output w)).
Qed.

Lemma onExit_keeps_paused now processId code signal w :
  keeps_paused (activeProcesses w)
    (activeProcesses (onExit toISOString now processId code signal w)).
Proof.
  unfold onExit.
  destruct (activeProcesses w !! processId) as [processInfo|]; [|auto with paused].
  case_bool_decide; simpl; apply keeps_paused_insert; simpl; discriminate.
Qed.

Lemma onError_keeps_paused now processId message w :
  keeps_paused (activeProcesses w)
    (activeProcesses (onError toISOString now processId message w)).
Proof.
  unfold onError. simpl.
  destruct (activeProcesses w !! processId) as [processInfo|]; [|auto with paused].
  apply keeps_paused_insert; simpl; discriminate.
Qed.

Lemma settleStep_activeProcesses now workflowId outcome w :
  activeProcesses (settleStep now workflowId outcome w) = activeProcesses w.
Proof.
  unfold settleStep. destruct (workflowStates w !! workflowId); [|done].
  by destruct outcome.
Qed.

Lemma executeWorkflowStep_keeps_paused now rnd childPid workflowId w :
  keeps_paused (activeProcesses w)
    (activeProcesses (snd (_executeWorkflowStep toISOString maxConcurrentProcesses
                             now rnd childPid workflowId w))).
Proof.
  unfold _executeWorkflowStep.
  destruct (workflowStates w !! workflowId) as [workflow|] eqn:Hget; [|auto with paused].
  destruct (negb _); [auto with paused|].
  destruct (_ >=? _); [auto with paused|].
  destruct (stepAt _ _) as [[? processType parameters|? ? branches|? ?|? ?|? ?]|];
    simpl; try (rewrite settleStep_activeProcesses); auto with paused.
  - pose proof (startProcess_keeps_paused now rnd childPid processType parameters w) as Hs.
    destruct (startProcess _ _ _ _ _ _ _ _) as [[processId|e] w1]; simpl in *.
    + by destruct (workflowStates w1 !! workflowId).
    + by rewrite settleStep_activeProcesses.
  - unfold _executeDecisionStep. rewrite Hget.
    destruct branches; simpl; rewrite settleStep_activeProcesses; auto with paused.
Qed.

Lemma pollProcessStep_activeProcesses now workflowId processId w :
  activeProcesses (pollProcessStep now workflowId processId w) = activeProcesses w.
Proof.
  unfold pollProcessStep. case_bool_decide; [|done].
  destruct (pollOutcome _ _ _ _); [|done].
  by rewrite settleStep_activeProcesses.
Qed.

Lemma stopAll_keeps_paused now oracle processIds : forall w,
  keeps_paused (activeProcesses w)
    (activeProcesses
       (fold_left
          (fun w processId =>
             snd (stopProcess toISOString now (fst (oracle processId))
                    (snd (oracle processId)) processId w))
          processIds w)).
Proof.
  induction processIds as [|processId processIds IH]; intros w; simpl;
    [auto with paused|].
  eapply keeps_paused_trans; [|apply IH]. apply stopProcess_keeps_paused.
Qed.

Lemma stopWorkflow_keeps_paused now oracle workflowId w :
  keeps_paused (activeProcesses w)
    (activeProcesses (snd (stopWorkflow toISOString now oracle workflowId w))).
Proof.
  unfold stopWorkflow.
  destruct (workflowStates w !! workflowId) as [workflow|]; [|auto with paused].
  destruct (_ || _); [auto with paused|].
  match goal with
  | |- context [fold_left ?f ?l ?w0] =>
      pose proof (stopAll_keeps_paused now oracle l w0) as Hall;
      destruct (workflowStates (fold_left f l w0) !! workflowId); exact Hall
  end.
Qed.

End PausedPreservation.

Lemma keeps_paused_only_from_running m m' :
  keeps_paused m m' -> paused_only_from_running m m'.
Proof.
  intros H id info' Hget Hst.
  destruct (H id info' Hget Hst) as (info & Hg & Hs & Ht).
  exists info. repeat split; auto.
Qed.

(** What a successful [pauseProcess] found and did. *)
Lemma pauseProcess_true toISOString now killError processId w w' :
  pauseProcess toISOString now killError processId w = (true, w') ->
  exists processInfo pid,
    activeProcesses w !! processId = Some processInfo /\
    p_state processInfo = RUNNING /\
    pausable (p_type processInfo) = true /\
    truthy_pid (p_pid processInfo) = Some pid /\
    killError = None /\
    signals w' = signals w ++ [(pid, "SIGSTOP")] /\
    activeProcesses w'
    = <[processId := set_updateTime now (set_state PAUSED processInfo)]>
        (activeProcesses w).
Proof.
  unfold pauseProcess, pauseProcess_body.
  destruct (activeProcesses w !! processId) as [processInfo|]; [|discriminate].
  case_bool_decide as Hst; simpl; [|discriminate].
  destruct (pausable (p_type processInfo)) eqn:Hp; simpl; [|discriminate].
  destruct (truthy_pid (p_pid processInfo)) as [pid|] eqn:Hpid; [|discriminate].
  destruct killError; [discriminate|].
  intros [= <-]. exists processInfo, pid. by repeat split.
Qed.

(** What a successful [resumeProcess] found and did. *)
Lemma resumeProcess_true toISOString now killError processId w w' :
  resumeProcess toISOString now killError processId w = (true, w') ->
  exists processInfo pid,
    activeProcesses w !! processId = Some processInfo /\
    p_state processInfo = PAUSED /\
    truthy_pid (p_pid processInfo) = Some pid /\
    killError = None /\
    signals w' = signals w ++ [(pid, "SIGCONT")] /\
    activeProcesses w'
    = <[processId := set_updateTime now (set_state RUNNING processInfo)]>
        (activeProcesses w).
Proof.
  unfold resumeProcess, resumeProcess_body.
  destruct (activeProcesses w !! processId) as [processInfo|]; [|discriminate].
  case_bool_decide as Hst; simpl; [|discriminate].
  destruct (truthy_pid (p_pid processInfo)) as [pid|] eqn:Hpid; [|discriminate].
  destruct killError; [discriminate|].
  intros [= <-]. exists processInfo, pid. by repeat split.
Qed.

Lemma pauseProcess_false_unchanged toISOString now killError processId w :
  fst (pauseProcess toISOString now killError processId w) = false ->
  snd (pauseProcess toISOString now killError processId w) = w.
Proof.
  unfold pauseProcess, pauseProcess_body.
  destruct (activeProcesses w !! processId) as [processInfo|]; [|done].
  destruct (negb _); [done|]. destruct (negb _); [done|].
  destruct (truthy_pid _); [|done]. by destruct killError.
Qed.

Lemma pauseProcess_only_from_running toISOString now killError processId w :
  paused_only_from_running (activeProcesses w)
    (activeProcesses (snd (pauseProcess toISOString now killError processId w))).
Proof.
  destruct (pauseProcess toISOString now killError processId w) as [[] w'] eqn:Hp.
  - apply pauseProcess_true in Hp
      as (processInfo & pid & Hget & Hst & Hpa & _ & _ & _ & Hact).
    simpl. rewrite Hact. intros id info' Hl Hs.
    destruct (decide (processId = id)) as [->|Hne].
    + rewrite lookup_insert_eq in Hl. injection Hl as <-.
      exists processInfo. repeat split; auto.
    + rewrite lookup_insert_ne in Hl by done.
      exists info'. repeat split; auto.
  - pose proof (pauseProcess_false_unchanged toISOString now killError processId w) as Hu.
    rewrite Hp in Hu. simpl in *. rewrite Hu by done.
    apply keeps_paused_only_from_running, keeps_paused_refl.
Qed.

Section RunsInvariant.

Variable toISOString : Z -> string.
Variable maxConcurrentProcesses : option Z.
Variable _createIncidentResponseWorkflow : Params -> list Step.
Variable _createEvidenceCollectionWorkflow : Params -> list Step.
Variable _createMalwareInvestigationWorkflow : Params -> list Step.

Local Abbreviation step' :=
  (step toISOString maxConcurrentProcesses _createIncidentResponseWorkflow
     _createEvidenceCollectionWorkflow _createMalwareInvestigationWorkflow).
Local Abbreviation reachable' :=
  (reachable toISOString maxConcurrentProcesses _createIncidentResponseWorkflow
     _createEvidenceCollectionWorkflow _createMalwareInvestigationWorkflow).

(** Across any single step, a record becomes [PAUSED] only from
    [RUNNING], and only if its type is pausable. *)
Lemma step_paused_only_from_running w w' :
  step' w w' -> paused_only_from_running (activeProcesses w) (activeProcesses w').
Proof.
  destruct 1; try apply pauseProcess_only_from_running;
    apply keeps_paused_only_from_running.
  - apply startProcess_keeps_paused.
  - apply stopProcess_keeps_paused.
  - apply resumeProcess_keeps_paused.
  - apply updateProcessProgress_keeps_paused.
  - apply onStdout_keeps_paused.
  - apply keeps_paused_refl.
  - apply onExit_keeps_paused.
  - apply onError_keeps_paused.
  - apply keeps_paused_delete.
  - unfold createWorkflow.
    repeat (destruct (String.eqb _ _)); apply keeps_paused_refl.
  - unfold startWorkflow.
    destruct (workflowStates w !! workflowId) as [workflow|];
      [|apply keeps_paused_refl].
    destruct (negb _); [apply keeps_paused_refl|].
    match goal with
    | |- context [_executeWorkflowStep _ _ now rnd childPid workflowId ?w0] =>
        pose proof (executeWorkflowStep_keeps_paused toISOString maxConcurrentProcesses
                      now rnd childPid workflowId w0) as He;
        by destruct (_executeWorkflowStep _ _ now rnd childPid workflowId w0) as [[] ?]
    end.
  - apply stopWorkflow_keeps_paused.
  - unfold runImmediate.
    match goal with
    | |- context [_executeWorkflowStep _ _ now rnd childPid workflowId ?w0] =>
        apply (executeWorkflowStep_keeps_paused toISOString maxConcurrentProcesses
                 now rnd childPid workflowId w0)
    end.
  - rewrite pollProcessStep_activeProcesses. apply keeps_paused_refl.
  - rewrite settleStep_activeProcesses. apply keeps_paused_refl.
Qed.

Lemma step_paused_are_pausable w w' :
  step' w w' -> paused_are_pausable w -> paused_are_pausable w'.
Proof.
  intros Hstep Hinv id info' Hget Hst.
  destruct (step_paused_only_from_running w w' Hstep id info' Hget Hst)
    as (info & Hg & Hty & [Hp|[_ Hp]]).
  - rewrite <- Hty. by eapply Hinv.
  - by rewrite <- Hty.
Qed.

(** In every reachable world the [PAUSED] records have pausable types. *)
Lemma reachable_paused_are_pausable w :
  reachable' w -> paused_are_pausable w.
Proof.
  unfold reachable. revert w. apply rtc_ind_r.
  - intros id info Hget. simpl in Hget. by rewrite lookup_empty in Hget.
  - intros w1 w2 _ Hstep IH. by eapply step_paused_are_pausable.
Qed.

End RunsInvariant.

Lemma pausable_spec processType :
  pausable processType = true
  <-> processType = "disk-imaging" \/ processType = "network-capture"
      \/ processType = "log-analysis".
Proof.
  unfold pausable, pausableProcesses. simpl.
  destruct (String.eqb_spec processType "disk-imaging");
    destruct (String.eqb_spec processType "network-capture");
    destruct (String.eqb_spec processType "log-analysis"); simpl;
    split; intros; try done; tauto.
Qed.

Lemma pauseProcess_not_pausable toISOString now killError processId w processInfo :
  activeProcesses w !! processId = Some processInfo ->
  pausable (p_type processInfo) = false ->
  pauseProcess toISOString now killError processId w = (false, w).
Proof.
  intros Hget Hp. unfold pauseProcess, pauseProcess_body. rewrite Hget, Hp.
  by destruct (negb _).
Qed.

(** C6. In every reachable world: [pauseProcess] returns [false] and
    changes nothing unless the record is [RUNNING], [resumeProcess]
    returns [false] and changes nothing unless it is [PAUSED], and both do
    so for an unknown id or a type outside disk-imaging, network-capture
    and log-analysis. A call that returns [true] has sent [SIGSTOP]
    (respectively [SIGCONT]) to the worker's pid and left the record
    [PAUSED] (respectively [RUNNING]). Across any step of the system a
    record is [PAUSED] afterwards only if it was [PAUSED] already or was
    [RUNNING] with a pausable type. *)
Theorem C6_pause_resume_guards toISOString maxConcurrentProcesses
    _createIncidentResponseWorkflow _createEvidenceCollectionWorkflow
    _createMalwareInvestigationWorkflow w :
  reachable toISOString maxConcurrentProcesses _createIncidentResponseWorkflow
    _createEvidenceCollectionWorkflow _createMalwareInvestigationWorkflow w ->
  (forall processType,
      pausable processType = true
      <-> processType = "disk-imaging" \/ processType = "network-capture"
          \/ processType = "log-analysis") /\
  (forall now killError processId,
      (activeProcesses w !! processId = None ->
       pauseProcess toISOString now killError processId w = (false, w) /\
       resumeProcess toISOString now killError processId w = (false, w)) /\
      (forall processInfo,
          activeProcesses w !! processId = Some processInfo ->
          (p_state processInfo <> RUNNING ->
           pauseProcess toISOString now killError processId w = (false, w)) /\
          (p_state processInfo <> PAUSED ->
           resumeProcess toISOString now killError processId w = (false, w)) /\
          (pausable (p_type processInfo) = false ->
           pauseProcess toISOString now killError processId w = (false, w) /\
           resumeProcess toISOString now killError processId w = (false, w))) /\
      (forall w',
          pauseProcess toISOString now killError processId w = (true, w') ->
          exists processInfo pid,
            activeProcesses w !! processId = Some processInfo /\
            p_state processInfo = RUNNING /\
            pausable (p_type processInfo) = true /\
            truthy_pid (p_pid processInfo) = Some pid /\
            signals w' = signals w ++ [(pid, "SIGSTOP")] /\
            stateOf processId w' = Some PAUSED) /\
      (forall w',
          resumeProcess toISOString now killError processId w = (true, w') ->
          exists processInfo pid,
            activeProcesses w !! processId = Some processInfo /\
            p_state processInfo = PAUSED /\
            pausable (p_type processInfo) = true /\
            truthy_pid (p_pid processInfo) = Some pid /\
            signals w' = signals w ++ [(pid, "SIGCONT")] /\
            stateOf processId w' = Some RUNNING)) /\
  (forall w',
      step toISOString maxConcurrentProcesses _createIncidentResponseWorkflow
        _createEvidenceCollectionWorkflow _createMalwareInvestigationWorkflow w w' ->
      forall processId processInfo',
        activeProcesses w' !! processId = Some processInfo' ->
        p_state processInfo' = PAUSED ->
        pausable (p_type processInfo') = true /\
        exists processInfo,
          activeProcesses w !! processId = Some processInfo /\
          (p_state processInfo = PAUSED \/ p_state processInfo = RUNNING)).
Proof.
  intros Hreach.
  pose proof (reachable_paused_are_pausable _ _ _ _ _ w Hreach) as Hinv.
  split; [apply pausable_spec|]. split.
  - intros now killError processId. repeat split.
    + unfold pauseProcess, pauseProcess_body. by rewrite H.
    + unfold resumeProcess, resumeProcess_body. by rewrite H.
    + intros. by eapply pauseProcess_unchanged.
    + intros. by eapply resumeProcess_unchanged.
    + by eapply pauseProcess_not_pausable.
    + eapply resumeProcess_unchanged; [done|].
      intros Hp. pose proof (Hinv _ _ H Hp). congruence.
    + intros w' Hp.
      apply pauseProcess_true in Hp
        as (processInfo & pid & Hget & Hst & Hpa & Hpid & _ & Hsig & Hact).
      exists processInfo, pid. repeat split; auto.
      unfold stateOf. by rewrite Hact, lookup_insert_eq.
    + intros w' Hr.
      apply resumeProcess_true in Hr
        as (processInfo & pid & Hget & Hst & Hpid & _ & Hsig & Hact).
      exists processInfo, pid. repeat split; auto.
      * by eapply Hinv.
      * unfold stateOf. by rewrite Hact, lookup_insert_eq.
  - intros w' Hstep processId processInfo' Hget Hst.
    assert (Hinv' : paused_are_pausable w')
      by (by eapply step_paused_are_pausable).
    split; [by eapply Hinv'|].
    destruct (step_paused_only_from_running _ _ _ _ _ w w' Hstep processId processInfo'
                Hget Hst) as (processInfo & Hg & _ & [Hp|[Hr _]]);
      exists processInfo; auto.
Qed.

Lemma C6_pause_resume_guards_witness :
  let toISOString := fun _ : Z => "t" in
  let w := snd (startProcess toISOString None 10 "a" (Some 4242)
                  "memory-dump" [] initialWorld) in
  pauseProcess toISOString 20 None "memory-dump-10-a" w = (false, w).
Proof.
  intros toISOString w.
  assert (Hreach : reachable toISOString None (fun _ => []) (fun _ => []) (fun _ => []) w)
    by (apply rtc_once, step_startProcess).
  destruct (C6_pause_resume_guards toISOString None (fun _ => []) (fun _ => [])
              (fun _ => []) w Hreach) as (_ & Hops & _).
  destruct (Hops 20 None "memory-dump-10-a") as (_ & Hrec & _).
  destruct (Hrec {| p_type := "memory-dump"; p_parameters := []; p_state := RUNNING;
                    p_startTime := 10; p_updateTime := 10; p_progress := 0;
                    p_pid := Some 4242; p_endTime := None; p_error := None |}
              eq_refl) as (_ & _ & Hnp).
  exact (proj1 (Hnp eq_refl)).
Defined.

(** ** Step failures *)

Example scenario_before_second_exit :
  let w := scenarioSecondRunning (fun _ => "t") in
  (w_state <$> workflowStates w !! scenarioWorkflowId) = Some running /\
  (w_currentStep <$> workflowStates w !! scenarioWorkflowId) = Some 1 /\
  (w_processes <$> workflowStates w !! scenarioWorkflowId)
  = Some [scenarioFirstId; scenarioSecondId] /\
  stateOf scenarioFirstId w = Some COMPLETED /\
  stateOf scenarioSecondId w = Some RUNNING /\
  pollers w = [(scenarioWorkflowId, scenarioSecondId)].
Proof. vm_compute. repeat split. Qed.

Lemma logLines_signals toISOString now processId lines : forall w,
  signals (fold_left (fun w line => _logProcess toISOString now processId line w) lines w)
  = signals w.
Proof.
  induction lines as [|line lines IH]; intros w; simpl; [done|]. by rewrite IH.
Qed.

Lemma nothing_stopped_refl w : nothing_stopped w w.
Proof. by repeat split. Qed.

Lemma nothing_stopped_settleStep now workflowId outcome w0 w :
  nothing_stopped w0 w -> nothing_stopped w0 (settleStep now workflowId outcome w).
Proof.
  intros (Hs & Ht & Hr). unfold settleStep.
  destruct (workflowStates w !! workflowId); [|by repeat split].
  destruct outcome; by repeat split.
Qed.

(** [startProcess] stops nothing: the only records it writes are
    [INITIALIZING] or [RUNNING]. *)
Lemma startProcess_nothing_stopped toISOString maxConcurrentProcesses
    now rnd childPid processType parameters w :
  nothing_stopped w
    (snd (startProcess toISOString maxConcurrentProcesses now rnd childPid
            processType parameters w)).
Proof.
  unfold startProcess.
  destruct (_ >=? _); simpl; [apply nothing_stopped_refl|].
  generalize (processType +:+ "-" +:+ showZ now +:+ "-" +:+ rnd). intros processId.
  destruct (startLogLine processType); simpl.
  - rewrite lookup_insert_eq. simpl. repeat split.
    intros id info' Hget Hst. simpl in Hget.
    destruct (decide (processId = id)) as [->|Hne].
    + rewrite lookup_insert_eq in Hget. injection Hget as <-.
      destruct Hst as [Hst|[Hst|Hst]]; discriminate Hst.
    + by rewrite !lookup_insert_ne in Hget.
  - repeat split. intros id info' Hget Hst. simpl in Hget.
    destruct (decide (processId = id)) as [->|Hne].
    + rewrite lookup_insert_eq in Hget. injection Hget as <-.
      destruct Hst as [Hst|[Hst|Hst]]; discriminate Hst.
    + by rewrite lookup_insert_ne in Hget.
Qed.

Lemma startProcess_workflowStates toISOString maxConcurrentProcesses
    now rnd childPid processType parameters w :
  workflowStates (snd (startProcess toISOString maxConcurrentProcesses now rnd childPid
                         processType parameters w))
  = workflowStates w.
Proof.
  unfold startProcess. destruct (_ >=? _); simpl; [done|].
  destruct (startLogLine processType); simpl; [|done].
  by rewrite lookup_insert_eq.
Qed.

(** The [catch] block: what a rejected step leaves behind. *)
Lemma settleStep_rejected now workflowId message w workflow :
  workflowStates w !! workflowId = Some workflow ->
  workflowStates (settleStep now workflowId (Rejected message) w) !! workflowId
  = Some (wf_set_endTime now (wf_set_updateTime now
            (wf_set_error message (wf_set_state failed workflow)))).
Proof.
  intros Hget. unfold settleStep. rewrite Hget. simpl. by rewrite lookup_insert_eq.
Qed.

Lemma settleStep_resolved_state now workflowId w workflow workflow' :
  workflowStates w !! workflowId = Some workflow ->
  workflowStates (settleStep now workflowId Resolved w) !! workflowId = Some workflow' ->
  w_state workflow' = w_state workflow.
Proof.
  intros Hget. unfold settleStep. rewrite Hget. simpl. rewrite lookup_insert_eq.
  by intros [= <-].
Qed.

(** A poller tick that finds its process in [ERROR] fails the workflow
    with the process's error in the message. *)
Lemma pollProcessStep_process_error now workflowId processId w workflow processInfo :
  (workflowId, processId) ∈ pollers w ->
  activeProcesses w !! processId = Some processInfo ->
  p_state processInfo = ERROR ->
  workflowStates w !! workflowId = Some workflow ->
  workflowStates (pollProcessStep now workflowId processId w) !! workflowId
  = Some (wf_set_endTime now (wf_set_updateTime now
            (wf_set_error ("Process " +:+ processId +:+ " failed: " +:+
                           errorOrUnknown (p_error processInfo))
               (wf_set_state failed workflow)))).
Proof.
  intros Hin Hget Hst Hwf. unfold pollProcessStep.
  rewrite bool_decide_eq_true_2 by done.
  unfold pollOutcome, getProcessStatus. rewrite Hget. simpl. rewrite Hst.
  by apply settleStep_rejected.
Qed.

(** The exit handler on a registered process with a non-zero (or absent)
    exit code. *)
Lemma onExit_failure toISOString now processId code signal w processInfo :
  activeProcesses w !! processId = Some processInfo ->
  code <> Some 0 ->
  activeProcesses (onExit toISOString now processId code signal w) !! processId
  = Some (set_endTime now (set_updateTime now
            (set_error (exitErrorMessage code signal) (set_state ERROR processInfo)))) /\
  workflowStates (onExit toISOString now processId code signal w) = workflowStates w /\
  pollers (onExit toISOString now processId code signal w) = pollers w.
Proof.
  intros Hget Hcode. unfold onExit. rewrite Hget.
  rewrite bool_decide_eq_false_2 by done. simpl.
  by rewrite lookup_insert_eq.
Qed.

Lemma onExit_signals toISOString now processId code signal w :
  signals (onExit toISOString now processId code signal w) = signals w.
Proof.
  unfold onExit. destruct (activeProcesses w !! processId); [|done].
  by case_bool_decide.
Qed.

Lemma onExit_other toISOString now processId code signal w other :
  processId <> other ->
  activeProcesses (onExit toISOString now processId code signal w) !! other
  = activeProcesses w !! other.
Proof.
  intros Hne. unfold onExit. destruct (activeProcesses w !! processId); [|done].
  case_bool_decide; simpl; by rewrite lookup_insert_ne.
Qed.

Lemma errorOrUnknown_exitErrorMessage code signal :
  errorOrUnknown (Some (exitErrorMessage code signal)) = exitErrorMessage code signal.
Proof. reflexivity. Qed.

(** Splits the four-part conclusion of the failure lemmas, leaving only
    the part about stopped processes. *)
Ltac failure_parts :=
  split; [eexists; reflexivity|split; [reflexivity|split; [reflexivity|]]].

(** When [_executeWorkflowStep] turns a running workflow into a failed
    one, it went through the [catch] block: the error is on the record,
    the index and the process list are as before, nothing was stopped. *)
Lemma executeWorkflowStep_failure toISOString maxConcurrentProcesses
    now rnd childPid workflowId w workflow workflow' :
  workflowStates w !! workflowId = Some workflow ->
  w_state workflow = running ->
  workflowStates (snd (_executeWorkflowStep toISOString maxConcurrentProcesses
                         now rnd childPid workflowId w)) !! workflowId
  = Some workflow' ->
  w_state workflow' = failed ->
  (exists message, w_error workflow' = Some message) /\
  w_processes workflow' = w_processes workflow /\
  w_currentStep workflow' = w_currentStep workflow /\
  nothing_stopped w
    (snd (_executeWorkflowStep toISOString maxConcurrentProcesses
            now rnd childPid workflowId w)).
Proof.
  intros Hget Hrun. unfold _executeWorkflowStep. rewrite Hget, Hrun. simpl.
  destruct (_ >=? _); simpl.
  { rewrite lookup_insert_eq. intros [= <-]. discriminate. }
  destruct (stepAt _ _) as [[? processType parameters|? ? branches|? ?|? ?|? ?]|]; simpl.
  - pose proof (startProcess_nothing_stopped toISOString maxConcurrentProcesses
                  now rnd childPid processType parameters w) as Hns.
    pose proof (startProcess_workflowStates toISOString maxConcurrentProcesses
                  now rnd childPid processType parameters w) as Hws.
    destruct (startProcess _ _ _ _ _ _ _ _) as [[processId|e] w1]; simpl in *.
    + rewrite Hws, Hget. simpl. rewrite lookup_insert_eq.
      intros [= <-]. simpl. congruence.
    + rewrite (settleStep_rejected now workflowId e w1 workflow) by congruence.
      intros [= <-] _. simpl. failure_parts.
      by apply nothing_stopped_settleStep.
  - unfold _executeDecisionStep. rewrite Hget. destruct branches as [|branch others]; simpl.
    + rewrite (settleStep_rejected now workflowId _ w workflow) by done.
      intros [= <-] _. simpl. failure_parts.
      apply nothing_stopped_settleStep, nothing_stopped_refl.
    + intros Hl Hf. exfalso.
      eapply settleStep_resolved_state in Hl;
        [|simpl; apply lookup_insert_eq].
      rewrite Hf in Hl.
      destruct (String.eqb _ _); [|destruct (String.eqb _ _)]; simpl in Hl; congruence.
  - rewrite Hget. intros [= <-]. congruence.
  - rewrite Hget. intros [= <-]. congruence.
  - rewrite (settleStep_rejected now workflowId _ w workflow) by done.
    intros [= <-] _. simpl. failure_parts.
    apply nothing_stopped_settleStep, nothing_stopped_refl.
  - rewrite Hget. intros [= <-]. congruence.
Qed.

(** The same for a tick of the poller of a process step. *)
Lemma pollProcessStep_failure now workflowId processId w workflow workflow' :
  workflowStates w !! workflowId = Some workflow ->
  w_state workflow = running ->
  workflowStates (pollProcessStep now workflowId processId w) !! workflowId
  = Some workflow' ->
  w_state workflow' = failed ->
  (exists message, w_error workflow' = Some message) /\
  w_processes workflow' = w_processes workflow /\
  w_currentStep workflow' = w_currentStep workflow /\
  nothing_stopped w (pollProcessStep now workflowId processId w).
Proof.
  intros Hget Hrun. unfold pollProcessStep.
  case_bool_decide; [|rewrite Hget; intros [= <-]; congruence].
  destruct (pollOutcome _ _ _ _) as [[|message]|];
    [| |rewrite Hget; intros [= <-]; congruence].
  - intros Hl Hf. exfalso.
    eapply settleStep_resolved_state in Hl; [|exact Hget]. congruence.
  - rewrite (settleStep_rejected now workflowId message _ workflow) by done.
    intros [= <-] _. simpl. failure_parts.
    apply nothing_stopped_settleStep. by repeat split.
Qed.

(** A process step whose [startProcess] throws fails the workflow with
    the thrown message. *)
Lemma executeWorkflowStep_start_thrown toISOString maxConcurrentProcesses
    now rnd childPid workflowId w workflow name processType parameters e :
  workflowStates w !! workflowId = Some workflow ->
  w_state workflow = running ->
  stepAt (w_definition workflow) (w_currentStep workflow)
  = Some (ProcessStep name processType parameters) ->
  fst (startProcess toISOString maxConcurrentProcesses now rnd childPid
         processType parameters w) = Thrown e ->
  workflowStates (snd (_executeWorkflowStep toISOString maxConcurrentProcesses
                         now rnd childPid workflowId w)) !! workflowId
  = Some (wf_set_endTime now (wf_set_updateTime now
            (wf_set_error e (wf_set_state failed workflow)))).
Proof.
  intros Hget Hrun Hstep Hthrown.
  pose proof (stepAt_Some_range _ _ _ Hstep) as Hrange.
  unfold _executeWorkflowStep. rewrite Hget, Hrun. simpl.
  destruct (Z.geb_spec (w_currentStep workflow) (Z.of_nat (length (w_definition workflow))));
    [lia|].
  rewrite Hstep.
  pose proof (startProcess_workflowStates toISOString maxConcurrentProcesses
                now rnd childPid processType parameters w) as Hws.
  destruct (startProcess _ _ _ _ _ _ _ _) as [[processId|e'] w1]; simpl in *;
    [discriminate|].
  injection Hthrown as ->.
  apply settleStep_rejected. congruence.
Qed.

(** C7. A rejected step leaves the workflow [failed] with the rejection's
    message in [error], its index and its process list unchanged, and
    stops nothing: no signal sent, no removal scheduled, no process record
    moved to [STOPPING] or to a terminal state. Whenever running a step or
    a poller tick turns a running workflow into a failed one, this is what
    happened; and a process step whose start is refused, or whose process
    the poller finds in [ERROR], does fail the workflow with that error.
    In the two-process scenario (first worker exits 0, second
    exits with a code other than 0) the workflow ends [failed] with index
    1 and two process ids, with the second worker's exit in its error;
    the first process is still [COMPLETED], the second [ERROR] by its own
    exit, and no signal was sent. *)
Theorem C7_step_failure_fails_workflow toISOString maxConcurrentProcesses
    (code : option Z) (signal : option string) :
  code <> Some 0 ->
  (forall now workflowId message w workflow,
      workflowStates w !! workflowId = Some workflow ->
      exists workflow',
        workflowStates (settleStep now workflowId (Rejected message) w) !! workflowId
        = Some workflow' /\
        w_state workflow' = failed /\
        w_error workflow' = Some message /\
        w_processes workflow' = w_processes workflow /\
        w_currentStep workflow' = w_currentStep workflow /\
        nothing_stopped w (settleStep now workflowId (Rejected message) w)) /\
  (forall now rnd childPid workflowId w workflow workflow',
      workflowStates w !! workflowId = Some workflow ->
      w_state workflow = running ->
      workflowStates (snd (_executeWorkflowStep toISOString maxConcurrentProcesses
                             now rnd childPid workflowId w)) !! workflowId
      = Some workflow' ->
      w_state workflow' = failed ->
      (exists message, w_error workflow' = Some message) /\
      w_processes workflow' = w_processes workflow /\
      w_currentStep workflow' = w_currentStep workflow /\
      nothing_stopped w
        (snd (_executeWorkflowStep toISOString maxConcurrentProcesses
                now rnd childPid workflowId w))) /\
  (forall now workflowId processId w workflow workflow',
      workflowStates w !! workflowId = Some workflow ->
      w_state workflow = running ->
      workflowStates (pollProcessStep now workflowId processId w) !! workflowId
      = Some workflow' ->
      w_state workflow' = failed ->
      (exists message, w_error workflow' = Some message) /\
      w_processes workflow' = w_processes workflow /\
      w_currentStep workflow' = w_currentStep workflow /\
      nothing_stopped w (pollProcessStep now workflowId processId w)) /\
  (forall now rnd childPid workflowId w workflow name processType parameters e,
      workflowStates w !! workflowId = Some workflow ->
      w_state workflow = running ->
      stepAt (w_definition workflow) (w_currentStep workflow)
      = Some (ProcessStep name processType parameters) ->
      fst (startProcess toISOString maxConcurrentProcesses now rnd childPid
             processType parameters w) = Thrown e ->
      exists workflow',
        workflowStates (snd (_executeWorkflowStep toISOString maxConcurrentProcesses
                               now rnd childPid workflowId w)) !! workflowId
        = Some workflow' /\
        w_state workflow' = failed /\ w_error workflow' = Some e) /\
  (forall now workflowId processId w workflow processInfo,
      (workflowId, processId) ∈ pollers w ->
      activeProcesses w !! processId = Some processInfo ->
      p_state processInfo = ERROR ->
      workflowStates w !! workflowId = Some workflow ->
      exists workflow',
        workflowStates (pollProcessStep now workflowId processId w) !! workflowId
        = Some workflow' /\
        w_state workflow' = failed /\
        w_error workflow'
        = Some ("Process " +:+ processId +:+ " failed: " +:+
                errorOrUnknown (p_error processInfo))) /\
  (exists workflow',
      workflowStates (scenarioEnd toISOString code signal) !! scenarioWorkflowId
      = Some workflow' /\
      w_state workflow' = failed /\
      w_currentStep workflow' = 1 /\
      length (w_processes workflow') = 2%nat /\
      w_error workflow'
      = Some ("Process malware-scan-5000-b failed: Process exited with code " +:+
              showNumber code "null" +:+ " (signal: " +:+ showString signal "null" +:+ ")") /\
      stateOf scenarioFirstId (scenarioEnd toISOString code signal) = Some COMPLETED /\
      stateOf scenarioSecondId (scenarioEnd toISOString code signal) = Some ERROR /\
      signals (scenarioEnd toISOString code signal) = []).
Proof.
  intros Hcode. split; [|split; [|split; [|split; [|split]]]].
  - intros now workflowId message w workflow Hget.
    eexists. split; [by apply settleStep_rejected|]. simpl.
    do 4 (split; [reflexivity|]).
    apply nothing_stopped_settleStep, nothing_stopped_refl.
  - apply executeWorkflowStep_failure.
  - apply pollProcessStep_failure.
  - intros now rnd childPid workflowId w workflow name processType parameters e
      Hget Hrun Hstep Hthrown.
    eexists. split; [by eapply executeWorkflowStep_start_thrown|]. by split.
  - intros now workflowId processId w workflow processInfo Hin Hget Hst Hwf.
    eexists. split; [by eapply pollProcessStep_process_error|]. by split.
  - unfold scenarioEnd.
    set (wA := scenarioSecondRunning toISOString).
    assert (HgetA : activeProcesses wA !! scenarioSecondId
                    = Some {| p_type := "malware-scan"; p_parameters := [];
                              p_state := RUNNING; p_startTime := 5000;
                              p_updateTime := 5000; p_progress := 0;
                              p_pid := Some 4243; p_endTime := None;
                              p_error := None |})
      by (vm_compute; reflexivity).
    assert (HwfA : workflowStates wA !! scenarioWorkflowId
                   = Some {| w_id := scenarioWorkflowId; w_type := "evidence-collection";
                             w_parameters := [];
                             w_definition := scenarioTemplate [];
                             w_currentStep := 1; w_state := running;
                             w_processes := [scenarioFirstId; scenarioSecondId];
                             w_startTime := 1000; w_updateTime := 4000;
                             w_endTime := None; w_error := None |})
      by (vm_compute; reflexivity).
    assert (HpollA : pollers wA = [(scenarioWorkflowId, scenarioSecondId)])
      by (vm_compute; reflexivity).
    assert (HfirstA : stateOf scenarioFirstId wA = Some COMPLETED)
      by (vm_compute; reflexivity).
    assert (HsigA : signals wA = []) by (vm_compute; reflexivity).
    clearbody wA.
    destruct (onExit_failure toISOString 6000 scenarioSecondId code signal wA _ HgetA Hcode)
      as (HgetB & HwfB & HpollB).
    assert (HfirstB : stateOf scenarioFirstId
                        (onExit toISOString 6000 scenarioSecondId code signal wA)
                      = Some COMPLETED).
    { unfold stateOf. rewrite onExit_other by (vm_compute; discriminate). exact HfirstA. }
    pose proof (onExit_signals toISOString 6000 scenarioSecondId code signal wA) as HsigB.
    rewrite HsigA in HsigB. rewrite HpollA in HpollB.
    generalize dependent (onExit toISOString 6000 scenarioSecondId code signal wA).
    intros wB HgetB HwfB HpollB HfirstB HsigB.
    assert (Hin : (scenarioWorkflowId, scenarioSecondId) ∈ pollers wB)
      by (rewrite HpollB; apply list_elem_of_here).
    assert (HwfB' : workflowStates wB !! scenarioWorkflowId
                    = Some {| w_id := scenarioWorkflowId; w_type := "evidence-collection";
                              w_parameters := [];
                              w_definition := scenarioTemplate [];
                              w_currentStep := 1; w_state := running;
                              w_processes := [scenarioFirstId; scenarioSecondId];
                              w_startTime := 1000; w_updateTime := 4000;
                              w_endTime := None; w_error := None |})
      by (rewrite HwfB; exact HwfA).
    pose proof (pollProcessStep_process_error 7000 scenarioWorkflowId scenarioSecondId
                  wB _ _ Hin HgetB eq_refl HwfB') as Hend.
    destruct (pollProcessStep_failure 7000 scenarioWorkflowId scenarioSecondId wB
                _ _ HwfB' eq_refl Hend eq_refl) as (_ & _ & _ & Hsig & _).
    eexists. split; [exact Hend|].
    split; [reflexivity|]. split; [reflexivity|]. split; [reflexivity|].
    split; [reflexivity|].
    unfold stateOf. rewrite !pollProcessStep_activeProcesses, HgetB, Hsig.
    split; [exact HfirstB|]. split; [reflexivity|exact HsigB].
Qed.

Lemma C7_step_failure_fails_workflow_witness :
  exists workflow',
    workflowStates (scenarioEnd (fun _ => "t") (Some 2) None) !! scenarioWorkflowId
    = Some workflow' /\
    w_state workflow' = failed /\
    w_currentStep workflow' = 1 /\
    length (w_processes workflow') = 2%nat.
Proof.
  destruct (C7_step_failure_fails_workflow (fun _ => "t") None (Some 2) None
              ltac:(discriminate))
    as (_ & _ & _ & _ & _ & workflow' & Hget & Hst & Hidx & Hlen & _).
  exists workflow'. repeat split; assumption.
Defined.

(** ** The log buffers along a run *)

Lemma logs_bounded_logsOf w processId :
  logs_bounded w -> (length (logsOf processId w) <= 1000)%nat.
Proof.
  intros Hb. unfold logsOf.
  destruct (processLogs w !! processId) as [logs|] eqn:Hget; simpl; [|lia].
  by eapply Hb.
Qed.

Lemma logs_bounded_logProcess toISOString now processId message w :
  logs_bounded w -> logs_bounded (_logProcess toISOString now processId message w).
Proof.
  intros Hb id logs Hget.
  destruct (decide (processId = id)) as [->|Hne].
  - pose proof (logsOf_logProcess toISOString now id message w) as Hl.
    unfold logsOf in Hl at 1. rewrite Hget in Hl. simpl in Hl. rewrite Hl.
    by apply pushCapped_length, logs_bounded_logsOf.
  - unfold _logProcess in Hget. simpl in Hget.
    rewrite lookup_insert_ne in Hget by done. by eapply Hb.
Qed.

Lemma logs_bounded_eq w w' :
  processLogs w' = processLogs w -> logs_bounded w -> logs_bounded w'.
Proof. intros He Hb id logs. rewrite He. apply Hb. Qed.

Lemma logs_bounded_reset processId w :
  logs_bounded w -> logs_bounded (with_processLogs (<[processId := []]> (processLogs w)) w).
Proof.
  intros Hb id logs. simpl.
  destruct (decide (processId = id)) as [->|Hne].
  - rewrite lookup_insert_eq. intros [= <-]. simpl. lia.
  - rewrite lookup_insert_ne by done. apply Hb.
Qed.

Lemma logs_bounded_logLines toISOString now processId lines : forall w,
  logs_bounded w ->
  logs_bounded
    (fold_left (fun w line => _logProcess toISOString now processId line w) lines w).
Proof.
  induction lines as [|line lines IH]; intros w Hb; simpl; [done|].
  by apply IH, logs_bounded_logProcess.
Qed.

(** Peels the log writes and the other field updates off a goal
    [logs_bounded _]. *)
Ltac bounded :=
  repeat first
    [ assumption
    | apply logs_bounded_logProcess
    | apply logs_bounded_logLines
    | apply logs_bounded_reset
    | match goal with
      | |- logs_bounded (putProcess _ _ ?w) => apply (logs_bounded_eq w); [reflexivity|]
      | |- logs_bounded (putWorkflow _ _ ?w) => apply (logs_bounded_eq w); [reflexivity|]
      | |- logs_bounded (with_signals _ ?w) => apply (logs_bounded_eq w); [reflexivity|]
      | |- logs_bounded (with_timers _ ?w) => apply (logs_bounded_eq w); [reflexivity|]
      | |- logs_bounded (with_pollers _ ?w) => apply (logs_bounded_eq w); [reflexivity|]
      | |- logs_bounded (with_immediates _ ?w) => apply (logs_bounded_eq w); [reflexivity|]
      | |- logs_bounded (with_activeProcesses _ ?w) =>
          apply (logs_bounded_eq w); [reflexivity|]
      | |- logs_bounded (with_workflowStates _ ?w) =>
          apply (logs_bounded_eq w); [reflexivity|]
      end ].

Section LogsPreservation.

Variable toISOString : Z -> string.
Variable maxConcurrentProcesses : option Z.

Lemma startProcess_logs_bounded now rnd childPid processType parameters w :
  logs_bounded w ->
  logs_bounded (snd (startProcess toISOString maxConcurrentProcesses now rnd childPid
                       processType parameters w)).
Proof.
  intros Hb. unfold startProcess.
  destruct (_ >=? _); [done|].
  destruct (startLogLine processType); cbn [snd].
  - match goal with |- context [activeProcesses ?w0 !! ?k] =>
      destruct (activeProcesses w0 !! k) end; cbn [snd]; bounded.
  - bounded.
Qed.

Lemma cleanupProcess_logs_bounded now fault processId processType w :
  logs_bounded w ->
  logs_bounded (snd (_cleanupProcess toISOString now fault processId processType w)).
Proof.
  intros Hb. unfold _cleanupProcess. destruct fault; cbn [snd]; bounded.
Qed.

Lemma stopProcess_logs_bounded now killError cleanupFault processId w :
  logs_bounded w ->
  logs_bounded (snd (stopProcess toISOString now killError cleanupFault processId w)).
Proof.
  intros Hb. unfold stopProcess.
  destruct (activeProcesses w !! processId) as [processInfo|]; [|done].
  match goal with
  | |- context [_cleanupProcess toISOString now cleanupFault processId ?ty ?w0] =>
      assert (Hc : logs_bounded
                     (snd (_cleanupProcess toISOString now cleanupFault processId ty w0)));
      [apply cleanupProcess_logs_bounded|
       destruct (_cleanupProcess toISOString now cleanupFault processId ty w0)
         as [[[]|message] w1]]
  end.
  - destruct (truthy_pid _); [destruct killError|]; bounded.
  - cbn [snd] in *. bounded.
  - cbn [snd] in *. destruct (activeProcesses w1 !! processId); cbn [snd]; bounded.
Qed.

Lemma pauseProcess_logs_bounded now killError processId w :
  logs_bounded w ->
  logs_bounded (snd (pauseProcess toISOString now killError processId w)).
Proof.
  intros Hb. unfold pauseProcess, pauseProcess_body.
  destruct (activeProcesses w !! processId); [|done].
  destruct (negb _); [done|]. destruct (negb _); [done|].
  destruct (truthy_pid _); [|done]. destruct killError; [done|].
  cbn [snd]. bounded.
Qed.

Lemma resumeProcess_logs_bounded now killError processId w :
  logs_bounded w ->
  logs_bounded (snd (resumeProcess toISOString now killError processId w)).
Proof.
  intros Hb. unfold resumeProcess, resumeProcess_body.
  destruct (activeProcesses w !! processId); [|done].
  destruct (negb _); [done|].
  destruct (truthy_pid _); [|done]. destruct killError; [done|].
  cbn [snd]. bounded.
Qed.

Lemma updateProcessProgress_logs_bounded now processId progress w :
  logs_bounded w ->
  logs_bounded (updateProcessProgress toISOString now processId progress w).
Proof.
  intros Hb. unfold updateProcessProgress.
  destruct (activeProcesses w !! processId); [|done].
  destruct (_ =? _); bounded.
Qed.

Lemma onExit_logs_bounded now processId code signal w :
  logs_bounded w -> logs_bounded (onExit toISOString now processId code signal w).
Proof.
  intros Hb. unfold onExit.
  destruct (activeProcesses w !! processId); [|done].
  case_bool_decide; bounded.
Qed.

Lemma onError_logs_bounded now processId message w :
  logs_bounded w -> logs_bounded (onError toISOString now processId message w).
Proof.
  intros Hb. unfold onError.
  destruct (activeProcesses w !! processId); bounded.
Qed.

Lemma settleStep_logs_bounded now workflowId outcome w :
  logs_bounded w -> logs_bounded (settleStep now workflowId outcome w).
Proof.
  intros Hb. unfold settleStep.
  destruct (workflowStates w !! workflowId); [|done].
  destruct outcome; bounded.
Qed.

Lemma executeWorkflowStep_logs_bounded now rnd childPid workflowId w :
  logs_bounded w ->
  logs_bounded (snd (_executeWorkflowStep toISOString maxConcurrentProcesses
                       now rnd childPid workflowId w)).
Proof.
  intros Hb. unfold _executeWorkflowStep.
  destruct (workflowStates w !! workflowId) as [workflow|] eqn:Hget; [|done].
  destruct (negb _); [done|].
  destruct (_ >=? _); [cbn [snd]; bounded|].
  destruct (stepAt _ _) as [[? processType parameters|? ? branches|? ?|? ?|? ?]|];
    cbn [snd]; try done.
  - pose proof (startProcess_logs_bounded now rnd childPid processType parameters w Hb)
      as Hs.
    destruct (startProcess _ _ _ _ _ _ _ _) as [[processId|e] w1]; cbn [snd] in *.
    + destruct (workflowStates w1 !! workflowId); bounded.
    + by apply settleStep_logs_bounded.
  - unfold _executeDecisionStep. rewrite Hget.
    destruct branches; cbn [snd]; apply settleStep_logs_bounded; bounded.
  - by apply settleStep_logs_bounded.
Qed.

Lemma stopAll_logs_bounded now oracle processIds : forall w,
  logs_bounded w ->
  logs_bounded
    (fold_left
       (fun w processId =>
          snd (stopProcess toISOString now (fst (oracle processId))
                 (snd (oracle processId)) processId w))
       processIds w).
Proof.
  induction processIds as [|processId processIds IH]; intros w Hb; simpl; [done|].
  by apply IH, stopProcess_logs_bounded.
Qed.

Lemma stopWorkflow_logs_bounded now oracle workflowId w :
  logs_bounded w ->
  logs_bounded (snd (stopWorkflow toISOString now oracle workflowId w)).
Proof.
  intros Hb. unfold stopWorkflow.
  destruct (workflowStates w !! workflowId) as [workflow|]; [|done].
  destruct (_ || _); [done|].
  match goal with
  | |- context [fold_left ?f ?l ?w0] =>
      assert (Hall : logs_bounded (fold_left f l w0))
        by (apply stopAll_logs_bounded; bounded);
      destruct (workflowStates (fold_left f l w0) !! workflowId); cbn [snd]; bounded
  end.
Qed.

Variable _createIncidentResponseWorkflow : Params -> list Step.
Variable _createEvidenceCollectionWorkflow : Params -> list Step.
Variable _createMalwareInvestigationWorkflow : Params -> list Step.

Lemma step_logs_bounded w w' :
  step toISOString maxConcurrentProcesses _createIncidentResponseWorkflow
    _createEvidenceCollectionWorkflow _createMalwareInvestigationWorkflow w w' ->
  logs_bounded w -> logs_bounded w'.
Proof.
  destruct 1; intros Hb.
  - by apply startProcess_logs_bounded.
  - by apply stopProcess_logs_bounded.
  - by apply pauseProcess_logs_bounded.
  - by apply resumeProcess_logs_bounded.
  - by apply updateProcessProgress_logs_bounded.
  - unfold onStdout. destruct progressMatch;
      [apply updateProcessProgress_logs_bounded|]; bounded.
  - unfold onStderr. bounded.
  - by apply onExit_logs_bounded.
  - by apply onError_logs_bounded.
  - unfold fireTimer. bounded.
  - unfold createWorkflow. repeat (destruct (String.eqb _ _)); cbn [snd]; bounded.
  - unfold startWorkflow.
    destruct (workflowStates w !! workflowId) as [workflow|]; [|done].
    destruct (negb _); [done|].
    match goal with
    | |- context [_executeWorkflowStep _ _ now rnd childPid workflowId ?w0] =>
        assert (He : logs_bounded
                       (snd (_executeWorkflowStep toISOString maxConcurrentProcesses
                               now rnd childPid workflowId w0)))
          by (apply executeWorkflowStep_logs_bounded; bounded);
        by destruct (_executeWorkflowStep _ _ now rnd childPid workflowId w0) as [[] ?]
    end.
  - by apply stopWorkflow_logs_bounded.
  - unfold runImmediate. apply executeWorkflowStep_logs_bounded. bounded.
  - unfold pollProcessStep. case_bool_decide; [|done].
    destruct (pollOutcome _ _ _ _); [|done].
    apply settleStep_logs_bounded. unfold clearInterval. bounded.
  - by apply settleStep_logs_bounded.
Qed.

(** In every reachable world every log buffer holds at most 1000 entries. *)
Lemma reachable_logs_bounded w :
  reachable toISOString maxConcurrentProcesses _createIncidentResponseWorkflow
    _createEvidenceCollectionWorkflow _createMalwareInvestigationWorkflow w ->
  logs_bounded w.
Proof.
  unfold reachable. revert w. apply rtc_ind_r.
  - intros id logs Hget. simpl in Hget. by rewrite lookup_empty in Hget.
  - intros w1 w2 _ Hstep IH. by eapply step_logs_bounded.
Qed.

End LogsPreservation.

(** C9. In every reachable world a log buffer holds at most 1000 entries.
    A further append keeps it so: when the buffer is full exactly its
    oldest entry is dropped and the new one goes to the end, otherwise the
    new entry is simply added at the end. After any 1500 appends the
    buffer holds exactly the last 1000 appended entries, in the order in
    which they were appended. *)
Theorem C9_log_buffer_fifo toISOString maxConcurrentProcesses
    _createIncidentResponseWorkflow _createEvidenceCollectionWorkflow
    _createMalwareInvestigationWorkflow w processId :
  reachable toISOString maxConcurrentProcesses _createIncidentResponseWorkflow
    _createEvidenceCollectionWorkflow _createMalwareInvestigationWorkflow w ->
  (length (logsOf processId w) <= 1000)%nat /\
  (forall now message,
      let w' := _logProcess toISOString now processId message w in
      (length (logsOf processId w') <= 1000)%nat /\
      (length (logsOf processId w) = 1000%nat ->
       logsOf processId w'
       = tail (logsOf processId w) ++ [logEntry toISOString (now, message)]) /\
      ((length (logsOf processId w) < 1000)%nat ->
       logsOf processId w'
       = logsOf processId w ++ [logEntry toISOString (now, message)])) /\
  (forall appends,
      length appends = 1500%nat ->
      logsOf processId (logAll toISOString processId appends w)
      = map (logEntry toISOString) (drop 500 appends)).
Proof.
  intros Hreach.
  assert (Hlen : (length (logsOf processId w) <= 1000)%nat)
    by (eapply logs_bounded_logsOf, reachable_logs_bounded, Hreach).
  split; [exact Hlen|]. by apply log_buffer_fifo.
Qed.

Lemma C9_log_buffer_fifo_witness :
  logsOf "p" (logAll (fun _ => "t") "p" (replicate 1500 (0, "m")) initialWorld)
  = map (logEntry (fun _ => "t")) (drop 500 (replicate 1500 (0, "m"))).
Proof.
  apply (C9_log_buffer_fifo (fun _ => "t") None (fun _ => []) (fun _ => []) (fun _ => [])
           initialWorld "p"); [apply rtc_refl | reflexivity].
Defined.

(** ** The registry and the cap *)

Lemma no_new_records_refl m : no_new_records m m.
Proof. unfold no_new_records. done. Qed.

Lemma no_new_records_trans m1 m2 m3 :
  no_new_records m1 m2 -> no_new_records m2 m3 -> no_new_records m1 m3.
Proof. unfold no_new_records. set_solver. Qed.

Lemma no_new_records_update m id info0 info :
  m !! id = Some info0 -> no_new_records m (<[id := info]> m).
Proof.
  intros Hget. unfold no_new_records. rewrite dom_insert_L.
  apply elem_of_dom_2 in Hget. apply union_subseteq. split; [|done].
  by apply singleton_subseteq_l.
Qed.

Lemma no_new_records_delete m id : no_new_records m (delete id m).
Proof. unfold no_new_records. rewrite dom_delete_L. apply subseteq_difference_l. done. Qed.

Lemma no_new_records_size m m' :
  no_new_records m m' -> (size m' <= size m)%nat.
Proof.
  intros H. rewrite <- !(size_dom (D := gset string)). by apply subseteq_size.
Qed.

Lemma no_new_records_within_cap maxConcurrentProcesses w w' :
  no_new_records (activeProcesses w) (activeProcesses w') ->
  within_cap maxConcurrentProcesses w -> within_cap maxConcurrentProcesses w'.
Proof.
  unfold within_cap. intros Hn Hc. apply no_new_records_size in Hn. lia.
Qed.

Section CapPreservation.

Variable toISOString : Z -> string.
Variable maxConcurrentProcesses : option Z.

(** [startProcess] adds at most one record, and only below the cap. *)
Lemma startProcess_within_cap now rnd childPid processType parameters w :
  within_cap maxConcurrentProcesses w ->
  within_cap maxConcurrentProcesses
    (snd (startProcess toISOString maxConcurrentProcesses now rnd childPid
            processType parameters w)).
Proof.
  unfold within_cap, startProcess. intros Hc.
  destruct (Z.geb_spec (Z.of_nat (size (activeProcesses w)))
              (maxConcurrent maxConcurrentProcesses)) as [Hge|Hlt]; [done|].
  generalize (processType +:+ "-" +:+ showZ now +:+ "-" +:+ rnd). intros processId.
  assert (Hsz : forall info,
             Z.of_nat (size (<[processId := info]> (activeProcesses w)))
             <= Z.max 0 (maxConcurrent maxConcurrentProcesses)).
  { intros info. rewrite map_size_insert.
    destruct (activeProcesses w !! processId); unfold id; lia. }
  destruct (startLogLine processType); simpl.
  - rewrite lookup_insert_eq. simpl. rewrite insert_insert_eq. apply Hsz.
  - apply Hsz.
Qed.

Lemma stopProcess_no_new_records now killError cleanupFault processId w :
  no_new_records (activeProcesses w)
    (activeProcesses (snd (stopProcess toISOString now killError cleanupFault processId w))).
Proof.
  unfold stopProcess.
  destruct (activeProcesses w !! processId) as [processInfo|] eqn:Hget; simpl;
    [|apply no_new_records_refl].
  match goal with
  | |- context [_cleanupProcess toISOString now cleanupFault processId ?ty ?w0] =>
      pose proof (cleanupProcess_activeProcesses toISOString now cleanupFault processId ty w0)
        as Hact;
      destruct (_cleanupProcess toISOString now cleanupFault processId ty w0)
        as [res w1] eqn:Hclean
  end.
  simpl in Hact.
  assert (Hw1 : activeProcesses w1
                = <[processId := set_updateTime now (set_state STOPPING processInfo)]>
                    (activeProcesses w)).
  { rewrite Hact. by destruct (truthy_pid _) as [pid|]; [destruct killError|]. }
  assert (H01 : no_new_records (activeProcesses w) (activeProcesses w1))
    by (rewrite Hw1; by eapply no_new_records_update).
  assert (Hl : activeProcesses w1 !! processId
               = Some (set_updateTime now (set_state STOPPING processInfo)))
    by (by rewrite Hw1, lookup_insert_eq).
  destruct res as [[]|message]; simpl.
  - eapply no_new_records_trans; [exact H01|]. by eapply no_new_records_update.
  - rewrite Hl. simpl.
    eapply no_new_records_trans; [exact H01|]. by eapply no_new_records_update.
Qed.

Lemma pauseProcess_no_new_records now killError processId w :
  no_new_records (activeProcesses w)
    (activeProcesses (snd (pauseProcess toISOString now killError processId w))).
Proof.
  unfold pauseProcess, pauseProcess_body.
  destruct (activeProcesses w !! processId) as [processInfo|] eqn:Hget; simpl;
    [|apply no_new_records_refl].
  destruct (negb _); simpl; [apply no_new_records_refl|].
  destruct (negb _); simpl; [apply no_new_records_refl|].
  destruct (truthy_pid _) as [pid|]; simpl; [|apply no_new_records_refl].
  destruct killError; simpl; [apply no_new_records_refl|].
  by eapply no_new_records_update.
Qed.

Lemma resumeProcess_no_new_records now killError processId w :
  no_new_records (activeProcesses w)
    (activeProcesses (snd (resumeProcess toISOString now killError processId w))).
Proof.
  unfold resumeProcess, resumeProcess_body.
  destruct (activeProcesses w !! processId) as [processInfo|] eqn:Hget; simpl;
    [|apply no_new_records_refl].
  destruct (negb _); simpl; [apply no_new_records_refl|].
  destruct (truthy_pid _) as [pid|]; simpl; [|apply no_new_records_refl].
  destruct killError; simpl; [apply no_new_records_refl|].
  by eapply no_new_records_update.
Qed.

Lemma updateProcessProgress_no_new_records now processId progress w :
  no_new_records (activeProcesses w)
    (activeProcesses (updateProcessProgress toISOString now processId progress w)).
Proof.
  unfold updateProcessProgress.
  destruct (activeProcesses w !! processId) as [processInfo|] eqn:Hget;
    [|apply no_new_records_refl].
  destruct (_ =? _); simpl; by eapply no_new_records_update.
Qed.

Lemma onExit_no_new_records now processId code signal w :
  no_new_records (activeProcesses w)
    (activeProcesses (onExit toISOString now processId code signal w)).
Proof.
  unfold onExit.
  destruct (activeProcesses w !! processId) as [processInfo|] eqn:Hget;
    [|apply no_new_records_refl].
  case_bool_decide; simpl; by eapply no_new_records_update.
Qed.

Lemma onError_no_new_records now processId message w :
  no_new_records (activeProcesses w)
    (activeProcesses (onError toISOString now processId message w)).
Proof.
  unfold onError. simpl.
  destruct (activeProcesses w !! processId) as [processInfo|] eqn:Hget;
    [|apply no_new_records_refl].
  by eapply no_new_records_update.
Qed.

Lemma executeWorkflowStep_within_cap now rnd childPid workflowId w :
  within_cap maxConcurrentProcesses w ->
  within_cap maxConcurrentProcesses
    (snd (_executeWorkflowStep toISOString maxConcurrentProcesses
            now rnd childPid workflowId w)).
Proof.
  intros Hc. unfold _executeWorkflowStep.
  destruct (workflowStates w !! workflowId) as [workflow|] eqn:Hget; [|done].
  destruct (negb _); [done|].
  destruct (_ >=? _); [done|].
  destruct (stepAt _ _) as [[? processType parameters|? ? branches|? ?|? ?|? ?]|];
    cbn [snd]; try done.
  - pose proof (startProcess_within_cap now rnd childPid processType parameters w Hc)
      as Hs.
    destruct (startProcess _ _ _ _ _ _ _ _) as [[processId|e] w1]; cbn [snd] in *.
    + by destruct (workflowStates w1 !! workflowId).
    + unfold within_cap. by rewrite settleStep_activeProcesses.
  - unfold _executeDecisionStep. rewrite Hget.
    destruct branches; cbn [snd]; unfold within_cap;
      by rewrite settleStep_activeProcesses.
  - unfold within_cap. by rewrite settleStep_activeProcesses.
Qed.

Lemma stopAll_no_new_records now oracle processIds : forall w,
  no_new_records (activeProcesses w)
    (activeProcesses
       (fold_left
          (fun w processId =>
             snd (stopProcess toISOString now (fst (oracle processId))
                    (snd (oracle processId)) processId w))
          processIds w)).
Proof.
  induction processIds as [|processId processIds IH]; intros w; simpl;
    [apply no_new_records_refl|].
  eapply no_new_records_trans; [|apply IH]. apply stopProcess_no_new_records.
Qed.

Variable _createIncidentResponseWorkflow : Params -> list Step.
Variable _createEvidenceCollectionWorkflow : Params -> list Step.
Variable _createMalwareInvestigationWorkflow : Params -> list Step.

Lemma step_within_cap w w' :
  step toISOString maxConcurrentProcesses _createIncidentResponseWorkflow
    _createEvidenceCollectionWorkflow _createMalwareInvestigationWorkflow w w' ->
  within_cap maxConcurrentProcesses w -> within_cap maxConcurrentProcesses w'.
Proof.
  destruct 1; intros Hc.
  - by apply startProcess_within_cap.
  - eapply no_new_records_within_cap; [apply stopProcess_no_new_records|done].
  - eapply no_new_records_within_cap; [apply pauseProcess_no_new_records|done].
  - eapply no_new_records_within_cap; [apply resumeProcess_no_new_records|done].
  - eapply no_new_records_within_cap; [apply updateProcessProgress_no_new_records|done].
  - unfold onStdout. destruct progressMatch as [n|]; [|done].
    eapply no_new_records_within_cap; [apply updateProcessProgress_no_new_records|done].
  - done.
  - eapply no_new_records_within_cap; [apply onExit_no_new_records|done].
  - eapply no_new_records_within_cap; [apply onError_no_new_records|done].
  - eapply no_new_records_within_cap; [apply no_new_records_delete|done].
  - unfold createWorkflow. by repeat (destruct (String.eqb _ _)).
  - unfold startWorkflow.
    destruct (workflowStates w !! workflowId) as [workflow|]; [|done].
    destruct (negb _); [done|].
    match goal with
    | |- context [_executeWorkflowStep _ _ now rnd childPid workflowId ?w0] =>
        pose proof (executeWorkflowStep_within_cap now rnd childPid workflowId w0 Hc) as He;
        by destruct (_executeWorkflowStep _ _ now rnd childPid workflowId w0) as [[] ?]
    end.
  - eapply no_new_records_within_cap; [|done].
    unfold stopWorkflow.
    destruct (workflowStates w !! workflowId) as [workflow|];
      [|apply no_new_records_refl].
    destruct (_ || _); [apply no_new_records_refl|].
    match goal with
    | |- context [fold_left ?f ?l ?w0] =>
        pose proof (stopAll_no_new_records now oracle l w0) as Hall;
        destruct (workflowStates (fold_left f l w0) !! workflowId); exact Hall
    end.
  - unfold runImmediate. by apply executeWorkflowStep_within_cap.
  - unfold within_cap. by rewrite pollProcessStep_activeProcesses.
  - unfold within_cap. by rewrite settleStep_activeProcesses.
Qed.

(** X3. In every reachable world the registry is within the cap, and so is
    the number of records in a non-terminal state. *)
Lemma reachable_within_cap w :
  reachable toISOString maxConcurrentProcesses _createIncidentResponseWorkflow
    _createEvidenceCollectionWorkflow _createMalwareInvestigationWorkflow w ->
  within_cap maxConcurrentProcesses w /\
  Z.of_nat (nonTerminalCount w) <= Z.max 0 (maxConcurrent maxConcurrentProcesses).
Proof.
  intros Hr.
  assert (Hc : within_cap maxConcurrentProcesses w).
  { revert w Hr. unfold reachable. apply rtc_ind_r.
    - unfold within_cap. simpl. rewrite map_size_empty. lia.
    - intros w1 w2 _ Hstep IH. by eapply step_within_cap. }
  split; [done|].
  pose proof (nonTerminalCount_le_size w). unfold within_cap in Hc. lia.
Qed.

End CapPreservation.

Lemma reachable_within_cap_witness :
  let toISOString := fun _ : Z => "t" in
  let w1 := snd (startProcess toISOString (Some 1) 10 "a" (Some 4242)
                   "log-analysis" [] initialWorld) in
  let w2 := snd (startProcess toISOString (Some 1) 20 "b" (Some 4243)
                   "malware-scan" [] w1) in
  within_cap (Some 1) w2 /\ Z.of_nat (nonTerminalCount w2) <= 1.
Proof.
  intros toISOString w1 w2.
  apply (reachable_within_cap toISOString (Some 1)
           (fun _ => []) (fun _ => []) (fun _ => []) w2).
  apply (rtc_l _ _ w1); [apply step_startProcess|].
  apply rtc_once. apply step_startProcess.
Defined.

(** * Further properties of the process supervisor *)

(** ** Starting a process *)

Lemma startLogLine_known processType :
  is_Some (startLogLine processType)
  <-> processType = "disk-imaging" \/ processType = "memory-dump"
      \/ processType = "network-capture" \/ processType = "log-analysis"
      \/ processType = "malware-scan".
Proof.
  unfold startLogLine.
  destruct (String.eqb_spec processType "disk-imaging");
    [split; [tauto|by eexists]|].
  destruct (String.eqb_spec processType "memory-dump");
    [split; [tauto|by eexists]|].
  destruct (String.eqb_spec processType "network-capture");
    [split; [tauto|by eexists]|].
  destruct (String.eqb_spec processType "log-analysis");
    [split; [tauto|by eexists]|].
  destruct (String.eqb_spec processType "malware-scan");
    [split; [tauto|by eexists]|].
  split; [intros [? ?]; discriminate|tauto].
Qed.

(** X1. Below the cap and for one of the five known types, [startProcess]
    returns the id it built from the type, the clock and the random
    suffix; under that id the registry holds a [RUNNING] record with the
    child's pid, progress 0 and no end time or error, and the log buffer
    holds exactly the three start-up lines (an earlier buffer under the
    same id is discarded). Every other record, and the signals and timers,
    are untouched. *)
Theorem startProcess_registers_running toISOString maxConcurrentProcesses
    now rnd childPid processType parameters w :
  Z.of_nat (size (activeProcesses w)) < maxConcurrent maxConcurrentProcesses ->
  (processType = "disk-imaging" \/ processType = "memory-dump"
   \/ processType = "network-capture" \/ processType = "log-analysis"
   \/ processType = "malware-scan") ->
  let processId := processType +:+ "-" +:+ showZ now +:+ "-" +:+ rnd in
  let r := startProcess toISOString maxConcurrentProcesses now rnd childPid
             processType parameters w in
  fst r = Returned processId /\
  activeProcesses (snd r) !! processId
  = Some {| p_type := processType; p_parameters := parameters; p_state := RUNNING;
            p_startTime := now; p_updateTime := now; p_progress := 0;
            p_pid := childPid; p_endTime := None; p_error := None |} /\
  (exists line,
      startLogLine processType = Some line /\
      logsOf processId (snd r)
      = [logEntry toISOString (now, "Process initialization started");
         logEntry toISOString (now, line);
         logEntry toISOString
           (now, "Process started with PID " +:+ showNumber childPid "undefined")]) /\
  (forall other, other <> processId ->
      activeProcesses (snd r) !! other = activeProcesses w !! other /\
      logsOf other (snd r) = logsOf other w) /\
  signals (snd r) = signals w /\
  timers (snd r) = timers w /\
  workflowStates (snd r) = workflowStates w.
Proof.
  intros Hcap Hknown processId r.
  apply startLogLine_known in Hknown as [line Hline].
  subst r. unfold startProcess.
  destruct (Z.geb_spec (Z.of_nat (size (activeProcesses w)))
              (maxConcurrent maxConcurrentProcesses)); [lia|].
  fold processId. rewrite Hline. generalize processId. clear processId. intros processId.
  simpl. rewrite lookup_insert_eq. simpl.
  split; [reflexivity|]. split; [by rewrite lookup_insert_eq|].
  split.
  { exists line. split; [reflexivity|]. unfold logsOf. simpl.
    rewrite !lookup_insert_eq. reflexivity. }
  split.
  { intros other Hne. unfold logsOf. simpl. by rewrite !lookup_insert_ne. }
  by repeat split.
Qed.

Lemma startProcess_registers_running_witness :
  fst (startProcess (fun _ => "t") None 10 "a" (Some 4242) "log-analysis" [] initialWorld)
  = Returned "log-analysis-10-a".
Proof.
  apply (startProcess_registers_running (fun _ => "t") None 10 "a" (Some 4242)
           "log-analysis" [] initialWorld); [vm_compute; reflexivity | tauto].
Defined.

(** X2. Below the cap, a type outside the five known ones makes [startProcess]
    throw, but only after the record was put in the registry: the record
    stays there in [INITIALIZING], with one log line, and takes a slot of
    the cap when its id is new. Nothing else is touched. *)
Theorem startProcess_unknown_type_leaves_record toISOString maxConcurrentProcesses
    now rnd childPid processType parameters w :
  Z.of_nat (size (activeProcesses w)) < maxConcurrent maxConcurrentProcesses ->
  processType <> "disk-imaging" -> processType <> "memory-dump" ->
  processType <> "network-capture" -> processType <> "log-analysis" ->
  processType <> "malware-scan" ->
  let processId := processType +:+ "-" +:+ showZ now +:+ "-" +:+ rnd in
  let r := startProcess toISOString maxConcurrentProcesses now rnd childPid
             processType parameters w in
  fst r = Thrown ("Unknown process type: " +:+ processType) /\
  activeProcesses (snd r) !! processId
  = Some {| p_type := processType; p_parameters := parameters;
            p_state := INITIALIZING; p_startTime := now; p_updateTime := now;
            p_progress := 0; p_pid := None; p_endTime := None; p_error := None |} /\
  logsOf processId (snd r)
  = [logEntry toISOString (now, "Process initialization started")] /\
  (activeProcesses w !! processId = None ->
   size (activeProcesses (snd r)) = S (size (activeProcesses w))) /\
  (forall other, other <> processId ->
      activeProcesses (snd r) !! other = activeProcesses w !! other) /\
  signals (snd r) = signals w /\
  timers (snd r) = timers w.
Proof.
  intros Hcap H1 H2 H3 H4 H5 processId r.
  assert (Hline : startLogLine processType = None).
  { destruct (startLogLine processType) as [line|] eqn:Hl; [|done].
    assert (Hs : is_Some (startLogLine processType)) by (by eexists).
    apply startLogLine_known in Hs. tauto. }
  subst r. unfold startProcess.
  destruct (Z.geb_spec (Z.of_nat (size (activeProcesses w)))
              (maxConcurrent maxConcurrentProcesses)); [lia|].
  fold processId. rewrite Hline. generalize processId. clear processId. intros processId.
  simpl.
  split; [reflexivity|]. split; [by rewrite lookup_insert_eq|].
  split.
  { unfold logsOf. simpl. rewrite !lookup_insert_eq. reflexivity. }
  split; [intros Hfresh; by apply map_size_insert_None|].
  split; [intros other Hne; by rewrite lookup_insert_ne|].
  by split.
Qed.

Lemma startProcess_unknown_type_leaves_record_witness :
  stateOf "registry-scan-10-a"
    (snd (startProcess (fun _ => "t") None 10 "a" (Some 4242) "registry-scan" []
            initialWorld))
  = Some INITIALIZING.
Proof.
  exact (f_equal (fmap (M := option) p_state)
           (proj1 (proj2 (startProcess_unknown_type_leaves_record (fun _ => "t") None
                            10 "a" (Some 4242) "registry-scan" [] initialWorld
                            ltac:(vm_compute; reflexivity) ltac:(discriminate)
                            ltac:(discriminate) ltac:(discriminate) ltac:(discriminate)
                            ltac:(discriminate))))).
Defined.

(** ** Progress updates *)

(** X4. [updateProcessProgress] stores the reported value clamped to
    [0..100] and stamps the update time, leaving every other field of the
    record alone. One milestone line is written exactly when the reported
    (unclamped) value is a multiple of 25; for a value of magnitude up to
    [2^53 - 1] the line quotes that unclamped value in decimal digits. For
    an id that is not in the registry nothing happens at all. *)
Theorem updateProcessProgress_clamps toISOString now processId progress w :
  (activeProcesses w !! processId = None ->
   updateProcessProgress toISOString now processId progress w = w) /\
  (forall processInfo,
      activeProcesses w !! processId = Some processInfo ->
      let w' := updateProcessProgress toISOString now processId progress w in
      exists processInfo',
        activeProcesses w' !! processId = Some processInfo' /\
        0 <= p_progress processInfo' <= 100 /\
        (0 <= progress <= 100 -> p_progress processInfo' = progress) /\
        (progress < 0 -> p_progress processInfo' = 0) /\
        (100 < progress -> p_progress processInfo' = 100) /\
        p_updateTime processInfo' = now /\
        p_state processInfo' = p_state processInfo /\
        p_type processInfo' = p_type processInfo /\
        p_pid processInfo' = p_pid processInfo /\
        p_endTime processInfo' = p_endTime processInfo /\
        p_error processInfo' = p_error processInfo /\
        (Z.rem progress 25 = 0 ->
         exists message,
           logsOf processId w'
           = pushCapped (logsOf processId w) (logEntry toISOString (now, message)) /\
           (Z.abs progress <= 9007199254740991 ->
            message = "Progress: " +:+ showZ progress +:+ "%")) /\
        (Z.rem progress 25 <> 0 -> processLogs w' = processLogs w)).
Proof.
  split.
  - intros Hget. unfold updateProcessProgress. by rewrite Hget.
  - intros processInfo Hget w'. subst w'. unfold updateProcessProgress. rewrite Hget.
    destruct (Z.eqb_spec (Z.rem progress 25) 0) as [Hm|Hm].
    + eexists. split; [simpl; apply lookup_insert_eq|]. simpl.
      repeat split; try lia; try done.
      intros _. eexists. split; [by rewrite logsOf_logProcess|done].
    + eexists. split; [simpl; apply lookup_insert_eq|]. simpl.
      repeat split; try lia; try done.
Qed.

Lemma updateProcessProgress_clamps_witness :
  let w := putProcess "p"
             {| p_type := "log-analysis"; p_parameters := []; p_state := RUNNING;
                p_startTime := 0; p_updateTime := 0; p_progress := 40;
                p_pid := Some 4242; p_endTime := None; p_error := None |}
             initialWorld in
  exists processInfo',
    activeProcesses (updateProcessProgress (fun _ => "t") 7 "p" 250 w) !! "p"
    = Some processInfo' /\
    p_progress processInfo' = 100 /\
    logsOf "p" (updateProcessProgress (fun _ => "t") 7 "p" 250 w)
    = ["[t] Progress: 250%"].
Proof.
  intros w.
  destruct (proj2 (updateProcessProgress_clamps (fun _ => "t") 7 "p" 250 w)
              {| p_type := "log-analysis"; p_parameters := []; p_state := RUNNING;
                 p_startTime := 0; p_updateTime := 0; p_progress := 40;
                 p_pid := Some 4242; p_endTime := None; p_error := None |} eq_refl)
    as (processInfo' & Hget & _ & _ & _ & Hhigh & _ & _ & _ & _ & _ & _ & Hlog & _).
  exists processInfo'. split; [exact Hget|]. split; [apply Hhigh; lia|].
  destruct (Hlog eq_refl) as (message & Hlogs & Hmessage).
  rewrite Hlogs, Hmessage by (vm_compute; discriminate). reflexivity.
Defined.

(** ** Pause followed by resume *)

(** X5. A [RUNNING] process of a pausable type with a pid, paused and then
    resumed (neither signal refused): both calls return [true], the worker
    received [SIGSTOP] and then [SIGCONT], and the record is the one
    before the pause except for its update time. *)
Theorem pause_then_resume_restores toISOString now1 now2 processId w processInfo pid :
  activeProcesses w !! processId = Some processInfo ->
  p_state processInfo = RUNNING ->
  pausable (p_type processInfo) = true ->
  truthy_pid (p_pid processInfo) = Some pid ->
  let paused := pauseProcess toISOString now1 None processId w in
  let resumed := resumeProcess toISOString now2 None processId (snd paused) in
  fst paused = true /\
  stateOf processId (snd paused) = Some PAUSED /\
  fst resumed = true /\
  activeProcesses (snd resumed) !! processId = Some (set_updateTime now2 processInfo) /\
  signals (snd resumed) = signals w ++ [(pid, "SIGSTOP"); (pid, "SIGCONT")] /\
  (forall other, other <> processId ->
      activeProcesses (snd resumed) !! other = activeProcesses w !! other) /\
  timers (snd resumed) = timers w.
Proof.
  intros Hget Hst Hp Hpid paused resumed.
  assert (Hpaused : paused
                    = (true,
                       _logProcess toISOString now1 processId "Process paused"
                         (putProcess processId
                            (set_updateTime now1 (set_state PAUSED processInfo))
                            (with_signals (signals w ++ [(pid, "SIGSTOP")]) w)))).
  { subst paused. unfold pauseProcess, pauseProcess_body.
    rewrite Hget, Hp, Hpid. by rewrite bool_decide_eq_true_2. }
  subst resumed. rewrite Hpaused. simpl.
  unfold stateOf, resumeProcess, resumeProcess_body. simpl.
  rewrite !lookup_insert_eq. simpl. rewrite Hpid. simpl.
  rewrite lookup_insert_eq, insert_insert_eq, <- app_assoc. simpl.
  repeat split.
  - f_equal. destruct processInfo; simpl in *; by subst.
  - intros other Hne. by rewrite lookup_insert_ne.
Qed.

Lemma pause_then_resume_restores_witness :
  let processInfo :=
    {| p_type := "log-analysis"; p_parameters := []; p_state := RUNNING;
       p_startTime := 0; p_updateTime := 0; p_progress := 40;
       p_pid := Some 4242; p_endTime := None; p_error := None |} in
  let w := putProcess "p" processInfo initialWorld in
  signals (snd (resumeProcess (fun _ => "t") 2 None "p"
                  (snd (pauseProcess (fun _ => "t") 1 None "p" w))))
  = [(4242, "SIGSTOP"); (4242, "SIGCONT")].
Proof.
  intros processInfo w.
  exact (proj1 (proj2 (proj2 (proj2 (proj2
           (pause_then_resume_restores (fun _ => "t") 1 2 "p" w processInfo 4242
              eq_refl eq_refl eq_refl eq_refl)))))).
Defined.

(** ** What [stopProcess] leaves alone *)

Lemma stopProcess_activeProcesses toISOString now killError cleanupFault
    processId w processInfo :
  activeProcesses w !! processId = Some processInfo ->
  exists processInfo',
    activeProcesses (snd (stopProcess toISOString now killError cleanupFault processId w))
    = <[processId := processInfo']> (activeProcesses w) /\
    terminal (p_state processInfo') = true /\
    p_type processInfo' = p_type processInfo.
Proof.
  intros Hget. unfold stopProcess. rewrite Hget.
  match goal with
  | |- context [_cleanupProcess toISOString now cleanupFault processId ?ty ?w0] =>
      pose proof (cleanupProcess_activeProcesses toISOString now cleanupFault processId ty w0)
        as Hact;
      pose proof (cleanupProcess_result toISOString now cleanupFault processId ty w0)
        as Hres;
      destruct (_cleanupProcess toISOString now cleanupFault processId ty w0)
        as [res w1] eqn:Hclean
  end.
  simpl in Hact, Hres.
  assert (Hw1 : activeProcesses w1
                = <[processId := set_updateTime now (set_state STOPPING processInfo)]>
                    (activeProcesses w)).
  { rewrite Hact. by destruct (truthy_pid _) as [pid|]; [destruct killError|]. }
  destruct cleanupFault as [e|]; subst res.
  - rewrite Hw1, lookup_insert_eq. simpl. rewrite Hw1, insert_insert_eq.
    eexists. split; [reflexivity|]. by split.
  - simpl. rewrite Hw1, insert_insert_eq.
    eexists. split; [reflexivity|]. by split.
Qed.

Lemma logLines_workflowStates toISOString now processId lines : forall w,
  workflowStates
    (fold_left (fun w line => _logProcess toISOString now processId line w) lines w)
  = workflowStates w /\
  pollers
    (fold_left (fun w line => _logProcess toISOString now processId line w) lines w)
  = pollers w /\
  immediates
    (fold_left (fun w line => _logProcess toISOString now processId line w) lines w)
  = immediates w.
Proof.
  induction lines as [|line lines IH]; intros w; simpl; [done|].
  destruct (IH (_logProcess toISOString now processId line w)) as (-> & -> & ->). done.
Qed.

Lemma stopProcess_workflowStates toISOString now killError cleanupFault processId w :
  workflowStates (snd (stopProcess toISOString now killError cleanupFault processId w))
  = workflowStates w /\
  pollers (snd (stopProcess toISOString now killError cleanupFault processId w))
  = pollers w /\
  immediates (snd (stopProcess toISOString now killError cleanupFault processId w))
  = immediates w.
Proof.
  unfold stopProcess, _cleanupProcess.
  destruct (activeProcesses w !! processId) as [processInfo|]; [|done].
  destruct cleanupFault as [e|]; simpl.
  - destruct (truthy_pid _) as [pid|]; [destruct killError|]; simpl;
      rewrite lookup_insert_eq; done.
  - match goal with
    | |- context [fold_left ?f ?l ?w0] =>
        destruct (logLines_workflowStates toISOString now processId l w0)
          as (-> & -> & ->)
    end.
    by destruct (truthy_pid _) as [pid|]; [destruct killError|].
Qed.

Lemma stopProcess_frame toISOString now killError cleanupFault
    processId w :
  (activeProcesses w !! processId = None ->
   stopProcess toISOString now killError cleanupFault processId w = (false, w)) /\
  (let w' := snd (stopProcess toISOString now killError cleanupFault processId w) in
   (forall other, other <> processId ->
       activeProcesses w' !! other = activeProcesses w !! other) /\
   dom (activeProcesses w') = dom (activeProcesses w) /\
   (forall processInfo processInfo',
       activeProcesses w !! processId = Some processInfo ->
       activeProcesses w' !! processId = Some processInfo' ->
       p_type processInfo' = p_type processInfo /\
       p_startTime processInfo' = p_startTime processInfo) /\
   workflowStates w' = workflowStates w /\
   pollers w' = pollers w /\
   immediates w' = immediates w).
Proof.
  split.
  - intros Hget. unfold stopProcess. by rewrite Hget.
  - cbv zeta.
    destruct (stopProcess_workflowStates toISOString now killError cleanupFault processId w)
      as (Hwf & Hpo & Him).
    destruct (activeProcesses w !! processId) as [processInfo|] eqn:Hget.
    + destruct (stopProcess_activeProcesses toISOString now killError cleanupFault
                  processId w processInfo Hget) as (processInfo' & Hact & _ & Hty).
      split; [intros other Hne; by rewrite Hact, lookup_insert_ne|].
      split.
      { rewrite Hact, dom_insert_L. apply elem_of_dom_2 in Hget.
        apply set_eq. intros x. rewrite elem_of_union, elem_of_singleton.
        split; [intros [->|]; done | by right]. }
      split; [|done].
      intros p p' [= <-] Hp'. split.
      * rewrite Hact, lookup_insert_eq in Hp'. by injection Hp' as <-.
      * clear Hact Hty. revert Hp'. unfold stopProcess, _cleanupProcess. rewrite Hget.
        destruct cleanupFault as [e|]; simpl.
        -- destruct (truthy_pid _) as [pid|]; [destruct killError|]; simpl;
             rewrite lookup_insert_eq; simpl; rewrite lookup_insert_eq;
             by intros [= <-].
        -- rewrite lookup_insert_eq. by intros [= <-].
    + unfold stopProcess. rewrite Hget. simpl.
      split; [done|]. split; [done|]. split; [intros ? ? [=]|done].
Qed.

(** X6. [stopProcess] touches one record only. For an id that is not in the
    registry it returns [false] and changes nothing; otherwise every
    record under another id, every workflow, every poller and every
    scheduled continuation is as before, the registry has the same ids as
    before, and the stopped record keeps its type. *)
Theorem stopProcess_touches_one_record toISOString now killError cleanupFault
    processId w :
  (activeProcesses w !! processId = None ->
   stopProcess toISOString now killError cleanupFault processId w = (false, w)) /\
  (let w' := snd (stopProcess toISOString now killError cleanupFault processId w) in
   (forall other, other <> processId ->
       activeProcesses w' !! other = activeProcesses w !! other) /\
   dom (activeProcesses w') = dom (activeProcesses w) /\
   (forall processInfo processInfo',
       activeProcesses w !! processId = Some processInfo ->
       activeProcesses w' !! processId = Some processInfo' ->
       p_type processInfo' = p_type processInfo /\
       p_startTime processInfo' = p_startTime processInfo) /\
   workflowStates w' = workflowStates w /\
   pollers w' = pollers w /\
   immediates w' = immediates w).
Proof. apply stopProcess_frame. Qed.

Lemma stopProcess_touches_one_record_witness :
  stopProcess (fun _ => "t") 5 None None "ghost" initialWorld = (false, initialWorld).
Proof.
  apply (stopProcess_touches_one_record (fun _ => "t") 5 None None "ghost" initialWorld).
  reflexivity.
Defined.

(** ** The worker's error event *)

(** X7. The [error] event marks a registered process [ERROR] with the event's
    message and stamps the update time, but, unlike the exit event, it
    leaves the end time as it was and the progress where it stood. The
    log line is written in every case, so an event for an id that is not
    in the registry still creates or extends a log buffer under that id
    while the registry stays as it is. *)
Theorem onError_marks_error_without_end_time toISOString now processId message w :
  logsOf processId (onError toISOString now processId message w)
  = pushCapped (logsOf processId w)
      (logEntry toISOString (now, "Process error: " +:+ message)) /\
  (activeProcesses w !! processId = None ->
   activeProcesses (onError toISOString now processId message w) = activeProcesses w) /\
  (forall processInfo,
      activeProcesses w !! processId = Some processInfo ->
      activeProcesses (onError toISOString now processId message w) !! processId
      = Some {| p_type := p_type processInfo;
                p_parameters := p_parameters processInfo;
                p_state := ERROR;
                p_startTime := p_startTime processInfo;
                p_updateTime := now;
                p_progress := p_progress processInfo;
                p_pid := p_pid processInfo;
                p_endTime := p_endTime processInfo;
                p_error := Some message |}) /\
  timers (onError toISOString now processId message w) = timers w /\
  signals (onError toISOString now processId message w) = signals w.
Proof.
  unfold onError. rewrite logsOf_logProcess.
  destruct (activeProcesses w !! processId) as [processInfo|] eqn:Hget; simpl.
  - split; [done|]. split; [done|]. split; [|done].
    intros p [= <-]. by rewrite lookup_insert_eq.
  - split; [done|]. split; [done|]. split; [intros p [=]|done].
Qed.

Lemma onError_marks_error_without_end_time_witness :
  activeProcesses (onError (fun _ => "t") 9 "ghost" "spawn ENOENT" initialWorld)
  = activeProcesses initialWorld.
Proof.
  apply (onError_marks_error_without_end_time (fun _ => "t") 9 "ghost" "spawn ENOENT"
           initialWorld).
  reflexivity.
Defined.

(** * Further properties of the workflow engine *)

(** ** Stopping a workflow *)

Lemma stopAll_effect toISOString now (oracle : string -> option string * option string)
    processIds : forall w,
  let w' :=
    fold_left
      (fun w processId =>
         snd (stopProcess toISOString now (fst (oracle processId))
                (snd (oracle processId)) processId w))
      processIds w in
  workflowStates w' = workflowStates w /\
  pollers w' = pollers w /\
  dom (activeProcesses w') = dom (activeProcesses w) /\
  (forall processId processInfo',
      processId ∈ processIds ->
      activeProcesses w' !! processId = Some processInfo' ->
      terminal (p_state processInfo') = true) /\
  (forall processId,
      processId ∉ processIds ->
      activeProcesses w' !! processId = activeProcesses w !! processId).
Proof.
  induction processIds as [|first rest IH]; intros w; simpl.
  - repeat split; try done. intros processId processInfo' Hin. by apply elem_of_nil in Hin.
  - set (w1 := snd (stopProcess toISOString now (fst (oracle first))
                      (snd (oracle first)) first w)).
    destruct (IH w1) as (Hwf & Hpo & Hdom & Hterm & Hother).
    destruct (stopProcess_frame toISOString now (fst (oracle first))
                (snd (oracle first)) first w)
      as (_ & Hframe & Hdom1 & _ & Hwf1 & Hpo1 & _).
    fold w1 in Hframe, Hdom1, Hwf1, Hpo1.
    split; [congruence|]. split; [congruence|]. split; [congruence|]. split.
    + intros processId processInfo' Hin Hget.
      destruct (decide (processId ∈ rest)) as [Hrest|Hrest]; [by eapply Hterm|].
      apply elem_of_cons in Hin as [->|Hin]; [|done].
      rewrite Hother in Hget by done.
      assert (Hsome : is_Some (activeProcesses w !! first)).
      { apply elem_of_dom. rewrite <- Hdom1. apply elem_of_dom. by eexists. }
      destruct Hsome as [processInfo Hget0].
      destruct (stopProcess_activeProcesses toISOString now (fst (oracle first))
                  (snd (oracle first)) first w processInfo Hget0)
        as (processInfo1 & Hact & Hter & _).
      fold w1 in Hact. rewrite Hact, lookup_insert_eq in Hget. by injection Hget as <-.
    + intros processId Hnot. apply not_elem_of_cons in Hnot as [Hne Hnot].
      rewrite Hother by done. by apply Hframe.
Qed.

(** X9. [stopWorkflow] refuses an unknown workflow and one that is [completed]
    or [failed]: it returns [false] and changes nothing. Otherwise it
    returns [true]; the workflow ends [stopped] with the end time stamped
    and its index, definition and process list as before; every process
    of its list that is in the registry is left [COMPLETED] or [ERROR];
    and the records of all other processes are untouched. *)
Theorem stopWorkflow_stops_its_processes toISOString now oracle workflowId w :
  (workflowStates w !! workflowId = None ->
   stopWorkflow toISOString now oracle workflowId w = (false, w)) /\
  (forall workflow,
      workflowStates w !! workflowId = Some workflow ->
      (w_state workflow = completed \/ w_state workflow = failed ->
       stopWorkflow toISOString now oracle workflowId w = (false, w)) /\
      (w_state workflow <> completed -> w_state workflow <> failed ->
       let r := stopWorkflow toISOString now oracle workflowId w in
       fst r = true /\
       workflowStates (snd r) !! workflowId
       = Some (wf_set_endTime now (wf_set_updateTime now (wf_set_state stopped workflow))) /\
       (forall processId processInfo',
           processId ∈ w_processes workflow ->
           activeProcesses (snd r) !! processId = Some processInfo' ->
           p_state processInfo' = COMPLETED \/ p_state processInfo' = ERROR) /\
       (forall processId,
           processId ∉ w_processes workflow ->
           activeProcesses (snd r) !! processId = activeProcesses w !! processId) /\
       dom (activeProcesses (snd r)) = dom (activeProcesses w))).
Proof.
  split.
  - intros Hget. unfold stopWorkflow. by rewrite Hget.
  - intros workflow Hget. split.
    + intros Hst. unfold stopWorkflow. rewrite Hget.
      by destruct Hst as [-> | ->].
    + intros Hc Hf r. subst r. unfold stopWorkflow. rewrite Hget.
      rewrite (bool_decide_eq_false_2 _ Hc), (bool_decide_eq_false_2 _ Hf). simpl.
      match goal with
      | |- context [fold_left ?f ?l ?w0] =>
          destruct (stopAll_effect toISOString now oracle l w0)
            as (Hwf & _ & Hdom & Hterm & Hother);
          set (w2 := fold_left f l w0) in *
      end.
      assert (Hget2 : workflowStates w2 !! workflowId
                      = Some (wf_set_updateTime now (wf_set_state stopping workflow)))
        by (rewrite Hwf; simpl; apply lookup_insert_eq).
      rewrite Hget2. simpl.
      split; [done|]. split; [by rewrite lookup_insert_eq|].
      split; [|split; [exact Hother|exact Hdom]].
      intros processId processInfo' Hin Hp.
      specialize (Hterm processId processInfo' Hin Hp).
      destruct (p_state processInfo'); simpl in Hterm; try discriminate; auto.
Qed.

Lemma stopWorkflow_stops_its_processes_witness :
  let w := scenarioSecondRunning (fun _ => "t") in
  let r := stopWorkflow (fun _ => "t") 6000 (fun _ => (None, None)) scenarioWorkflowId w in
  fst r = true /\
  (w_state <$> workflowStates (snd r) !! scenarioWorkflowId) = Some stopped /\
  dom (activeProcesses (snd r)) = dom (activeProcesses w).
Proof.
  intros w r.
  destruct (proj2 (stopWorkflow_stops_its_processes (fun _ => "t") 6000
                     (fun _ => (None, None)) scenarioWorkflowId w)
              {| w_id := scenarioWorkflowId; w_type := "evidence-collection";
                 w_parameters := []; w_definition := scenarioTemplate [];
                 w_currentStep := 1; w_state := running;
                 w_processes := [scenarioFirstId; scenarioSecondId];
                 w_startTime := 1000; w_updateTime := 4000;
                 w_endTime := None; w_error := None |}
              ltac:(vm_compute; reflexivity)) as (_ & Hstop).
  destruct (Hstop ltac:(discriminate) ltac:(discriminate)) as (Hret & Hwf & _ & _ & Hdom).
  split; [exact Hret|]. split; [|exact Hdom].
  exact (f_equal (fmap (M := option) w_state) Hwf).
Defined.

(** ** Starting a workflow *)

(** Running a step keeps the workflow in the registry and leaves its state
    as it was, or [completed], or [failed]. *)
Lemma executeWorkflowStep_state toISOString maxConcurrentProcesses
    now rnd childPid workflowId w workflow :
  workflowStates w !! workflowId = Some workflow ->
  exists workflow',
    workflowStates (snd (_executeWorkflowStep toISOString maxConcurrentProcesses
                           now rnd childPid workflowId w)) !! workflowId
    = Some workflow' /\
    (w_state workflow' = w_state workflow \/ w_state workflow' = completed
     \/ w_state workflow' = failed).
Proof.
  intros Hget. unfold _executeWorkflowStep. rewrite Hget.
  destruct (negb _); [by eauto|].
  destruct (_ >=? _); simpl; [rewrite lookup_insert_eq; by eauto|].
  destruct (stepAt _ _) as [[? processType parameters|? ? branches|? ?|? ?|? ?]|];
    simpl; try (by eauto).
  - pose proof (startProcess_workflowStates toISOString maxConcurrentProcesses
                  now rnd childPid processType parameters w) as Hws.
    destruct (startProcess _ _ _ _ _ _ _ _) as [[processId|e] w1]; simpl in *.
    + rewrite Hws, Hget. simpl. rewrite lookup_insert_eq. by eauto.
    + rewrite (settleStep_rejected now workflowId e w1 workflow) by congruence.
      by eauto.
  - unfold _executeDecisionStep. rewrite Hget.
    destruct branches as [|branch others]; simpl.
    + rewrite (settleStep_rejected now workflowId _ w workflow) by done. by eauto.
    + unfold settleStep. simpl. rewrite lookup_insert_eq. simpl.
      rewrite lookup_insert_eq. eexists. split; [reflexivity|]. left.
      destruct (String.eqb _ _); [|destruct (String.eqb _ _)]; reflexivity.
  - rewrite (settleStep_rejected now workflowId _ w workflow) by done. by eauto.
Qed.

(** ** The poller of a process step *)

Lemma clearInterval_pollers workflowId processId w :
  (workflowId, processId) ∉ pollers (clearInterval workflowId processId w).
Proof.
  unfold clearInterval. simpl. intros Hin.
  apply list_elem_of_filter in Hin as [Hne _]. by apply Hne.
Qed.

(** X11. One tick of the poller of a process step, case by case. A poller that
    was cleared does nothing. While the process is neither [COMPLETED]
    nor [ERROR] and the workflow is [running], the tick changes nothing.
    When the process is [COMPLETED] the step resolves whatever the state
    of the workflow: the index moves on by one, the continuation is
    scheduled and the poller is cleared. When the process has left the
    registry the workflow fails with "no longer exists". When the process
    is still busy but the workflow is no longer [running], the workflow
    is marked [failed] with "Workflow execution was interrupted", whatever
    state (for instance [stopped]) it was in. *)
Theorem pollProcessStep_cases now workflowId processId w :
  ((workflowId, processId) ∉ pollers w ->
   pollProcessStep now workflowId processId w = w) /\
  ((workflowId, processId) ∈ pollers w ->
   forall workflow,
     workflowStates w !! workflowId = Some workflow ->
     let w' := pollProcessStep now workflowId processId w in
     (forall processInfo,
         activeProcesses w !! processId = Some processInfo ->
         p_state processInfo <> COMPLETED -> p_state processInfo <> ERROR ->
         w_state workflow = running ->
         w' = w) /\
     (forall processInfo,
         activeProcesses w !! processId = Some processInfo ->
         p_state processInfo = COMPLETED ->
         workflowStates w' !! workflowId
         = Some (wf_set_updateTime now
                   (wf_set_currentStep (w_currentStep workflow + 1) workflow)) /\
         immediates w' = immediates w ++ [workflowId] /\
         (workflowId, processId) ∉ pollers w') /\
     (activeProcesses w !! processId = None ->
      workflowStates w' !! workflowId
      = Some (wf_set_endTime now (wf_set_updateTime now
                (wf_set_error ("Process " +:+ processId +:+ " no longer exists")
                   (wf_set_state failed workflow)))) /\
      (workflowId, processId) ∉ pollers w') /\
     (forall processInfo,
         activeProcesses w !! processId = Some processInfo ->
         p_state processInfo <> COMPLETED -> p_state processInfo <> ERROR ->
         w_state workflow <> running ->
         workflowStates w' !! workflowId
         = Some (wf_set_endTime now (wf_set_updateTime now
                   (wf_set_error "Workflow execution was interrupted"
                      (wf_set_state failed workflow)))) /\
         (workflowId, processId) ∉ pollers w') /\
     activeProcesses w' = activeProcesses w).
Proof.
  split.
  - intros Hnot. unfold pollProcessStep. by rewrite bool_decide_eq_false_2.
  - intros Hin workflow Hwf w'. subst w'. unfold pollProcessStep.
    rewrite bool_decide_eq_true_2 by done.
    unfold pollOutcome, getProcessStatus. rewrite Hwf.
    split; [|split; [|split; [|split]]].
    + intros processInfo Hget Hc He Hrun. rewrite Hget. simpl.
      rewrite bool_decide_eq_true_2 by done.
      by destruct (p_state processInfo).
    + intros processInfo Hget Hc. rewrite Hget. simpl. rewrite Hc.
      unfold settleStep. simpl. rewrite Hwf. simpl.
      split; [apply lookup_insert_eq|]. split; [done|].
      apply (clearInterval_pollers workflowId processId w).
    + intros Hget. rewrite Hget.
      split; [by apply settleStep_rejected|].
      unfold settleStep. simpl. rewrite Hwf. simpl.
      apply (clearInterval_pollers workflowId processId w).
    + intros processInfo Hget Hc He Hrun. rewrite Hget. simpl.
      rewrite bool_decide_eq_false_2 by done.
      assert (Hout : match p_state processInfo with
                     | COMPLETED => Some Resolved
                     | ERROR =>
                         Some (Rejected ("Process " +:+ processId +:+ " failed: " +:+
                                         errorOrUnknown (p_error processInfo)))
                     | _ => None
                     end = None) by (by destruct (p_state processInfo)).
      rewrite Hout.
      split; [by apply settleStep_rejected|].
      unfold settleStep. simpl. rewrite Hwf. simpl.
      apply (clearInterval_pollers workflowId processId w).
    + destruct (activeProcesses w !! processId) as [processInfo|]; simpl.
      * destruct (match p_state processInfo with
                  | COMPLETED => Some Resolved
                  | ERROR => _
                  | _ => None
                  end) as [o|];
          [|destruct (bool_decide _)]; try done;
          by rewrite settleStep_activeProcesses.
      * by rewrite settleStep_activeProcesses.
Qed.

Lemma pollProcessStep_cases_witness :
  let w := scenarioSecondRunning (fun _ => "t") in
  pollProcessStep 5500 scenarioWorkflowId scenarioSecondId w = w.
Proof.
  intros w.
  destruct (proj2 (pollProcessStep_cases 5500 scenarioWorkflowId scenarioSecondId w)
              ltac:(apply (bool_decide_unpack _); vm_compute; exact I)
              {| w_id := scenarioWorkflowId; w_type := "evidence-collection";
                 w_parameters := []; w_definition := scenarioTemplate [];
                 w_currentStep := 1; w_state := running;
                 w_processes := [scenarioFirstId; scenarioSecondId];
                 w_startTime := 1000; w_updateTime := 4000;
                 w_endTime := None; w_error := None |}
              ltac:(vm_compute; reflexivity)) as (Hbusy & _).
  apply (Hbusy {| p_type := "malware-scan"; p_parameters := []; p_state := RUNNING;
                  p_startTime := 5000; p_updateTime := 5000; p_progress := 0;
                  p_pid := Some 4243; p_endTime := None; p_error := None |});
    [vm_compute; reflexivity | discriminate | discriminate | reflexivity].
Defined.

(** * What a run never loses *)

(** ** Log buffers *)

Lemma logs_kept_refl w : logs_kept w w.
Proof. unfold logs_kept. done. Qed.

Lemma logs_kept_eq w0 w w' :
  processLogs w' = processLogs w -> logs_kept w0 w -> logs_kept w0 w'.
Proof. unfold logs_kept. by intros ->. Qed.

Lemma logs_kept_logProcess toISOString now processId message w0 w :
  logs_kept w0 w -> logs_kept w0 (_logProcess toISOString now processId message w).
Proof.
  unfold logs_kept. simpl. rewrite dom_insert_L. intros H.
  etrans; [exact H|]. apply union_subseteq_r.
Qed.

Lemma logs_kept_reset processId w0 w :
  logs_kept w0 w -> logs_kept w0 (with_processLogs (<[processId := []]> (processLogs w)) w).
Proof.
  unfold logs_kept. simpl. rewrite dom_insert_L. intros H.
  etrans; [exact H|]. apply union_subseteq_r.
Qed.

Lemma logs_kept_logLines toISOString now processId lines w0 : forall w,
  logs_kept w0 w ->
  logs_kept w0
    (fold_left (fun w line => _logProcess toISOString now processId line w) lines w).
Proof.
  induction lines as [|line lines IH]; intros w Hk; simpl; [done|].
  by apply IH, logs_kept_logProcess.
Qed.

Lemma logs_kept_trans w0 w1 w2 : logs_kept w0 w1 -> logs_kept w1 w2 -> logs_kept w0 w2.
Proof. unfold logs_kept. intros H1 H2. by etrans. Qed.

(** Peels the log writes and the other field updates off a goal
    [logs_kept _ _]. *)
Ltac kept :=
  repeat first
    [ assumption
    | apply logs_kept_refl
    | apply logs_kept_logProcess
    | apply logs_kept_logLines
    | apply logs_kept_reset
    | match goal with
      | |- logs_kept ?w0 (putProcess _ _ ?w) => apply (logs_kept_eq w0 w); [reflexivity|]
      | |- logs_kept ?w0 (putWorkflow _ _ ?w) => apply (logs_kept_eq w0 w); [reflexivity|]
      | |- logs_kept ?w0 (with_signals _ ?w) => apply (logs_kept_eq w0 w); [reflexivity|]
      | |- logs_kept ?w0 (with_timers _ ?w) => apply (logs_kept_eq w0 w); [reflexivity|]
      | |- logs_kept ?w0 (with_pollers _ ?w) => apply (logs_kept_eq w0 w); [reflexivity|]
      | |- logs_kept ?w0 (with_immediates _ ?w) => apply (logs_kept_eq w0 w); [reflexivity|]
      | |- logs_kept ?w0 (with_activeProcesses _ ?w) =>
          apply (logs_kept_eq w0 w); [reflexivity|]
      | |- logs_kept ?w0 (with_workflowStates _ ?w) =>
          apply (logs_kept_eq w0 w); [reflexivity|]
      end ].

Section LogsKept.

Variable toISOString : Z -> string.
Variable maxConcurrentProcesses : option Z.

Lemma startProcess_logs_kept now rnd childPid processType parameters w0 w :
  logs_kept w0 w ->
  logs_kept w0 (snd (startProcess toISOString maxConcurrentProcesses now rnd childPid
                       processType parameters w)).
Proof.
  intros Hk. unfold startProcess.
  destruct (_ >=? _); [done|].
  destruct (startLogLine processType); cbn [snd].
  - match goal with |- context [activeProcesses ?w1 !! ?k] =>
      destruct (activeProcesses w1 !! k) end; cbn [snd]; kept.
  - kept.
Qed.

Lemma stopProcess_logs_kept now killError cleanupFault processId w0 w :
  logs_kept w0 w ->
  logs_kept w0 (snd (stopProcess toISOString now killError cleanupFault processId w)).
Proof.
  intros Hk. unfold stopProcess, _cleanupProcess.
  destruct (activeProcesses w !! processId) as [processInfo|]; [|done].
  destruct cleanupFault as [e|]; cbn [snd fst].
  - match goal with |- context [activeProcesses ?w1 !! ?k] =>
      destruct (activeProcesses w1 !! k) end; cbn [snd];
      destruct (truthy_pid _); try destruct killError; kept.
  - destruct (truthy_pid _); [destruct killError|]; kept.
Qed.

Lemma settleStep_logs_kept now workflowId outcome w0 w :
  logs_kept w0 w -> logs_kept w0 (settleStep now workflowId outcome w).
Proof.
  intros Hk. unfold settleStep.
  destruct (workflowStates w !! workflowId); [|done].
  destruct outcome; kept.
Qed.

Lemma executeWorkflowStep_logs_kept now rnd childPid workflowId w0 w :
  logs_kept w0 w ->
  logs_kept w0 (snd (_executeWorkflowStep toISOString maxConcurrentProcesses
                       now rnd childPid workflowId w)).
Proof.
  intros Hk. unfold _executeWorkflowStep.
  destruct (workflowStates w !! workflowId) as [workflow|] eqn:Hget; [|done].
  destruct (negb _); [done|].
  destruct (_ >=? _); [cbn [snd]; kept|].
  destruct (stepAt _ _) as [[? processType parameters|? ? branches|? ?|? ?|? ?]|];
    cbn [snd]; try done.
  - pose proof (startProcess_logs_kept now rnd childPid processType parameters w0 w Hk)
      as Hs.
    destruct (startProcess _ _ _ _ _ _ _ _) as [[processId|e] w1]; cbn [snd] in *.
    + destruct (workflowStates w1 !! workflowId); kept.
    + by apply settleStep_logs_kept.
  - unfold _executeDecisionStep. rewrite Hget.
    destruct branches; cbn [snd]; apply settleStep_logs_kept; kept.
  - by apply settleStep_logs_kept.
Qed.

Lemma stopAll_logs_kept now oracle processIds w0 : forall w,
  logs_kept w0 w ->
  logs_kept w0
    (fold_left
       (fun w processId =>
          snd (stopProcess toISOString now (fst (oracle processId))
                 (snd (oracle processId)) processId w))
       processIds w).
Proof.
  induction processIds as [|processId processIds IH]; intros w Hk; simpl; [done|].
  by apply IH, stopProcess_logs_kept.
Qed.

Variable _createIncidentResponseWorkflow : Params -> list Step.
Variable _createEvidenceCollectionWorkflow : Params -> list Step.
Variable _createMalwareInvestigationWorkflow : Params -> list Step.

(** X8. No handler ever removes a log buffer: across every step of the
    system, each process id that has a buffer in [processLogs] still has
    one afterwards. In particular the retention timer removes the process
    record from the registry but leaves its log buffer behind, unchanged. *)
Theorem log_buffers_are_never_removed w w' :
  step toISOString maxConcurrentProcesses _createIncidentResponseWorkflow
    _createEvidenceCollectionWorkflow _createMalwareInvestigationWorkflow w w' ->
  (forall processId,
      is_Some (processLogs w !! processId) -> is_Some (processLogs w' !! processId)) /\
  (forall due processId,
      w' = fireTimer due processId w ->
      activeProcesses w' !! processId = None /\
      getProcessStatus due processId w' = None /\
      processLogs w' = processLogs w).
Proof.
  intros Hstep. split.
  - assert (Hk : logs_kept w w').
    { destruct Hstep.
      - apply startProcess_logs_kept; kept.
      - apply stopProcess_logs_kept; kept.
      - unfold pauseProcess, pauseProcess_body.
        destruct (activeProcesses w !! processId); [|kept].
        destruct (negb _); [kept|]. destruct (negb _); [kept|].
        destruct (truthy_pid _); [|kept]. destruct killError; [kept|].
        cbn [snd]. kept.
      - unfold resumeProcess, resumeProcess_body.
        destruct (activeProcesses w !! processId); [|kept].
        destruct (negb _); [kept|].
        destruct (truthy_pid _); [|kept]. destruct killError; [kept|].
        cbn [snd]. kept.
      - unfold updateProcessProgress.
        destruct (activeProcesses w !! processId); [|kept].
        destruct (_ =? _); kept.
      - unfold onStdout, updateProcessProgress. destruct progressMatch; [|kept].
        match goal with |- context [activeProcesses ?w1 !! ?k] =>
          destruct (activeProcesses w1 !! k) end; [|kept].
        destruct (_ =? _); kept.
      - unfold onStderr. kept.
      - unfold onExit. destruct (activeProcesses w !! processId); [|kept].
        case_bool_decide; kept.
      - unfold onError. destruct (activeProcesses w !! processId); kept.
      - unfold fireTimer. kept.
      - unfold createWorkflow. repeat (destruct (String.eqb _ _)); cbn [snd]; kept.
      - unfold startWorkflow.
        destruct (workflowStates w !! workflowId) as [workflow|]; [|kept].
        destruct (negb _); [kept|].
        match goal with
        | |- context [_executeWorkflowStep _ _ now rnd childPid workflowId ?w1] =>
            assert (He : logs_kept w
                           (snd (_executeWorkflowStep toISOString maxConcurrentProcesses
                                   now rnd childPid workflowId w1)))
              by (apply executeWorkflowStep_logs_kept; kept);
            by destruct (_executeWorkflowStep _ _ now rnd childPid workflowId w1)
              as [[] ?]
        end.
      - unfold stopWorkflow.
        destruct (workflowStates w !! workflowId) as [workflow|]; [|kept].
        destruct (_ || _); [kept|].
        match goal with
        | |- context [fold_left ?f ?l ?w1] =>
            assert (Hall : logs_kept w (fold_left f l w1))
              by (apply stopAll_logs_kept; kept);
            destruct (workflowStates (fold_left f l w1) !! workflowId); cbn [snd]; kept
        end.
      - unfold runImmediate. apply executeWorkflowStep_logs_kept. kept.
      - unfold pollProcessStep. case_bool_decide; [|kept].
        destruct (pollOutcome _ _ _ _); [|kept].
        apply settleStep_logs_kept. unfold clearInterval. kept.
      - apply settleStep_logs_kept. kept. }
    intros processId Hsome. apply elem_of_dom. apply Hk. by apply elem_of_dom.
  - intros due processId ->. unfold getProcessStatus, fireTimer. simpl.
    by rewrite lookup_delete_eq.
Qed.

End LogsKept.

Lemma log_buffers_are_never_removed_witness :
  let toISOString := fun _ : Z => "t" in
  let w1 := snd (startProcess toISOString None 10 "a" (Some 4242)
                   "log-analysis" [] initialWorld) in
  let w2 := snd (stopProcess toISOString 20 None None "log-analysis-10-a" w1) in
  let w3 := fireTimer 3600020 "log-analysis-10-a" w2 in
  activeProcesses w3 !! "log-analysis-10-a" = None /\
  length (logsOf "log-analysis-10-a" w3) = 9%nat.
Proof.
  intros toISOString w1 w2 w3.
  destruct (log_buffers_are_never_removed toISOString None (fun _ => []) (fun _ => [])
              (fun _ => []) w2 w3
              (step_fireTimer toISOString None (fun _ => []) (fun _ => []) (fun _ => [])
                 3600020 "log-analysis-10-a" w2
                 ltac:(apply (bool_decide_unpack _); vm_compute; exact I)))
    as (_ & Hpurge).
  destruct (Hpurge 3600020 "log-analysis-10-a" eq_refl) as (Hgone & _ & Hlogs).
  split; [exact Hgone|]. unfold logsOf. rewrite Hlogs. vm_compute. reflexivity.
Defined.

(** ** Workflows *)

Lemma wf_progressed_refl workflow : wf_progressed workflow workflow.
Proof. by repeat split. Qed.

Lemma wf_progressed_trans wf1 wf2 wf3 :
  wf_progressed wf1 wf2 -> wf_progressed wf2 wf3 -> wf_progressed wf1 wf3.
Proof.
  intros (Hi1 & Ht1 & Hd1 & Hs1 & Hc1 & Hp1) (Hi2 & Ht2 & Hd2 & Hs2 & Hc2 & Hp2).
  repeat split; try congruence; try lia. by etrans.
Qed.

Lemma wfs_progress_refl m : wfs_progress m m.
Proof.
  intros id wf Hget. exists wf. split; [done|]. split; [done|].
  intros _. apply wf_progressed_refl.
Qed.

Lemma wfs_progress_eq m m' : m' = m -> wfs_progress m m'.
Proof. intros ->. apply wfs_progress_refl. Qed.

Lemma wfs_progress_trans m1 m2 m3 :
  wfs_progress m1 m2 -> wfs_progress m2 m3 -> wfs_progress m1 m3.
Proof.
  intros H12 H23 id wf1 Hget1.
  destruct (H12 id wf1 Hget1) as (wf2 & Hget2 & Hs12 & Hp12).
  destruct (H23 id wf2 Hget2) as (wf3 & Hget3 & Hs23 & Hp23).
  exists wf3. split; [done|]. split; [by auto|]. intros Hs.
  specialize (Hp12 Hs). eapply wf_progressed_trans; [exact Hp12|].
  apply Hp23. destruct Hp12 as (_ & _ & Hd & _). by rewrite Hd.
Qed.

Lemma wfs_progress_insert m workflowId workflow workflow' :
  m !! workflowId = Some workflow ->
  (w_state workflow <> created -> w_state workflow' <> created) ->
  (skipsNonNegative (w_definition workflow) -> wf_progressed workflow workflow') ->
  wfs_progress m (<[workflowId := workflow']> m).
Proof.
  intros Hget Hst Hp id wf Hg.
  destruct (decide (workflowId = id)) as [<-|Hne].
  - exists workflow'. rewrite lookup_insert_eq. split; [done|].
    rewrite Hget in Hg. by injection Hg as <-.
  - exists wf. rewrite lookup_insert_ne by done. split; [done|]. split; [done|].
    intros _. apply wf_progressed_refl.
Qed.

Lemma wfs_progress_fresh m workflowId workflow' :
  m !! workflowId = None -> wfs_progress m (<[workflowId := workflow']> m).
Proof.
  intros Hnone id wf Hg. exists wf.
  rewrite lookup_insert_ne by (intros ->; congruence).
  split; [done|]. split; [done|]. intros _. apply wf_progressed_refl.
Qed.

Lemma settleStep_wfs_progress now workflowId outcome w :
  wfs_progress (workflowStates w) (workflowStates (settleStep now workflowId outcome w)).
Proof.
  unfold settleStep.
  destruct (workflowStates w !! workflowId) as [workflow|] eqn:Hget;
    [|apply wfs_progress_refl].
  destruct outcome; simpl; (eapply wfs_progress_insert; [exact Hget|by simpl|]);
    intros _; repeat split; simpl; try done; lia.
Qed.

Section WorkflowsProgress.

Variable toISOString : Z -> string.
Variable maxConcurrentProcesses : option Z.

Lemma executeWorkflowStep_wfs_progress now rnd childPid workflowId w :
  wfs_progress (workflowStates w)
    (workflowStates (snd (_executeWorkflowStep toISOString maxConcurrentProcesses
                            now rnd childPid workflowId w))).
Proof.
  unfold _executeWorkflowStep.
  destruct (workflowStates w !! workflowId) as [workflow|] eqn:Hget;
    [|apply wfs_progress_refl].
  destruct (negb _); [apply wfs_progress_refl|].
  destruct (_ >=? _); simpl.
  { eapply wfs_progress_insert; [exact Hget|by simpl|]. intros _. by repeat split. }
  destruct (stepAt _ _) as [[? processType parameters|? ? branches|? ?|? ?|? ?]|] eqn:Hstep;
    simpl; try apply wfs_progress_refl; try apply settleStep_wfs_progress.
  - pose proof (startProcess_workflowStates toISOString maxConcurrentProcesses
                  now rnd childPid processType parameters w) as Hws.
    destruct (startProcess _ _ _ _ _ _ _ _) as [[processId|e] w1]; simpl in *.
    + rewrite Hws, Hget. simpl. rewrite Hws.
      eapply wfs_progress_insert; [exact Hget|by simpl|]. intros _.
      repeat split; simpl; try done; try lia. by apply prefix_app_r.
    + rewrite <- Hws. apply settleStep_wfs_progress.
  - unfold _executeDecisionStep. rewrite Hget.
    destruct branches as [|branch others]; simpl; [apply settleStep_wfs_progress|].
    eapply wfs_progress_trans; [|apply settleStep_wfs_progress]. simpl.
    eapply wfs_progress_insert; [exact Hget| |].
    { by destruct (String.eqb _ _); [|destruct (String.eqb _ _)]. }
    intros Hskips.
    assert (Hnn : 0 <= skipCountOr1 branch).
    { unfold skipCountOr1. destruct (b_skipCount branch) as [n|] eqn:Hn; [|lia].
      destruct (Z.eqb_spec n 0); [lia|].
      unfold stepAt in Hstep. destruct (_ <? _); [discriminate|].
      by eapply Hskips. }
    destruct (String.eqb _ _); [|destruct (String.eqb _ _)];
      repeat split; simpl; try done; lia.
Qed.

Lemma stopWorkflow_wfs_progress now oracle workflowId w :
  wfs_progress (workflowStates w)
    (workflowStates (snd (stopWorkflow toISOString now oracle workflowId w))).
Proof.
  unfold stopWorkflow.
  destruct (workflowStates w !! workflowId) as [workflow|] eqn:Hget;
    [|apply wfs_progress_refl].
  destruct (_ || _); [apply wfs_progress_refl|].
  match goal with
  | |- context [fold_left ?f ?l ?w0] =>
      destruct (stopAll_effect toISOString now oracle l w0) as (Hwf & _);
      set (w2 := fold_left f l w0) in *
  end.
  assert (Hget2 : workflowStates w2 !! workflowId
                  = Some (wf_set_updateTime now (wf_set_state stopping workflow)))
    by (rewrite Hwf; simpl; apply lookup_insert_eq).
  rewrite Hget2. simpl. rewrite Hwf. simpl. rewrite insert_insert_eq.
  eapply wfs_progress_insert; [exact Hget|by simpl|]. intros _. by repeat split.
Qed.

Lemma startWorkflow_wfs_progress now rnd childPid workflowId w :
  wfs_progress (workflowStates w)
    (workflowStates (snd (startWorkflow toISOString maxConcurrentProcesses
                            now rnd childPid workflowId w))).
Proof.
  unfold startWorkflow.
  destruct (workflowStates w !! workflowId) as [workflow|] eqn:Hget;
    [|apply wfs_progress_refl].
  destruct (negb _); [apply wfs_progress_refl|].
  match goal with
  | |- context [_executeWorkflowStep _ _ now rnd childPid workflowId ?w1] =>
      pose proof (executeWorkflowStep_wfs_progress now rnd childPid workflowId w1)
        as He;
      assert (H01 : wfs_progress (workflowStates w) (workflowStates w1))
        by (simpl; eapply wfs_progress_insert; [exact Hget|by simpl|];
            intros _; by repeat split);
      destruct (_executeWorkflowStep _ _ now rnd childPid workflowId w1) as [[] ?];
      simpl in *; by eapply wfs_progress_trans
  end.
Qed.

Variable _createIncidentResponseWorkflow : Params -> list Step.
Variable _createEvidenceCollectionWorkflow : Params -> list Step.
Variable _createMalwareInvestigationWorkflow : Params -> list Step.

Local Abbreviation createWorkflow' :=
  (createWorkflow _createIncidentResponseWorkflow _createEvidenceCollectionWorkflow
     _createMalwareInvestigationWorkflow).
Local Abbreviation step' :=
  (step toISOString maxConcurrentProcesses _createIncidentResponseWorkflow
     _createEvidenceCollectionWorkflow _createMalwareInvestigationWorkflow).
Local Abbreviation freshStep' :=
  (freshStep toISOString maxConcurrentProcesses _createIncidentResponseWorkflow
     _createEvidenceCollectionWorkflow _createMalwareInvestigationWorkflow).
Local Abbreviation freshRun' :=
  (freshRun toISOString maxConcurrentProcesses _createIncidentResponseWorkflow
     _createEvidenceCollectionWorkflow _createMalwareInvestigationWorkflow).

(** What [createWorkflow] does: it throws and changes nothing, or it
    returns the id it built and puts a fresh record under it. *)
Lemma createWorkflow_cases now rnd workflowType parameters w :
  (exists e, createWorkflow' now rnd workflowType parameters w = (Thrown e, w)) \/
  (exists steps,
      createWorkflow' now rnd workflowType parameters w
      = (Returned (workflowType +:+ "-" +:+ showZ now +:+ "-" +:+ rnd),
         putWorkflow (workflowType +:+ "-" +:+ showZ now +:+ "-" +:+ rnd)
           {| w_id := workflowType +:+ "-" +:+ showZ now +:+ "-" +:+ rnd;
              w_type := workflowType; w_parameters := parameters;
              w_definition := steps; w_currentStep := 0; w_state := created;
              w_processes := []; w_startTime := now; w_updateTime := now;
              w_endTime := None; w_error := None |} w)).
Proof.
  unfold createWorkflow.
  match goal with
  | |- context [match ?d with Some _ => _ | None => _ end] => destruct d as [steps|]
  end; [right|left]; by eauto.
Qed.

(** Every handler but [createWorkflow] keeps every workflow and moves it
    on. *)
Lemma step_wfs_progress w w' :
  step' w w' ->
  wfs_progress (workflowStates w) (workflowStates w') \/
  exists now rnd workflowType parameters,
    w' = snd (createWorkflow' now rnd workflowType parameters w).
Proof.
  intros Hstep.
  destruct Hstep; try (right; by eauto); left.
  - apply wfs_progress_eq, startProcess_workflowStates.
  - apply wfs_progress_eq, stopProcess_workflowStates.
  - apply wfs_progress_eq. unfold pauseProcess, pauseProcess_body.
    destruct (activeProcesses w !! processId); [|done].
    destruct (negb _); [done|]. destruct (negb _); [done|].
    destruct (truthy_pid _); [|done]. by destruct killError.
  - apply wfs_progress_eq. unfold resumeProcess, resumeProcess_body.
    destruct (activeProcesses w !! processId); [|done].
    destruct (negb _); [done|].
    destruct (truthy_pid _); [|done]. by destruct killError.
  - apply wfs_progress_eq. unfold updateProcessProgress.
    destruct (activeProcesses w !! processId); [|done]. by destruct (_ =? _).
  - apply wfs_progress_eq. unfold onStdout, updateProcessProgress.
    destruct progressMatch; [|done].
    match goal with |- context [activeProcesses ?w1 !! ?k] =>
      destruct (activeProcesses w1 !! k) end; [|done].
    by destruct (_ =? _).
  - by apply wfs_progress_eq.
  - apply wfs_progress_eq. unfold onExit.
    destruct (activeProcesses w !! processId); [|done]. by case_bool_decide.
  - apply wfs_progress_eq. unfold onError.
    by destruct (activeProcesses w !! processId).
  - by apply wfs_progress_eq.
  - apply startWorkflow_wfs_progress.
  - apply stopWorkflow_wfs_progress.
  - unfold runImmediate.
    match goal with
    | |- context [_executeWorkflowStep _ _ now rnd childPid workflowId ?w1] =>
        apply (executeWorkflowStep_wfs_progress now rnd childPid workflowId w1)
    end.
  - unfold pollProcessStep. case_bool_decide; [|apply wfs_progress_refl].
    destruct (pollOutcome _ _ _ _); [|apply wfs_progress_refl].
    match goal with
    | |- context [settleStep now workflowId ?o ?w1] =>
        apply (settleStep_wfs_progress now workflowId o w1)
    end.
  - apply settleStep_wfs_progress.
Qed.

Lemma freshStep_wfs_progress w w' :
  freshStep' w w' -> wfs_progress (workflowStates w) (workflowStates w').
Proof.
  intros [Hstep Hfresh].
  destruct (step_wfs_progress w w' Hstep)
    as [Hp|(now & rnd & workflowType & parameters & ->)]; [done|].
  destruct (createWorkflow_cases now rnd workflowType parameters w)
    as [[e He]|[steps He]].
  - rewrite He. apply wfs_progress_refl.
  - rewrite He in Hfresh |- *. cbn [snd].
    set (newId := workflowType +:+ "-" +:+ showZ now +:+ "-" +:+ rnd) in *.
    clearbody newId.
    destruct (workflowStates w !! newId) as [old|] eqn:Hold.
    + exfalso. apply (Hfresh newId); [by rewrite Hold|].
      exists now, rnd, workflowType, parameters. exact He.
    + simpl. by apply wfs_progress_fresh.
Qed.

Lemma freshRun_wfs_progress w w' :
  rtc freshStep' w w' -> wfs_progress (workflowStates w) (workflowStates w').
Proof.
  induction 1 as [|w1 w2 w3 Hstep _ IH]; [apply wfs_progress_refl|].
  eapply wfs_progress_trans; [by apply freshStep_wfs_progress|exact IH].
Qed.

(** X12. Take a run in which [createWorkflow] never builds an id that is
    already in the registry, so that the continuation of a pending step
    updates the registry's own entry. No handler then removes a workflow from
    [workflowStates]: across every further step a registered workflow is
    still registered and, unless that step is a [createWorkflow] that
    returns this very id (which puts a fresh [created] record with index 0
    and no processes in its place), it has not gone back to [created] and,
    when none of its decision steps has a negative skip count, it is at a
    later stage: same id, type, definition and start time, an index that
    has not decreased, and a process list that has only been extended at
    its end. The same holds across any number of further steps none of
    which rebuilds a registered id. *)
Theorem workflows_persist_and_only_advance w w' workflowId workflow :
  freshRun' w ->
  workflowStates w !! workflowId = Some workflow ->
  (step' w w' ->
   (exists now rnd workflowType parameters steps,
       createWorkflow' now rnd workflowType parameters w = (Returned workflowId, w') /\
       workflowStates w' !! workflowId
       = Some {| w_id := workflowId; w_type := workflowType;
                 w_parameters := parameters; w_definition := steps;
                 w_currentStep := 0; w_state := created; w_processes := [];
                 w_startTime := now; w_updateTime := now; w_endTime := None;
                 w_error := None |})
   \/
   (exists workflow',
       workflowStates w' !! workflowId = Some workflow' /\
       (w_state workflow <> created -> w_state workflow' <> created) /\
       (skipsNonNegative (w_definition workflow) ->
        w_id workflow' = w_id workflow /\
        w_type workflow' = w_type workflow /\
        w_definition workflow' = w_definition workflow /\
        w_startTime workflow' = w_startTime workflow /\
        w_currentStep workflow <= w_currentStep workflow' /\
        w_processes workflow `prefix_of` w_processes workflow'))) /\
  (rtc freshStep' w w' ->
   exists workflow',
     workflowStates w' !! workflowId = Some workflow' /\
     (w_state workflow <> created -> w_state workflow' <> created) /\
     (skipsNonNegative (w_definition workflow) ->
      w_id workflow' = w_id workflow /\
      w_type workflow' = w_type workflow /\
      w_definition workflow' = w_definition workflow /\
      w_startTime workflow' = w_startTime workflow /\
      w_currentStep workflow <= w_currentStep workflow' /\
      w_processes workflow `prefix_of` w_processes workflow')).
Proof.
  intros _ Hget. split.
  - intros Hstep.
    destruct (step_wfs_progress w w' Hstep)
      as [Hp|(now & rnd & workflowType & parameters & ->)].
    { right. exact (Hp workflowId workflow Hget). }
    destruct (createWorkflow_cases now rnd workflowType parameters w)
      as [[e He]|[steps He]].
    + right. rewrite He. exact (wfs_progress_refl _ workflowId workflow Hget).
    + rewrite He. cbn [snd].
      destruct (decide (workflowType +:+ "-" +:+ showZ now +:+ "-" +:+ rnd = workflowId))
        as [Heq|Hne].
      * left. exists now, rnd, workflowType, parameters, steps.
        rewrite He, Heq. split; [done|]. simpl. by rewrite lookup_insert_eq.
      * right. exists workflow. simpl. rewrite lookup_insert_ne by done.
        split; [done|]. split; [done|]. intros _. apply wf_progressed_refl.
  - intros Hrun. exact (freshRun_wfs_progress w w' Hrun workflowId workflow Hget).
Qed.

(** Below the cap a known type makes [startProcess] return the id it
    built. *)
Lemma startProcess_returned now rnd childPid processType parameters w :
  Z.of_nat (size (activeProcesses w)) < maxConcurrent maxConcurrentProcesses ->
  is_Some (startLogLine processType) ->
  exists w1,
    startProcess toISOString maxConcurrentProcesses now rnd childPid
      processType parameters w
    = (Returned (processType +:+ "-" +:+ showZ now +:+ "-" +:+ rnd), w1).
Proof.
  intros Hcap [line Hline]. unfold startProcess.
  destruct (Z.geb_spec (Z.of_nat (size (activeProcesses w)))
              (maxConcurrent maxConcurrentProcesses)); [lia|].
  rewrite Hline.
  generalize (processType +:+ "-" +:+ showZ now +:+ "-" +:+ rnd). intros processId.
  simpl. rewrite lookup_insert_eq. by eauto.
Qed.

(** With a non-negative index a running workflow's step does not throw
    outside its [try] block. *)
Lemma executeWorkflowStep_returns now rnd childPid workflowId w workflow :
  workflowStates w !! workflowId = Some workflow ->
  0 <= w_currentStep workflow ->
  exists w1,
    _executeWorkflowStep toISOString maxConcurrentProcesses
      now rnd childPid workflowId w
    = (Returned tt, w1).
Proof.
  intros Hget Hidx. unfold _executeWorkflowStep. rewrite Hget.
  destruct (negb _); [by eauto|].
  destruct (Z.geb_spec (w_currentStep workflow)
              (Z.of_nat (length (w_definition workflow)))) as [Hge|Hlt]; [by eauto|].
  unfold stepAt. destruct (Z.ltb_spec (w_currentStep workflow) 0); [lia|].
  destruct (w_definition workflow !! Z.to_nat (w_currentStep workflow))
    as [s|] eqn:Hs.
  - destruct s as [? processType parameters|? ? branches|? ?|? ?|? ?]; try (by eauto).
    + destruct (startProcess _ _ _ _ _ _ _ _) as [[] ?]; by eauto.
    + destruct (_executeDecisionStep _ _ _) as [[] ?]; by eauto.
  - apply lookup_ge_None in Hs. lia.
Qed.

(** When the step waits for its executor the workflow is still
    [running]. *)
Lemma awaitsExecutor_running now rnd childPid workflowId w workflow :
  workflowStates w !! workflowId = Some workflow ->
  awaitsExecutor toISOString maxConcurrentProcesses now rnd childPid workflowId w = true ->
  exists workflow',
    workflowStates (snd (_executeWorkflowStep toISOString maxConcurrentProcesses
                           now rnd childPid workflowId w)) !! workflowId
    = Some workflow' /\
    w_state workflow' = running.
Proof.
  intros Hget. unfold awaitsExecutor, _executeWorkflowStep. rewrite Hget.
  case_bool_decide as Hrun; simpl; [|done].
  destruct (_ >=? _); simpl; [done|].
  destruct (stepAt _ _) as [[? processType parameters|? ? branches|? ?|? ?|? ?]|];
    simpl; try done; try (intros _; by eauto).
  pose proof (startProcess_workflowStates toISOString maxConcurrentProcesses
                now rnd childPid processType parameters w) as Hws.
  destruct (startProcess _ _ _ _ _ _ _ _) as [[processId|e] w1]; simpl in *; [|done].
  intros _. rewrite Hws, Hget. simpl. rewrite lookup_insert_eq. by eauto.
Qed.

(** X10. [startWorkflow] returns [false] and changes nothing for an unknown
    workflow and for one that is not [created]. For a [created] one with a
    non-negative index, as [createWorkflow] makes it, the call never
    returns [false]: at the point where the call first waits, or ends, the
    workflow is [running], [completed] or [failed], and the call either
    has returned [true] or is still pending on the first step, with the
    workflow [running]. A workflow with no steps is [completed] at once
    and the call returns [true]. When the first step is a process step of
    a known type and the registry is below the cap, the call is pending
    and the poller of the new process is installed: the call returns only
    when a later tick of that poller settles the step. A started workflow
    is never started again: along any run that does not build its id anew
    it stays out of [created], and every [startWorkflow] on it returns
    [false] and changes nothing. *)
Theorem startWorkflow_starts_at_most_once now rnd childPid workflowId w :
  (workflowStates w !! workflowId = None ->
   startWorkflow toISOString maxConcurrentProcesses now rnd childPid workflowId w
   = (Answered false, w)) /\
  (forall workflow,
      workflowStates w !! workflowId = Some workflow ->
      (w_state workflow <> created ->
       startWorkflow toISOString maxConcurrentProcesses now rnd childPid workflowId w
       = (Answered false, w)) /\
      (w_state workflow = created ->
       let r := startWorkflow toISOString maxConcurrentProcesses
                  now rnd childPid workflowId w in
       (0 <= w_currentStep workflow ->
        fst r = Answered true \/ fst r = AwaitingStep) /\
       (exists workflow',
           workflowStates (snd r) !! workflowId = Some workflow' /\
           (w_state workflow' = running \/ w_state workflow' = completed
            \/ w_state workflow' = failed) /\
           (fst r = AwaitingStep -> w_state workflow' = running) /\
           (w_definition workflow = [] -> 0 <= w_currentStep workflow ->
            fst r = Answered true /\
            w_state workflow' = completed /\ w_endTime workflow' = Some now)) /\
       (forall name processType parameters,
           stepAt (w_definition workflow) (w_currentStep workflow)
           = Some (ProcessStep name processType parameters) ->
           Z.of_nat (size (activeProcesses w)) < maxConcurrent maxConcurrentProcesses ->
           is_Some (startLogLine processType) ->
           fst r = AwaitingStep /\
           (workflowId, processType +:+ "-" +:+ showZ now +:+ "-" +:+ rnd)
           ∈ pollers (snd r)) /\
       started workflowId (snd r))) /\
  (forall w',
      freshRun' w -> started workflowId w -> rtc freshStep' w w' ->
      started workflowId w' /\
      forall now' rnd' childPid',
        startWorkflow toISOString maxConcurrentProcesses
          now' rnd' childPid' workflowId w'
        = (Answered false, w')).
Proof.
  assert (Hrefuse : forall w1 workflow1 now1 rnd1 childPid1,
             workflowStates w1 !! workflowId = Some workflow1 ->
             w_state workflow1 <> created ->
             startWorkflow toISOString maxConcurrentProcesses
               now1 rnd1 childPid1 workflowId w1
             = (Answered false, w1)).
  { intros w1 workflow1 now1 rnd1 childPid1 Hget1 Hst1.
    unfold startWorkflow. rewrite Hget1. by rewrite bool_decide_eq_false_2. }
  split; [|split].
  - intros Hget. unfold startWorkflow. by rewrite Hget.
  - intros workflow Hget. split; [by apply Hrefuse|].
    intros Hst r.
    set (w0 := putWorkflow workflowId
                 (wf_set_updateTime now (wf_set_state running workflow)) w).
    set (step0 := _executeWorkflowStep toISOString maxConcurrentProcesses
                    now rnd childPid workflowId w0).
    set (awaits0 := awaitsExecutor toISOString maxConcurrentProcesses
                      now rnd childPid workflowId w0).
    assert (Hr : r = match step0 with
                     | (Returned _, w1) =>
                         (if awaits0 then AwaitingStep else Answered true, w1)
                     | (Thrown _, w1) => (Answered false, w1)
                     end).
    { subst r. unfold startWorkflow. rewrite Hget.
      by rewrite bool_decide_eq_true_2. }
    assert (Hget0 : workflowStates w0 !! workflowId
                    = Some (wf_set_updateTime now (wf_set_state running workflow)))
      by (simpl; apply lookup_insert_eq).
    destruct (executeWorkflowStep_state toISOString maxConcurrentProcesses
                now rnd childPid workflowId w0 _ Hget0)
      as (workflow' & Hget' & Hst').
    fold step0 in Hget'.
    assert (Hsnd : snd r = snd step0).
    { rewrite Hr. by destruct step0 as [[] ?]. }
    assert (Hstate' : w_state workflow' = running \/ w_state workflow' = completed
                      \/ w_state workflow' = failed)
      by (simpl in Hst'; tauto).
    split; [|split; [|split]].
    + intros Hidx.
      destruct (executeWorkflowStep_returns now rnd childPid workflowId w0 _ Hget0 Hidx)
        as (w1 & Hw1).
      fold step0 in Hw1. rewrite Hr, Hw1. destruct awaits0; [by right|by left].
    + exists workflow'. rewrite Hsnd. split; [done|]. split; [done|]. split.
      * intros Hwait.
        assert (Hawaits : awaits0 = true).
        { rewrite Hr in Hwait. destruct step0 as [[] ?]; [|done].
          by destruct awaits0. }
        destruct (awaitsExecutor_running now rnd childPid workflowId w0 _ Hget0 Hawaits)
          as (workflow2 & Hget2 & Hst2).
        fold step0 in Hget2. congruence.
      * intros Hdef Hidx.
        assert (Hstep0 : step0
                         = (Returned tt,
                            putWorkflow workflowId
                              (wf_set_endTime now (wf_set_updateTime now
                                 (wf_set_state completed
                                    (wf_set_updateTime now
                                       (wf_set_state running workflow))))) w0)).
        { unfold step0, _executeWorkflowStep. rewrite Hget0. simpl. rewrite Hdef.
          by destruct (Z.geb_spec (w_currentStep workflow)
                         (Z.of_nat (length (@nil Step)))); [|simpl in *; lia]. }
        assert (Hawaits : awaits0 = false).
        { unfold awaits0, awaitsExecutor. rewrite Hget0. simpl. rewrite Hdef.
          by destruct (Z.geb_spec (w_currentStep workflow)
                         (Z.of_nat (length (@nil Step)))); [|simpl in *; lia]. }
        rewrite Hr, Hstep0, Hawaits. split; [done|].
        rewrite Hstep0 in Hget'. simpl in Hget'. rewrite lookup_insert_eq in Hget'.
        by injection Hget' as <-.
    + intros name processType parameters Hstep Hcap Hknown.
      destruct (startProcess_returned now rnd childPid processType parameters w0
                  Hcap Hknown) as (w1 & Hstart).
      pose proof (stepAt_Some_range _ _ _ Hstep) as Hrange.
      assert (Hawaits : awaits0 = true).
      { unfold awaits0, awaitsExecutor. rewrite Hget0. simpl.
        destruct (Z.geb_spec (w_currentStep workflow)
                    (Z.of_nat (length (w_definition workflow)))); [lia|].
        by rewrite Hstep, Hstart. }
      assert (Hstep0 : exists w2,
                 step0 = (Returned tt,
                          with_pollers
                            (pollers w2 ++
                               [(workflowId,
                                 processType +:+ "-" +:+ showZ now +:+ "-" +:+ rnd)])
                            w2)).
      { unfold step0, _executeWorkflowStep. rewrite Hget0. simpl.
        destruct (Z.geb_spec (w_currentStep workflow)
                    (Z.of_nat (length (w_definition workflow)))); [lia|].
        rewrite Hstep, Hstart. by eauto. }
      destruct Hstep0 as (w2 & Hstep0).
      rewrite Hr, Hstep0, Hawaits. split; [done|]. cbn [snd]. simpl.
      apply elem_of_app. right. apply list_elem_of_singleton. done.
    + exists workflow'. rewrite Hsnd. split; [done|].
      destruct Hstate' as [-> | [-> | ->]]; discriminate.
  - intros w' _ (workflow & Hget & Hst) Hrun.
    destruct (freshRun_wfs_progress w w' Hrun workflowId workflow Hget)
      as (workflow' & Hget' & Hkeep & _).
    split; [exists workflow'; by auto|].
    intros now' rnd' childPid'. eapply Hrefuse; [exact Hget'|by auto].
Qed.

End WorkflowsProgress.

Lemma workflows_persist_and_only_advance_witness :
  let toISOString := fun _ : Z => "t" in
  let w := snd (createWorkflow (fun _ => []) scenarioTemplate (fun _ => [])
                  1000 "w" "evidence-collection" [] initialWorld) in
  let w' := snd (startWorkflow toISOString None 2000 "a" (Some 4242)
                   scenarioWorkflowId w) in
  exists workflow',
    workflowStates w' !! scenarioWorkflowId = Some workflow' /\
    0 <= w_currentStep workflow'.
Proof.
  intros toISOString w w'.
  assert (Hfresh : freshRun toISOString None (fun _ => []) scenarioTemplate
                     (fun _ => []) w).
  { apply rtc_once. split; [apply step_createWorkflow|].
    intros workflowId [workflow Hsome]. simpl in Hsome.
    by rewrite lookup_empty in Hsome. }
  destruct (proj1 (workflows_persist_and_only_advance toISOString None (fun _ => [])
                     scenarioTemplate (fun _ => []) w w' scenarioWorkflowId
                     {| w_id := scenarioWorkflowId; w_type := "evidence-collection";
                        w_parameters := []; w_definition := scenarioTemplate [];
                        w_currentStep := 0; w_state := created; w_processes := [];
                        w_startTime := 1000; w_updateTime := 1000;
                        w_endTime := None; w_error := None |}
                     Hfresh ltac:(vm_compute; reflexivity))
              (step_startWorkflow toISOString None (fun _ => []) scenarioTemplate
                 (fun _ => []) 2000 "a" (Some 4242) scenarioWorkflowId w))
    as [(now & rnd & workflowType & parameters & steps & _ & Hget)
       |(workflow' & Hget & _ & Hadv)].
  - eexists. split; [exact Hget|]. simpl. lia.
  - exists workflow'. split; [exact Hget|].
    assert (Hskips : skipsNonNegative (scenarioTemplate [])).
    { intros i name condition branch others n Hi.
      destruct i as [|[|i]]; simpl in Hi; discriminate. }
    destruct (Hadv Hskips) as (_ & _ & _ & _ & Hidx & _). exact Hidx.
Defined.

Lemma startWorkflow_starts_at_most_once_witness :
  let w := snd (createWorkflow (fun _ => []) scenarioTemplate (fun _ => [])
                  1000 "w" "evidence-collection" [] initialWorld) in
  let r := startWorkflow (fun _ => "t") None 2000 "a" (Some 4242) scenarioWorkflowId w in
  fst r = AwaitingStep /\
  (scenarioWorkflowId, "disk-imaging-2000-a") ∈ pollers (snd r) /\
  startWorkflow (fun _ => "t") None 2500 "b" (Some 4243) scenarioWorkflowId (snd r)
  = (Answered false, snd r).
Proof.
  intros w r.
  destruct (startWorkflow_starts_at_most_once (fun _ => "t") None (fun _ => [])
              scenarioTemplate (fun _ => []) 2000 "a" (Some 4242) scenarioWorkflowId w)
    as (_ & Hstart & _).
  destruct (Hstart {| w_id := scenarioWorkflowId; w_type := "evidence-collection";
                      w_parameters := []; w_definition := scenarioTemplate [];
                      w_currentStep := 0; w_state := created; w_processes := [];
                      w_startTime := 1000; w_updateTime := 1000;
                      w_endTime := None; w_error := None |}
              ltac:(vm_compute; reflexivity)) as (_ & Hcreated).
  destruct (Hcreated eq_refl) as (_ & _ & Hprocess & (workflow' & Hget' & Hst')).
  destruct (Hprocess "Image disk" "disk-imaging" [] eq_refl
              ltac:(vm_compute; reflexivity) ltac:(by eexists))
    as (Hanswer & Hpoller).
  split; [exact Hanswer|]. split; [exact Hpoller|].
  destruct (startWorkflow_starts_at_most_once (fun _ => "t") None (fun _ => [])
              scenarioTemplate (fun _ => []) 2500 "b" (Some 4243) scenarioWorkflowId
              (snd r))
    as (_ & Hagain & _).
  exact (proj1 (Hagain workflow' Hget') Hst').
Defined.

(** * Further properties of the decision tree *)

Lemma ruleAnomalousUser_filter anomalies :
  ruleAnomalousUser anomalies
  = map (fun rec => "[Alert] Suspicious user activity: user_id=" +:+ user_id rec)
      (filter (fun rec => anomaly_score rec = -1) anomalies).
Proof.
  unfold ruleAnomalousUser.
  induction anomalies as [|rec anomalies IH]; [done|]. simpl.
  rewrite filter_cons.
  destruct (Z.eqb_spec (anomaly_score rec) (-1)) as [He|Hne].
  - rewrite decide_True by done. simpl. by rewrite IH.
  - rewrite decide_False by done. simpl. exact IH.
Qed.

Lemma ruleOffHourKeyExtraction_filter Date_parse artifacts :
  ruleOffHourKeyExtraction Date_parse artifacts
  = map (fun a => offHourAlert (default 0 (getHour Date_parse (timestamp a))) a)
      (filter (fun a => offHoursKey Date_parse a = true) artifacts).
Proof.
  unfold ruleOffHourKeyExtraction.
  induction artifacts as [|a artifacts IH]; [done|]. simpl.
  rewrite filter_cons, IH. clear IH.
  destruct (offHoursKey Date_parse a) eqn:Hk.
  - rewrite decide_True by done. simpl. f_equal.
    unfold offHoursKey in Hk. apply andb_prop in Hk as [Hty Hh]. rewrite Hty.
    destruct (getHour Date_parse (timestamp a)) as [h|]; [|discriminate]. simpl.
    unfold WORK_HOUR_START, WORK_HOUR_END. by rewrite Hh.
  - rewrite decide_False by done.
    unfold offHoursKey in Hk.
    destruct (String.eqb (artifact_type a) "serpent_xts_key"); [|done].
    destruct (getHour Date_parse (timestamp a)) as [h|]; [|done]. simpl in *.
    unfold WORK_HOUR_START, WORK_HOUR_END. by rewrite Hk.
Qed.

(** The rule on one artifact, from the time value of its timestamp. *)
Lemma ruleOffHourKeyExtraction_one Date_parse a :
  ruleOffHourKeyExtraction Date_parse [a]
  = if String.eqb (artifact_type a) "serpent_xts_key" then
      match Date_parse (timestamp a) with
      | Some ms =>
          if ((ms / 3600000) mod 24 <? 8) || ((ms / 3600000) mod 24 >=? 18)
          then ["[Alert] Key extracted at off-hours (" +:+
                showZ ((ms / 3600000) mod 24) +:+ "h): snapshot=" +:+ snapshot_id a]
          else []
      | None => []
      end
    else [].
Proof.
  unfold ruleOffHourKeyExtraction, getHour, getUTCHours, offHourAlert,
    WORK_HOUR_START, WORK_HOUR_END.
  cbn [flat_map]. rewrite app_nil_r.
  destruct (String.eqb _ _); [|done].
  destruct (Date_parse (timestamp a)) as [ms|]; [|done].
  cbn [fmap option_fmap option_map]. by destruct (_ || _).
Qed.

(** X15. The off-hours rule over a whole artifact list, from the time
    values of the timestamps: the UTC hour of a time value [ms] is
    [(ms / 3600000) mod 24]. An artifact of the key type whose timestamp
    parses to an hour before 8 or from 18 on contributes exactly one alert,
    at its place in the list, quoting that hour and its snapshot. Every
    other artifact (another type, a timestamp that does not parse, an hour
    from 8 to 17) contributes nothing, whatever the rest of the list is.
    So the alerts are exactly those of the off-hours key artifacts of the
    list, and there are never more alerts than artifacts. *)
Theorem ruleOffHourKeyExtraction_alerts_exactly Date_parse :
  ruleOffHourKeyExtraction Date_parse [] = [] /\
  (forall a ms before after,
      artifact_type a = "serpent_xts_key" ->
      Date_parse (timestamp a) = Some ms ->
      (ms / 3600000) mod 24 < 8 \/ 18 <= (ms / 3600000) mod 24 ->
      ruleOffHourKeyExtraction Date_parse (before ++ a :: after)
      = ruleOffHourKeyExtraction Date_parse before
        ++ ["[Alert] Key extracted at off-hours (" +:+
            showZ ((ms / 3600000) mod 24) +:+ "h): snapshot=" +:+ snapshot_id a]
        ++ ruleOffHourKeyExtraction Date_parse after) /\
  (forall a before after,
      artifact_type a <> "serpent_xts_key" \/
      Date_parse (timestamp a) = None \/
      (exists ms, Date_parse (timestamp a) = Some ms /\
                  8 <= (ms / 3600000) mod 24 < 18) ->
      ruleOffHourKeyExtraction Date_parse (before ++ a :: after)
      = ruleOffHourKeyExtraction Date_parse before
        ++ ruleOffHourKeyExtraction Date_parse after) /\
  (forall artifacts line,
      line ∈ ruleOffHourKeyExtraction Date_parse artifacts
      <-> exists a ms,
            a ∈ artifacts /\
            artifact_type a = "serpent_xts_key" /\
            Date_parse (timestamp a) = Some ms /\
            ((ms / 3600000) mod 24 < 8 \/ 18 <= (ms / 3600000) mod 24) /\
            line = "[Alert] Key extracted at off-hours (" +:+
                   showZ ((ms / 3600000) mod 24) +:+ "h): snapshot=" +:+
                   snapshot_id a) /\
  (forall artifacts,
      (length (ruleOffHourKeyExtraction Date_parse artifacts) <= length artifacts)%nat).
Proof.
  assert (Halert : forall a ms,
             artifact_type a = "serpent_xts_key" ->
             Date_parse (timestamp a) = Some ms ->
             (ms / 3600000) mod 24 < 8 \/ 18 <= (ms / 3600000) mod 24 ->
             ruleOffHourKeyExtraction Date_parse [a]
             = ["[Alert] Key extracted at off-hours (" +:+
                showZ ((ms / 3600000) mod 24) +:+ "h): snapshot=" +:+ snapshot_id a]).
  { intros a ms Hty Hms Hoff. rewrite ruleOffHourKeyExtraction_one, Hty, Hms.
    generalize dependent ((ms / 3600000) mod 24). intros h Hoff.
    cbn [String.eqb Ascii.eqb Bool.eqb].
    by destruct (Z.ltb_spec h 8), (Z.geb_spec h 18); try lia. }
  assert (Hquiet : forall a,
             artifact_type a <> "serpent_xts_key" \/
             Date_parse (timestamp a) = None \/
             (exists ms, Date_parse (timestamp a) = Some ms /\
                         8 <= (ms / 3600000) mod 24 < 18) ->
             ruleOffHourKeyExtraction Date_parse [a] = []).
  { intros a Hskip. rewrite ruleOffHourKeyExtraction_one.
    destruct (String.eqb_spec (artifact_type a) "serpent_xts_key") as [Hty|Hty]; [|done].
    destruct Hskip as [Hno|[Hnone|(ms & Hms & Hin)]]; [done|by rewrite Hnone|].
    rewrite Hms. generalize dependent ((ms / 3600000) mod 24). intros h Hin.
    by destruct (Z.ltb_spec h 8), (Z.geb_spec h 18); try lia. }
  split; [done|]. split; [|split; [|split]].
  - intros a ms before after Hty Hms Hoff.
    rewrite ruleOffHourKeyExtraction_app. change (a :: after) with ([a] ++ after).
    by rewrite ruleOffHourKeyExtraction_app, (Halert a ms).
  - intros a before after Hskip.
    rewrite ruleOffHourKeyExtraction_app. change (a :: after) with ([a] ++ after).
    by rewrite ruleOffHourKeyExtraction_app, (Hquiet a).
  - intros artifacts line.
    induction artifacts as [|a artifacts IH].
    + split; [intros Hin; by apply elem_of_nil in Hin|].
      intros (a & ms & Hin & _). by apply elem_of_nil in Hin.
    + change (a :: artifacts) with ([a] ++ artifacts).
      rewrite ruleOffHourKeyExtraction_app, elem_of_app, IH. clear IH. split.
      * intros [Hhere|(a' & ms & Hin & Hrest)].
        -- rewrite ruleOffHourKeyExtraction_one in Hhere.
           destruct (String.eqb_spec (artifact_type a) "serpent_xts_key") as [Hty|Hty];
             [|by apply elem_of_nil in Hhere].
           destruct (Date_parse (timestamp a)) as [ms|] eqn:Hms;
             [|by apply elem_of_nil in Hhere].
           destruct (Z.ltb_spec ((ms / 3600000) mod 24) 8),
                    (Z.geb_spec ((ms / 3600000) mod 24) 18);
             cbn [orb] in Hhere; try (by apply elem_of_nil in Hhere);
             apply list_elem_of_singleton in Hhere;
             exists a, ms; (split; [apply list_elem_of_here|]);
             repeat split; try done; lia.
        -- exists a', ms. split; [by apply list_elem_of_further|done].
      * intros (a' & ms & Hin & Hty & Hms & Hoff & ->).
        apply elem_of_cons in Hin as [->|Hin].
        -- left. rewrite (Halert a ms) by done. apply list_elem_of_here.
        -- right. exists a', ms. by repeat split.
  - intros artifacts. rewrite ruleOffHourKeyExtraction_filter, length_map.
    apply length_filter.
Qed.

Lemma ruleOffHourKeyExtraction_alerts_exactly_witness :
  let Date_parse := fun isoTimestamp : string =>
    if String.eqb isoTimestamp "2024-05-01T03:00:00.000Z" then Some 1714532400000
    else if String.eqb isoTimestamp "2024-05-01T10:00:00.000Z" then Some 1714557600000
    else None in
  let other := {| artifact_type := "aes_key"; timestamp := "2024-05-01T03:00:00.000Z";
                  snapshot_id := "snap-1" |} in
  let night := {| artifact_type := "serpent_xts_key";
                  timestamp := "2024-05-01T03:00:00.000Z"; snapshot_id := "snap-2" |} in
  let day := {| artifact_type := "serpent_xts_key";
                timestamp := "2024-05-01T10:00:00.000Z"; snapshot_id := "snap-3" |} in
  let undated := {| artifact_type := "serpent_xts_key"; timestamp := "yesterday";
                    snapshot_id := "snap-4" |} in
  ruleOffHourKeyExtraction Date_parse ([other] ++ night :: [day; undated])
  = ["[Alert] Key extracted at off-hours (3h): snapshot=snap-2"].
Proof.
  intros Date_parse other night day undated.
  destruct (ruleOffHourKeyExtraction_alerts_exactly Date_parse)
    as (Hnil & Halert & Hquiet & _).
  assert (Hearly : (1714532400000 / 3600000) mod 24 < 8) by reflexivity.
  assert (Hmidday : 8 <= (1714557600000 / 3600000) mod 24 < 18)
    by (vm_compute; split; [discriminate|reflexivity]).
  assert (Htype : artifact_type other <> "serpent_xts_key") by discriminate.
  pose proof (Halert night 1714532400000 [other] [day; undated] eq_refl eq_refl
                (or_introl Hearly)) as Hnight.
  pose proof (Hquiet other [] [] (or_introl Htype)) as Hother.
  pose proof (Hquiet day [] [undated]
                (or_intror (or_intror
                   (ex_intro _ 1714557600000 (conj eq_refl Hmidday)))))
    as Hday.
  pose proof (Hquiet undated [] [] (or_intror (or_introl eq_refl))) as Hundated.
  cbn [app] in Hother, Hday, Hundated.
  rewrite Hnil in Hother, Hday, Hundated.
  rewrite Hnight, Hother, Hday, Hundated. reflexivity.
Defined.

Lemma warnings_app out1 out2 : warnings (out1 ++ out2) = warnings out1 ++ warnings out2.
Proof. unfold warnings. apply flat_map_app. Qed.

Lemma warnings_map_warn texts : warnings (map ConsoleWarn texts) = texts.
Proof.
  unfold warnings. induction texts as [|t texts IH]; [done|]. simpl. by rewrite IH.
Qed.

(** X16. [evaluate]: when both files load, the alerts on the console are the
    anomaly alerts, one for each record whose score is -1 and in the order
    of the file, followed by the off-hours alerts; their number is the
    number of flagged users plus the number of off-hours key artifacts.
    When the anomaly file cannot be loaded the call throws before any
    rule has run: no alert at all is written, whatever the artifact file
    holds. When only the artifact file fails, the anomaly alerts have
    already been written. *)
Theorem evaluate_alerts Date_parse anomalyData artifactData :
  (forall anomalies artifacts,
      anomalyData = Returned anomalies -> artifactData = Returned artifacts ->
      fst (evaluate Date_parse anomalyData artifactData) = Returned tt /\
      warnings (snd (evaluate Date_parse anomalyData artifactData))
      = map (fun rec => "[Alert] Suspicious user activity: user_id=" +:+ user_id rec)
          (filter (fun rec => anomaly_score rec = -1) anomalies)
        ++ ruleOffHourKeyExtraction Date_parse artifacts /\
      length (warnings (snd (evaluate Date_parse anomalyData artifactData)))
      = (length (filter (fun rec => anomaly_score rec = (-1)%Z) anomalies)
         + length (filter (fun a => offHoursKey Date_parse a = true) artifacts))%nat) /\
  (forall e,
      anomalyData = Thrown e ->
      fst (evaluate Date_parse anomalyData artifactData) = Thrown e /\
      warnings (snd (evaluate Date_parse anomalyData artifactData)) = []) /\
  (forall anomalies e,
      anomalyData = Returned anomalies -> artifactData = Thrown e ->
      fst (evaluate Date_parse anomalyData artifactData) = Thrown e /\
      warnings (snd (evaluate Date_parse anomalyData artifactData))
      = ruleAnomalousUser anomalies).
Proof.
  split; [|split].
  - intros anomalies artifacts -> ->. unfold evaluate. simpl.
    rewrite !warnings_app, !warnings_map_warn. simpl.
    rewrite app_nil_r, ruleAnomalousUser_filter. split; [done|]. split; [done|].
    rewrite length_app, length_map, ruleOffHourKeyExtraction_filter, length_map.
    done.
  - by intros e ->.
  - intros anomalies e -> ->. unfold evaluate. simpl.
    rewrite !warnings_app, !warnings_map_warn. simpl. by rewrite app_nil_r.
Qed.

Lemma evaluate_alerts_witness :
  warnings (snd (evaluate (fun _ => Some 10800000)
                   (Returned [{| user_id := "u1"; anomaly_score := -1 |};
                              {| user_id := "u2"; anomaly_score := 1 |}])
                   (Thrown "ENOENT")))
  = ["[Alert] Suspicious user activity: user_id=u1"].
Proof.
  destruct (evaluate_alerts (fun _ => Some 10800000)
              (Returned [{| user_id := "u1"; anomaly_score := -1 |};
                         {| user_id := "u2"; anomaly_score := 1 |}])
              (Thrown "ENOENT")) as (_ & _ & Hfail).
  destruct (Hfail _ _ eq_refl eq_refl) as (_ & Hw). rewrite Hw. reflexivity.
Defined.

(** * Properties of the dashboard's data preparation *)

(** ** [prepareAnomalyData] *)

Section AnomalyData.

Variable Date_parse : string -> option Z.

Lemma countByHour_fold (records : list LogRecord) : forall (acc : gmap (option Z) nat) k,
  default 0%nat
    (fold_left
       (fun byHour a =>
          let h := getHour Date_parse (l_timestamp a) in
          <[h := (default 0 (byHour !! h) + 1)%nat]> byHour)
       records acc !! k)
  = (default 0 (acc !! k)
     + length (filter (fun a => getHour Date_parse (l_timestamp a) = k) records))%nat.
Proof.
  induction records as [|a records IH]; intros acc k; simpl; [lia|].
  rewrite IH, filter_cons.
  destruct (decide (getHour Date_parse (l_timestamp a) = k)) as [He|Hne].
  - rewrite He, lookup_insert_eq. simpl. lia.
  - rewrite lookup_insert_ne by done. lia.
Qed.

Lemma getUTCHours_range ms : 0 <= getUTCHours ms < 24.
Proof. unfold getUTCHours. apply Z.mod_pos_bound. lia. Qed.

Lemma sum_indicator (x : option Z) (hs : list Z) :
  NoDup hs ->
  sum_list (map (fun h => if decide (x = Some h) then 1 else 0)%nat hs)
  = match x with
    | Some h => if decide (h ∈ hs) then 1%nat else 0%nat
    | None => 0%nat
    end.
Proof.
  induction 1 as [|h hs Hnot Hnd IH]; simpl.
  - destruct x as [y|]; [|done].
    destruct (decide (y ∈ [])) as [Hin|]; [by apply elem_of_nil in Hin|done].
  - rewrite IH. destruct x as [y|]; [|by destruct (decide (None = Some h))].
    destruct (decide (Some y = Some h)) as [[= ->]|Hne].
    + destruct (decide (h ∈ hs)); [done|].
      destruct (decide (h ∈ h :: hs)) as [|Hn]; [done|].
      exfalso. apply Hn, list_elem_of_here.
    + destruct (decide (y ∈ hs)) as [Hin|Hnin].
      * destruct (decide (y ∈ h :: hs)) as [|Hn]; [done|].
        exfalso. by apply Hn, list_elem_of_further.
      * destruct (decide (y ∈ h :: hs)) as [Hin|]; [|done].
        apply elem_of_cons in Hin as [->|]; [by exfalso; apply Hne|done].
Qed.

Lemma sum_counts (records : list LogRecord) :
  sum_list
    (map (fun h =>
            length (filter (fun a => getHour Date_parse (l_timestamp a) = Some h) records))
       (seqZ 0 24))
  = length (filter (fun a => is_Some (Date_parse (l_timestamp a))) records).
Proof.
  generalize (NoDup_seqZ 0 24).
  assert (Hall : forall ms, getUTCHours ms ∈ seqZ 0 24).
  { intros ms. apply elem_of_seqZ. pose proof (getUTCHours_range ms). lia. }
  revert Hall. generalize (seqZ 0 24). intros hs Hall Hnd.
  induction records as [|a records IH].
  - simpl. clear. induction hs as [|h hs IHh]; [done|]. simpl. apply IHh.
  - assert (Hsplit :
      sum_list
        (map (fun h =>
                length (filter (fun a => getHour Date_parse (l_timestamp a) = Some h)
                          (a :: records))) hs)
      = (sum_list
           (map (fun h =>
                   if decide (getHour Date_parse (l_timestamp a) = Some h)
                   then 1 else 0)%nat hs)
         + sum_list
             (map (fun h =>
                     length (filter (fun a => getHour Date_parse (l_timestamp a) = Some h)
                               records)) hs))%nat).
    { clear. induction hs as [|h hs IHh]; [done|]. simpl. rewrite IHh, filter_cons.
      destruct (decide (getHour Date_parse (l_timestamp a) = Some h)); simpl; lia. }
    rewrite Hsplit, IH, sum_indicator by done. rewrite filter_cons.
    unfold getHour. destruct (Date_parse (l_timestamp a)) as [ms|]; simpl.
    + destruct (decide (getUTCHours ms ∈ hs)) as [|Hn]; [|exfalso; apply Hn, Hall].
      destruct (decide (is_Some (Some ms))) as [|Hn]; [done|].
      exfalso. apply Hn. by eexists.
    + destruct (decide (is_Some (@None Z))) as [[? ?]|]; done.
Qed.

(** X17. [prepareAnomalyData] returns the hours 0 to 23 and, beside them, 24
    counts: the count at hour [h] is the number of records whose
    [anomaly] field is [true] and whose timestamp falls in UTC hour [h].
    The counts add up to the number of anomalous records whose timestamp
    parses; an anomalous record with an unparseable timestamp is counted
    nowhere, and a record that is not anomalous never is. *)
Theorem prepareAnomalyData_counts_by_hour (logs : list LogRecord) :
  fst (prepareAnomalyData Date_parse logs) = seqZ 0 24 /\
  length (snd (prepareAnomalyData Date_parse logs)) = 24%nat /\
  (forall h,
      0 <= h < 24 ->
      snd (prepareAnomalyData Date_parse logs) !! Z.to_nat h
      = Some (length (filter (fun a => getHour Date_parse (l_timestamp a) = Some h)
                        (filter (fun l => l_anomaly l = true) logs)))) /\
  sum_list (snd (prepareAnomalyData Date_parse logs))
  = length (filter (fun a => is_Some (Date_parse (l_timestamp a)))
              (filter (fun l => l_anomaly l = true) logs)).
Proof.
  unfold prepareAnomalyData, hours24, countByHour. cbn [fst snd].
  set (records := filter (fun l => l_anomaly l = true) logs).
  assert (Hcount : forall h,
             default 0%nat
               (fold_left
                  (fun byHour a =>
                     let h := getHour Date_parse (l_timestamp a) in
                     <[h := (default 0 (byHour !! h) + 1)%nat]> byHour)
                  records (∅ : gmap (option Z) nat) !! Some h)
             = length (filter (fun a => getHour Date_parse (l_timestamp a) = Some h)
                         records)).
  { intros h. rewrite countByHour_fold, lookup_empty. done. }
  split; [done|]. split; [by rewrite length_map, length_seqZ|]. split.
  - intros h Hh. rewrite list_lookup_fmap.
    rewrite (lookup_seqZ_lt 0 24 (Z.to_nat h)) by lia. simpl.
    replace (0 + Z.of_nat (Z.to_nat h)) with h by lia. by rewrite Hcount.
  - rewrite (map_ext _ (fun h =>
               length (filter (fun a => getHour Date_parse (l_timestamp a) = Some h)
                         records)) Hcount).
    apply sum_counts.
Qed.

End AnomalyData.

Lemma prepareAnomalyData_counts_by_hour_witness :
  snd (prepareAnomalyData (fun _ => Some 10800000)
         [{| l_timestamp := "2024-05-01T03:00:00.000Z"; l_memory_ref := None;
             l_file_id := "f1"; l_action := "read"; l_user_id := "u1";
             l_session_id := "s1"; l_anomaly := true |}]) !! Z.to_nat 3
  = Some 1%nat.
Proof.
  rewrite (proj1 (proj2 (proj2 (prepareAnomalyData_counts_by_hour
                                  (fun _ => Some 10800000) _))) 3 ltac:(lia)).
  reflexivity.
Defined.

(** ** [prepareFlowData] *)

Section FlowData.

Variable inherited : string -> bool.

Lemma addNode_inv seen id label type st :
  flow_inv inherited seen st ->
  flow_inv inherited (seen ++ [id]) (addNode inherited id label type st).
Proof.
  intros (Hnd & Hids & Hmap). unfold addNode.
  destruct (inherited id) eqn:Hinh.
  - split; [done|]. split; [|done]. intros x. rewrite Hids, elem_of_app, list_elem_of_singleton.
    split; [intros [? ?]; auto|]. intros [Hx [?| ->]]; [done|congruence].
  - destruct (f_nodeMap st !! id) as [node|] eqn:Hget.
    + assert (Hin : id ∈ map n_id (f_nodes st)) by (apply Hmap; by eexists).
      split; [done|]. split; [|done].
      intros x. rewrite Hids, elem_of_app, list_elem_of_singleton.
      split; [intros [? ?]; auto|]. intros [Hx [?| ->]]; [done|]. by apply Hids.
    + assert (Hnin : id ∉ map n_id (f_nodes st)).
      { intros Hin. apply Hmap in Hin as [? ?]. congruence. }
      unfold flow_inv. simpl. rewrite map_app. simpl. split; [|split].
      * apply NoDup_app. split; [done|]. split; [|apply NoDup_singleton].
        intros x Hx Hx'. apply list_elem_of_singleton in Hx' as ->. done.
      * intros x. rewrite !elem_of_app, !list_elem_of_singleton, Hids.
        split; [intros [[? ?]| ->]; auto|]. intros [Hx [?| ->]]; auto.
      * intros x. rewrite elem_of_app, list_elem_of_singleton, <- Hmap.
        destruct (decide (id = x)) as [->|Hne].
        -- rewrite lookup_insert_eq. split; [auto|by eexists].
        -- rewrite lookup_insert_ne by done. split; [auto|]. intros [?| ->]; done.
Qed.

Lemma pushLink_inv seen source target weight st :
  flow_inv inherited seen st -> flow_inv inherited seen (pushLink source target weight st).
Proof. done. Qed.

Lemma flowFile_fold enc : forall seen st,
  flow_inv inherited seen st ->
  flow_inv inherited (seen ++ map e_file_id enc) (fold_left (flowFile inherited) enc st) /\
  f_links (fold_left (flowFile inherited) enc st) = f_links st.
Proof.
  induction enc as [|f enc IH]; intros seen st Hinv; simpl.
  - by rewrite app_nil_r.
  - destruct (IH (seen ++ [e_file_id f]) (flowFile inherited st f)) as [Hi Hl].
    { by apply addNode_inv. }
    rewrite <- app_assoc in Hi. split; [exact Hi|]. rewrite Hl.
    unfold flowFile, addNode. destruct (inherited _); [done|].
    by destruct (f_nodeMap st !! _).
Qed.

Lemma addNode_links id label type st :
  f_links (addNode inherited id label type st) = f_links st.
Proof.
  unfold addNode. destruct (inherited _); [done|]. by destruct (f_nodeMap st !! _).
Qed.

Lemma flowLog_fold logs : forall seen st,
  flow_inv inherited seen st ->
  flow_inv inherited
    (seen ++ flat_map (fun l => [l_session_id l; l_user_id l]) logs)
    (fold_left (flowLog inherited) logs st) /\
  length (f_links (fold_left (flowLog inherited) logs st))
  = (length (f_links st) + 2 * length logs)%nat.
Proof.
  induction logs as [|l logs IH]; intros seen st Hinv; simpl.
  - rewrite app_nil_r. split; [done|lia].
  - destruct (IH ((seen ++ [l_session_id l]) ++ [l_user_id l]) (flowLog inherited st l))
      as [Hi Hl].
    { unfold flowLog. do 2 apply pushLink_inv. by do 2 apply addNode_inv. }
    rewrite <- !app_assoc in Hi. split; [exact Hi|]. rewrite Hl.
    unfold flowLog. simpl. rewrite !length_app, !addNode_links. simpl. lia.
Qed.

Lemma flowMeta_fold meta : forall seen st,
  flow_inv inherited seen st ->
  flow_inv inherited (seen ++ map metaNodeId meta)
    (fold_left (flowMeta inherited) meta st) /\
  length (f_links (fold_left (flowMeta inherited) meta st))
  = (length (f_links st) + 2 * length meta)%nat.
Proof.
  induction meta as [|m meta IH]; intros seen st Hinv; simpl.
  - rewrite app_nil_r. split; [done|lia].
  - destruct (IH (seen ++ [metaNodeId m]) (flowMeta inherited st m)) as [Hi Hl].
    { unfold flowMeta. do 2 apply pushLink_inv. by apply addNode_inv. }
    rewrite <- !app_assoc in Hi. split; [exact Hi|]. rewrite Hl.
    unfold flowMeta. simpl. rewrite !length_app, !addNode_links. simpl. lia.
Qed.

(** X18. [prepareFlowData] never returns two nodes with the same id. The ids
    of its nodes are exactly the file ids, the session and user ids of the
    log records and the ids built for the metadata records, except those
    that are names every object inherits (for these no node is made). It
    returns two links for each log record and two for each metadata
    record, whether or not their end points are nodes. *)
Theorem prepareFlowData_nodes_are_distinct
    (enc : list EncRecord) (logs : list LogRecord) (meta : list MetaRecord) :
  let nodes := fst (prepareFlowData inherited enc logs meta) in
  let links := snd (prepareFlowData inherited enc logs meta) in
  NoDup (map n_id nodes) /\
  (forall id,
      id ∈ map n_id nodes
      <-> inherited id = false /\
          (id ∈ map e_file_id enc \/ id ∈ map l_session_id logs
           \/ id ∈ map l_user_id logs \/ id ∈ map metaNodeId meta)) /\
  length links = (2 * length logs + 2 * length meta)%nat.
Proof.
  unfold prepareFlowData. cbn [fst snd].
  set (st0 := {| f_nodes := []; f_links := []; f_nodeMap := ∅ |}).
  assert (Hinv0 : flow_inv inherited [] st0).
  { split; [apply NoDup_nil; done|]. split.
    - intros id. simpl. split; [intros H; by apply elem_of_nil in H|].
      intros [_ H]. by apply elem_of_nil in H.
    - intros id. simpl. rewrite lookup_empty. split; [intros [? ?]; done|].
      intros H. by apply elem_of_nil in H. }
  destruct (flowFile_fold enc [] st0 Hinv0) as [Hinv1 Hl1].
  destruct (flowLog_fold logs _ _ Hinv1) as [Hinv2 Hl2].
  destruct (flowMeta_fold meta _ _ Hinv2) as [(Hnd & Hids & _) Hl3].
  split; [exact Hnd|]. split.
  - intros id. rewrite Hids. simpl. rewrite !elem_of_app.
    assert (Hflat : id ∈ flat_map (fun l => [l_session_id l; l_user_id l]) logs
                    <-> id ∈ map l_session_id logs \/ id ∈ map l_user_id logs).
    { clear. induction logs as [|l logs IH]; simpl.
      - split; [intros H; by apply elem_of_nil in H|].
        intros [H|H]; by apply elem_of_nil in H.
      - rewrite !elem_of_cons, IH. tauto. }
    rewrite Hflat. tauto.
  - rewrite Hl3, Hl2, Hl1. simpl. lia.
Qed.

End FlowData.

(** ** [prepareTimelineData] *)

Section TimelineData.

Variable Date_parse : string -> option Z.

Lemma insertEvent_Permutation e sorted :
  insertEvent Date_parse e sorted ≡ₚ e :: sorted.
Proof.
  induction sorted as [|x rest IH]; simpl; [done|].
  destruct (earlier Date_parse e x); [done|].
  rewrite IH. apply Permutation_swap.
Qed.

Lemma sortEvents_fold_Permutation events : forall acc,
  fold_left (fun sorted e => insertEvent Date_parse e sorted) events acc ≡ₚ acc ++ events.
Proof.
  induction events as [|e events IH]; intros acc; simpl.
  - by rewrite app_nil_r.
  - rewrite IH, insertEvent_Permutation.
    by rewrite (Permutation_middle acc events e).
Qed.

Lemma insertEvent_sorted e sorted :
  is_Some (Date_parse (ev_timestamp e)) ->
  Forall (fun x => is_Some (Date_parse (ev_timestamp x))) sorted ->
  StronglySorted (notLater Date_parse) sorted ->
  StronglySorted (notLater Date_parse) (insertEvent Date_parse e sorted).
Proof.
  intros [te Hte] Hall Hs.
  induction Hs as [|x rest Hrest IH Hx]; simpl.
  - repeat constructor.
  - apply Forall_cons in Hall as [[tx Htx] Hall].
    unfold earlier. rewrite Hte, Htx.
    destruct (Z.ltb_spec te tx) as [Hlt|Hge].
    + constructor; [by constructor|].
      constructor; [exists te, tx; repeat split; auto; lia|].
      eapply Forall_impl; [exact Hx|].
      intros y (tx' & ty & Hx' & Hy & Hle). exists te, ty.
      repeat split; auto. rewrite Htx in Hx'. injection Hx' as <-. lia.
    + constructor; [by apply IH|].
      rewrite insertEvent_Permutation. constructor; [|done].
      exists tx, te. repeat split; auto.
Qed.

Lemma sortEvents_fold_sorted events : forall acc,
  Forall (fun x => is_Some (Date_parse (ev_timestamp x))) events ->
  Forall (fun x => is_Some (Date_parse (ev_timestamp x))) acc ->
  StronglySorted (notLater Date_parse) acc ->
  StronglySorted (notLater Date_parse)
    (fold_left (fun sorted e => insertEvent Date_parse e sorted) events acc).
Proof.
  induction events as [|e events IH]; intros acc Hev Hacc Hs; simpl; [done|].
  apply Forall_cons in Hev as [He Hev].
  apply IH; [done| |by apply insertEvent_sorted].
  rewrite insertEvent_Permutation. by constructor.
Qed.

(** X19. When every timestamp of the log and metadata records parses,
    [prepareTimelineData] returns a rearrangement of the events it built
    (one memory event for each log record with a memory reference, one log
    event for each log record, one metadata event for each metadata
    record: nothing lost, nothing added) in which no event comes before
    an earlier one. *)
Theorem prepareTimelineData_sorted (logs : list LogRecord) (meta : list MetaRecord) :
  Forall (fun l => is_Some (Date_parse (l_timestamp l))) logs ->
  Forall (fun m => is_Some (Date_parse (m_timestamp m))) meta ->
  prepareTimelineData Date_parse logs meta ≡ₚ timelineEvents logs meta /\
  length (prepareTimelineData Date_parse logs meta)
  = (length (filter (fun l => truthy_string (l_memory_ref l) = true) logs)
     + length logs + length meta)%nat /\
  StronglySorted (notLater Date_parse) (prepareTimelineData Date_parse logs meta).
Proof.
  intros Hlogs Hmeta. unfold prepareTimelineData, sortEvents.
  assert (Hperm : fold_left (fun sorted e => insertEvent Date_parse e sorted)
                    (timelineEvents logs meta) [] ≡ₚ timelineEvents logs meta)
    by apply (sortEvents_fold_Permutation _ []).
  split; [exact Hperm|]. split.
  - rewrite Hperm. unfold timelineEvents. rewrite !length_app, !length_map. lia.
  - apply sortEvents_fold_sorted; [|constructor|constructor].
    unfold timelineEvents. rewrite !Forall_app, !Forall_map. simpl.
    split; [|split]; [|done|done].
    apply Forall_forall. intros l Hin. apply list_elem_of_filter in Hin as [_ Hin].
    by eapply Forall_forall in Hlogs.
Qed.

End TimelineData.

Lemma prepareTimelineData_sorted_witness :
  let logs :=
    [{| l_timestamp := "2024-05-01T03:00:00.000Z"; l_memory_ref := Some "0x7f";
        l_file_id := "f1"; l_action := "read"; l_user_id := "u1";
        l_session_id := "s1"; l_anomaly := true |}] in
  let meta :=
    [{| m_timestamp := "2024-05-01T03:00:00.000Z"; m_file_id := "f1";
        m_session_id := "s1"; m_size := 10 |}] in
  length (prepareTimelineData (fun _ => Some 10800000) logs meta) = 3%nat.
Proof.
  intros logs meta.
  rewrite (proj1 (proj2 (prepareTimelineData_sorted (fun _ => Some 10800000) logs meta
                           ltac:(repeat constructor; by eexists)
                           ltac:(repeat constructor; by eexists)))).
  reflexivity.
Defined.

(** * Properties of the routes *)

(** ** Paging through a process's log *)

Lemma slice_take_drop {A} (l : list A) (start n : Z) :
  0 <= start -> 0 <= n ->
  slice l start (start + n) = take (Z.to_nat n) (drop (Z.to_nat start) l).
Proof.
  intros Hs Hn. unfold slice.
  destruct (Z.ltb_spec start 0); [lia|]. destruct (Z.ltb_spec (start + n) 0); [lia|].
  destruct (Z.le_gt_cases (Z.of_nat (length l)) start) as [Hge|Hlt].
  - rewrite Z.min_r by lia. rewrite Z.min_r by lia.
    rewrite !drop_ge by lia. by rewrite !take_nil.
  - rewrite (Z.min_l start) by lia.
    destruct (Z.le_gt_cases (start + n) (Z.of_nat (length l))) as [Hin|Hout].
    + rewrite Z.min_l by lia. f_equal. lia.
    + rewrite Z.min_r by lia.
      rewrite (take_ge (drop (Z.to_nat start) l) (Z.to_nat n))
        by (rewrite length_drop; lia).
      apply take_ge. rewrite length_drop. lia.
Qed.

Lemma ceilDiv_bounds a b :
  0 < b -> a <= ceilDiv a b * b < a + b.
Proof.
  intros Hb. unfold ceilDiv.
  pose proof (Z.div_mod (- a) b ltac:(lia)) as Hdm.
  pose proof (Z.mod_pos_bound (- a) b Hb) as Hm. nia.
Qed.

Lemma concat_pages {A} (l : list A) (k : nat) : forall n,
  concat (map (fun i => take k (drop (i * k) l)) (seq 0 n)) = take (n * k) l.
Proof.
  induction n as [|n IH]; [done|].
  rewrite seq_S, map_app, concat_app, IH. simpl. rewrite app_nil_r.
  replace (k + n * k)%nat with (n * k + k)%nat by lia.
  by rewrite take_take_drop.
Qed.

(** X13. [GET /processes/:id/logs]. The answer is 404 exactly when the id is
    not in the registry (its log buffer may still exist). Otherwise, for
    a page number and a page size of at least 1, the answer holds the
    buffer's entries from position [(page-1)*limit] on, at most [limit] of
    them; [totalPages] is the least number of pages that covers the
    buffer; a page beyond it is empty; and the pages 1 to [totalPages],
    put one after the other, are the buffer itself. With the default page
    size of 100 a buffer within its bound of 1000 has at most 10 pages. *)
Theorem processLogsRoute_pages_partition_the_buffer now processId w :
  (activeProcesses w !! processId = None ->
   forall pageQuery limitQuery,
     processLogsRoute now pageQuery limitQuery processId w = None) /\
  (forall processInfo pageQuery limitQuery,
      activeProcesses w !! processId = Some processInfo ->
      1 <= parsedOr pageQuery 1 -> 1 <= parsedOr limitQuery 100 ->
      exists answer,
        processLogsRoute now pageQuery limitQuery processId w = Some answer /\
        pg_page answer = parsedOr pageQuery 1 /\
        pg_limit answer = parsedOr limitQuery 100 /\
        pg_totalLogs answer = Z.of_nat (length (logsOf processId w)) /\
        pg_logs answer
        = take (Z.to_nat (pg_limit answer))
            (drop (Z.to_nat ((pg_page answer - 1) * pg_limit answer))
               (logsOf processId w)) /\
        Z.of_nat (length (pg_logs answer)) <= pg_limit answer /\
        pg_totalLogs answer <= pg_totalPages answer * pg_limit answer
        < pg_totalLogs answer + pg_limit answer /\
        (pg_totalPages answer < pg_page answer -> pg_logs answer = []) /\
        concat (map (pageLogs now limitQuery processId w)
                  (seqZ 1 (pg_totalPages answer)))
        = logsOf processId w /\
        (logs_bounded w -> limitQuery = None -> pg_totalPages answer <= 10)).
Proof.
  split.
  - intros Hget pageQuery limitQuery. unfold processLogsRoute, getProcessStatus.
    by rewrite Hget.
  - intros processInfo pageQuery limitQuery Hget Hpage Hlimit.
    set (page := parsedOr pageQuery 1) in *. set (limit := parsedOr limitQuery 100) in *.
    set (logs := logsOf processId w).
    assert (Hroute : forall pq,
               processLogsRoute now pq limitQuery processId w
               = Some {| pg_page := parsedOr pq 1; pg_limit := limit;
                         pg_totalLogs := Z.of_nat (length logs);
                         pg_totalPages := ceilDiv (Z.of_nat (length logs)) limit;
                         pg_logs := slice logs ((parsedOr pq 1 - 1) * limit)
                                      (parsedOr pq 1 * limit) |}).
    { intros pq. unfold processLogsRoute, getProcessStatus. by rewrite Hget. }
    assert (Hslice : forall p, 1 <= p ->
               slice logs ((p - 1) * limit) (p * limit)
               = take (Z.to_nat limit) (drop (Z.to_nat ((p - 1) * limit)) logs)).
    { intros p Hp. replace (p * limit) with ((p - 1) * limit + limit) by lia.
      apply slice_take_drop; nia. }
    pose proof (ceilDiv_bounds (Z.of_nat (length logs)) limit ltac:(lia)) as Hceil.
    eexists. split; [apply Hroute|]. cbn [pg_page pg_limit pg_totalLogs pg_totalPages pg_logs].
    fold page. rewrite (Hslice page Hpage).
    split; [done|]. split; [done|]. split; [done|]. split; [done|].
    split; [rewrite length_take; lia|]. split; [exact Hceil|]. split; [|split].
    + intros Hbeyond. rewrite drop_ge; [apply take_nil|]. nia.
    + assert (Htotal : 0 <= ceilDiv (Z.of_nat (length logs)) limit) by nia.
      unfold seqZ. rewrite <- list_fmap_compose.
      rewrite (list_fmap_ext _
                 (fun i : nat => take (Z.to_nat limit) (drop (i * Z.to_nat limit) logs))).
      * change (fmap ?f ?l) with (map f l).
        rewrite concat_pages. apply take_ge.
        rewrite <- Z2Nat.inj_mul by lia. lia.
      * intros _ i _. simpl. unfold pageLogs. rewrite Hroute.
        cbn [pg_logs].
        assert (Hp : parsedOr (Some (Z.of_nat i + 1)) 1 = Z.of_nat i + 1).
        { unfold parsedOr. destruct (Z.eqb_spec (Z.of_nat i + 1) 0); lia. }
        rewrite Hp, Hslice by lia. do 2 f_equal.
        replace (Z.of_nat i + 1 - 1) with (Z.of_nat i) by lia.
        rewrite Z2Nat.inj_mul, Nat2Z.id by lia. done.
    + intros Hb ->. pose proof (logs_bounded_logsOf w processId Hb) as Hlen.
      fold logs in Hlen. subst limit. simpl in *. lia.
Qed.

Lemma processLogsRoute_pages_partition_the_buffer_witness :
  let w := snd (startProcess (fun _ => "t") None 10 "a" (Some 4242)
                  "log-analysis" [] initialWorld) in
  exists answer,
    processLogsRoute 20 (Some 2) (Some 2) "log-analysis-10-a" w = Some answer /\
    pg_logs answer = ["[t] Process started with PID 4242"] /\
    pg_totalPages answer = 2.
Proof.
  intros w.
  destruct (proj2 (processLogsRoute_pages_partition_the_buffer 20 "log-analysis-10-a" w)
              {| p_type := "log-analysis"; p_parameters := []; p_state := RUNNING;
                 p_startTime := 10; p_updateTime := 10; p_progress := 0;
                 p_pid := Some 4242; p_endTime := None; p_error := None |}
              (Some 2) (Some 2) ltac:(vm_compute; reflexivity)
              ltac:(vm_compute; discriminate) ltac:(vm_compute; discriminate))
    as (answer & Hroute & _).
  exists answer. split; [exact Hroute|].
  vm_compute in Hroute. injection Hroute as <-. split; reflexivity.
Defined.

(** ** Stopping everything *)

Lemma stopWorkflow_effect toISOString now oracle workflowId w :
  let w' := snd (stopWorkflow toISOString now oracle workflowId w) in
  dom (activeProcesses w') = dom (activeProcesses w) /\
  (forall other, other <> workflowId ->
      workflowStates w' !! other = workflowStates w !! other) /\
  (forall workflow,
      workflowStates w !! workflowId = Some workflow ->
      w_state workflow = running \/ w_state workflow = stopped ->
      exists workflow',
        workflowStates w' !! workflowId = Some workflow' /\
        w_state workflow' = stopped).
Proof.
  cbv zeta. unfold stopWorkflow.
  destruct (workflowStates w !! workflowId) as [workflow|] eqn:Hget; [|done].
  destruct (bool_decide (w_state workflow = completed) || bool_decide (w_state workflow = failed))
    eqn:Hterminal.
  - simpl. split; [done|]. split; [done|]. intros ? [= <-] [Hst|Hst];
      rewrite Hst in Hterminal; discriminate.
  - match goal with
    | |- context [fold_left ?f ?l ?w0] =>
        destruct (stopAll_effect toISOString now oracle l w0)
          as (Hwf & _ & Hdom & _ & _);
        set (w2 := fold_left f l w0) in *
    end.
    assert (Hget2 : workflowStates w2 !! workflowId
                    = Some (wf_set_updateTime now (wf_set_state stopping workflow)))
      by (rewrite Hwf; simpl; apply lookup_insert_eq).
    rewrite Hget2. simpl. split; [exact Hdom|]. split.
    + intros other Hne. rewrite lookup_insert_ne by done. rewrite Hwf. simpl.
      by rewrite lookup_insert_ne.
    + intros ? _ _. eexists. split; [apply lookup_insert_eq|done].
Qed.

Lemma stopWorkflows_effect toISOString now oracle workflowIds : forall w,
  let w' :=
    fold_left
      (fun w workflowId => snd (stopWorkflow toISOString now oracle workflowId w))
      workflowIds w in
  dom (activeProcesses w') = dom (activeProcesses w) /\
  (forall workflowId, workflowId ∉ workflowIds ->
      workflowStates w' !! workflowId = workflowStates w !! workflowId) /\
  (forall workflowId workflow,
      workflowId ∈ workflowIds ->
      workflowStates w !! workflowId = Some workflow ->
      w_state workflow = running \/ w_state workflow = stopped ->
      exists workflow',
        workflowStates w' !! workflowId = Some workflow' /\
        w_state workflow' = stopped).
Proof.
  induction workflowIds as [|first rest IH]; intros w; simpl.
  - split; [done|]. split; [done|]. intros ? ? Hin. by apply elem_of_nil in Hin.
  - set (w1 := snd (stopWorkflow toISOString now oracle first w)).
    destruct (IH w1) as (Hdom & Hother & Hstopped).
    destruct (stopWorkflow_effect toISOString now oracle first w) as (Hdom1 & Hother1 & Hfirst).
    fold w1 in Hdom1, Hother1, Hfirst.
    split; [congruence|]. split.
    + intros workflowId Hnot. apply not_elem_of_cons in Hnot as [Hne Hnot].
      rewrite Hother by done. by apply Hother1.
    + intros workflowId workflow Hin Hget Hst.
      assert (Hw1 : exists workflow1,
                 workflowStates w1 !! workflowId = Some workflow1 /\
                 (w_state workflow1 = running \/ w_state workflow1 = stopped)).
      { destruct (decide (workflowId = first)) as [->|Hne].
        - destruct (Hfirst workflow Hget Hst) as (workflow1 & Hget1 & Hst1). eauto.
        - exists workflow. rewrite Hother1 by done. auto. }
      destruct Hw1 as (workflow1 & Hget1 & Hst1).
      destruct (decide (workflowId ∈ rest)) as [Hrest|Hrest].
      * by eapply Hstopped.
      * rewrite Hother by done.
        apply elem_of_cons in Hin as [->|Hin]; [|done].
        destruct (Hfirst workflow Hget Hst) as (workflow' & Hget' & Hst'). eauto.
Qed.

(** X14. [POST /simulation/stop], when the two listings enumerate the whole
    registries: afterwards the process registry holds the same ids as
    before and every one of its records is [COMPLETED] or [ERROR], whatever
    the kills and the cleanups met; every workflow that was [running] is
    [stopped]; and every other workflow, one that was only [created]
    included, is exactly as it was. *)
Theorem simulationStop_leaves_nothing_running toISOString now
    workflowOracle processOracle workflowListing processListing w :
  (forall processId,
      is_Some (activeProcesses w !! processId) -> processId ∈ processListing) ->
  (forall workflowId,
      is_Some (workflowStates w !! workflowId) -> workflowId ∈ workflowListing) ->
  let w' := simulationStop toISOString now workflowOracle processOracle
              workflowListing processListing w in
  dom (activeProcesses w') = dom (activeProcesses w) /\
  (forall processId processInfo',
      activeProcesses w' !! processId = Some processInfo' ->
      p_state processInfo' = COMPLETED \/ p_state processInfo' = ERROR) /\
  (forall workflowId workflow,
      workflowStates w !! workflowId = Some workflow ->
      w_state workflow = running ->
      exists workflow',
        workflowStates w' !! workflowId = Some workflow' /\
        w_state workflow' = stopped) /\
  (forall workflowId workflow,
      workflowStates w !! workflowId = Some workflow ->
      w_state workflow <> running ->
      workflowStates w' !! workflowId = Some workflow).
Proof.
  intros Hprocesses Hworkflows. cbv zeta. unfold simulationStop.
  set (listedRunning :=
         filter (fun workflowId =>
                   (w_state <$> workflowStates w !! workflowId) = Some running)
           workflowListing).
  destruct (stopWorkflows_effect toISOString now workflowOracle listedRunning w)
    as (Hdom1 & Hother1 & Hstopped1).
  set (w1 := fold_left
               (fun w workflowId =>
                  snd (stopWorkflow toISOString now workflowOracle workflowId w))
               listedRunning w) in *.
  destruct (stopAll_effect toISOString now processOracle processListing w1)
    as (Hwf & _ & Hdom & Hterm & _).
  set (w2 := fold_left _ processListing w1) in *.
  split; [congruence|]. split; [|split].
  - intros processId processInfo' Hget.
    assert (Hin : processId ∈ processListing).
    { apply Hprocesses, elem_of_dom. rewrite <- Hdom1, <- Hdom.
      apply elem_of_dom. by eexists. }
    specialize (Hterm processId processInfo' Hin Hget).
    destruct (p_state processInfo'); simpl in Hterm; try discriminate; auto.
  - intros workflowId workflow Hget Hrunning. rewrite Hwf.
    apply (Hstopped1 workflowId workflow); [|done|by left].
    apply list_elem_of_filter. split; [by rewrite Hget; simpl; rewrite Hrunning|].
    apply Hworkflows. by eexists.
  - intros workflowId workflow Hget Hnot. rewrite Hwf, Hother1; [done|].
    intros Hin. apply list_elem_of_filter in Hin as [Hst _].
    rewrite Hget in Hst. simpl in Hst. by injection Hst.
Qed.

Lemma simulationStop_leaves_nothing_running_witness :
  let w := scenarioSecondRunning (fun _ => "t") in
  let w' := simulationStop (fun _ => "t") 6000 (fun _ => (None, Some "disk full"))
              (fun _ => (Some "ESRCH", None))
              [scenarioWorkflowId] [scenarioFirstId; scenarioSecondId] w in
  dom (activeProcesses w') = dom (activeProcesses w) /\
  exists workflow',
    workflowStates w' !! scenarioWorkflowId = Some workflow' /\
    w_state workflow' = stopped.
Proof.
  intros w w'.
  assert (Hprocesses : forall processId,
             is_Some (activeProcesses w !! processId) ->
             processId ∈ [scenarioFirstId; scenarioSecondId]).
  { intros processId Hsome. apply elem_of_dom in Hsome. revert processId Hsome.
    apply (bool_decide_unpack
             (set_Forall (fun processId => processId ∈ [scenarioFirstId; scenarioSecondId])
                (dom (activeProcesses w)))).
    vm_compute. exact I. }
  assert (Hworkflows : forall workflowId,
             is_Some (workflowStates w !! workflowId) ->
             workflowId ∈ [scenarioWorkflowId]).
  { intros workflowId Hsome. apply elem_of_dom in Hsome. revert workflowId Hsome.
    apply (bool_decide_unpack
             (set_Forall (fun workflowId => workflowId ∈ [scenarioWorkflowId])
                (dom (workflowStates w)))).
    vm_compute. exact I. }
  destruct (simulationStop_leaves_nothing_running (fun _ => "t") 6000
              (fun _ => (None, Some "disk full")) (fun _ => (Some "ESRCH", None))
              [scenarioWorkflowId] [scenarioFirstId; scenarioSecondId] w
              Hprocesses Hworkflows) as (Hdom & _ & Hstopped & _).
  split; [exact Hdom|].
  apply (Hstopped scenarioWorkflowId
           {| w_id := scenarioWorkflowId; w_type := "evidence-collection";
              w_parameters := []; w_definition := scenarioTemplate [];
              w_currentStep := 1; w_state := running;
              w_processes := [scenarioFirstId; scenarioSecondId];
              w_startTime := 1000; w_updateTime := 4000;
              w_endTime := None; w_error := None |});
    [vm_compute; reflexivity | reflexivity].
Defined.
